(** * Status tracking and incremental rendering of the assistant client

    A shallow embedding of [static/assistant.js]: the message list of the
    page, the submission of a turn ([handleSend], [sendToServer]), the
    status polling loop ([startStatusPolling]), the critic polling loop
    ([startCriticPolling]) and the background score refresher
    ([pollCriticScores]).

    JavaScript runs every timer callback and every continuation of an
    [await] to completion before the next one starts.  Each such synchronous
    segment is one [Event] below, and [step] is its effect on the [World];
    an interleaving of the loops is a list of events.  The model does not
    count the requests of a polling loop that are in flight: a response
    event stands for the settling of any one of them, so every schedule of
    the page is a list of events (and some lists are no schedule).

    [refreshSession] and the sibling lookup of [preferOutput] are modelled
    as functions beside the events; the second-assistant toggle is a
    field of the world that no event changes. *)

From Stdlib Require Import ZArith QArith Qabs Qround Ascii String.
From stdpp Require Import base list strings pretty.

Open Scope string_scope.
Open Scope list_scope.

(** ** Numbers and strings of the runtime *)

(** Scores are JSON numbers.  Every finite double is a rational, and the
    comparisons and [toFixed] of the language are defined on that exact
    value, so a score is a [Q]. *)
Module JsNum.

(** [a >= b] *)
Definition ge (a b : Q) : bool := Qle_bool b a.

(** Truthiness of a number: everything but zero. *)
Definition truthy (q : Q) : bool := negb (Qeq_bool q 0).

Definition negative (q : Q) : bool := negb (Qle_bool 0 q).

(** [q.toFixed(1)] for a magnitude below 10^21: the integer [n] with
    [n / 10] nearest to the magnitude of [q], the larger one on a tie,
    printed with one fractional digit. *)
Definition toFixed1 (q : Q) : string :=
  let n := Qfloor (Qabs q * inject_Z 10 + (1 # 2)) in
  (if negative q then "-" else "")
    +:+ pretty (n / 10)%Z +:+ "." +:+ pretty (n mod 10)%Z.

Fixpoint frac_digits (fuel : nat) (num den : Z) : string :=
  match fuel with
  | O => ""
  | S fuel' =>
      if (num =? 0)%Z then ""
      else pretty (num * 10 / den)%Z
             +:+ frac_digits fuel' ((num * 10) mod den)%Z den
  end.

(** [String(q)], also what assigning a number to [textContent] stores: the
    decimal expansion of [q].  It is the runtime's shortest round-trip
    form for integers and for the short decimals that scores are. *)
Definition toString (q : Q) : string :=
  let a := Qabs q in
  let ip := Qfloor a in
  let fr := frac_digits 20 (Qnum a - ip * Zpos (Qden a))%Z (Zpos (Qden a)) in
  (if negative q then "-" else "")
    +:+ pretty ip +:+ (if (fr =? "")%string then "" else "." +:+ fr).

End JsNum.

(** A text that the user types or that a bubble shows: a string of the
    runtime as the sequence of its UTF-16 code units, each a number below
    65536.  [trim] looks at single code units, also above 255, so these
    texts are kept unit by unit.  Identifiers, status codes and the texts
    of the backend are only compared, concatenated and tested for
    emptiness; they are kept as [string]s and become texts where the page
    shows them. *)
Definition Text := list N.

Definition text_of (s : string) : Text :=
  List.map N_of_ascii (list_ascii_of_string s).

Coercion text_of : string >-> Text.

Module JsString.

(** The code units that [String.prototype.trim] strips, the WhiteSpace and
    LineTerminator of the language: tab, line feed, vertical tab, form
    feed, carriage return, space, no-break space (U+00A0), U+1680,
    U+2000 to U+200A, U+2028, U+2029, U+202F, U+205F, U+3000 and
    U+FEFF. *)
Definition is_whitespace (c : N) : bool :=
  match c with
  | 9%N | 10%N | 11%N | 12%N | 13%N | 32%N | 160%N | 5760%N
  | 8232%N | 8233%N | 8239%N | 8287%N | 12288%N | 65279%N => true
  | _ => (8192 <=? c)%N && (c <=? 8202)%N
  end.

Fixpoint trimStart (s : Text) : Text :=
  match s with
  | [] => []
  | c :: s' => if is_whitespace c then trimStart s' else s
  end.

Fixpoint trimEnd (s : Text) : Text :=
  match s with
  | [] => []
  | c :: s' =>
      match trimEnd s' with
      | [] => if is_whitespace c then [] else [ c ]
      | r => c :: r
      end
  end.

Definition trim (s : Text) : Text := trimEnd (trimStart s).

(** Truthiness of a text: non-empty. *)
Definition nonempty (s : Text) : bool :=
  match s with
  | [] => false
  | _ :: _ => true
  end.

(** [s.includes(sub)] *)
Fixpoint includes (sub s : string) : bool :=
  String.prefix sub s
  || match s with
     | EmptyString => false
     | String _ s' => includes sub s'
     end.

(** Truthiness of a string: non-empty. *)
Definition truthy (s : string) : bool := negb (s =? "")%string.

End JsString.

(** An optional text property of a JSON object: [None] when the property
    is absent or [null]. *)
Definition truthy_text (o : option string) : bool :=
  match o with
  | Some s => JsString.truthy s
  | None => false
  end.

(** Truthiness of an optional object. *)
Definition present {A : Type} (o : option A) : bool :=
  match o with
  | Some _ => true
  | None => false
  end.

(** A numeric property that the code tells apart from [null] and from
    [undefined]. *)
Inductive ScoreField :=
| ScoreUndefined
| ScoreNull
| ScoreNum (q : Q).

(** ** The page *)

Inductive Role := User | Assistant.

(** The [.critic-score] circle of a bubble: its background class and its
    text. *)
Record Badge := {
  badge_color : string;
  badge_text : string
}.

(** A message bubble built by [addMessageToChat]. *)
Record Bubble := {
  data_message_id : string;
  bubble_text : Text;
  bubble_role : Role;
  dummy_message : bool;
  critic_circle : option Badge;
  data_critique_displayed : bool;
  data_parent_id : option string;
  data_output_number : option nat;
  prefer_button : bool
}.

(** One rendered score of a critique: colour class and text. *)
Record ScoreView := {
  sv_class : string;
  sv_text : string
}.

Record SectionView := {
  sec_title : string;
  sec_score : ScoreView;
  sec_reason : string
}.

(** The blocks that make up the [innerHTML] of a processing-steps
    container, in order. *)
Inductive Block :=
| BInitializing
| BHeading (text : string)
| BStatus (cls label : string)
| BNer (json : string)
| BSearchCall (query : string)
| BSearchResults (numMatches shownToAgent results : string)
| BThinking (text : string)
| BEvaluation (total : ScoreView) (sections : list SectionView)
    (summary : option string)
| BImproved (original improved : ScoreView) (content : string).

(** The [.critique-container] built by [displayCritiqueAndRegeneration]. *)
Record CritiquePanel := {
  cp_total : option ScoreView;
  cp_sections : list SectionView;
  cp_summary : option string;
  cp_has_critique : bool;
  cp_comparison : option (ScoreView * ScoreView);
  cp_regenerated : option string
}.

Inductive Node :=
| NBubble (b : Bubble)
| NSteps (id : string) (html : list Block)
| NCritique (c : CritiquePanel).

(** A child of [#messages].  [nid] is the identity of the element: closures
    keep references to elements across [await]s. *)
Record Elem := {
  nid : nat;
  node : Node
}.

Definition DOM := list Elem.

Module Dom.

Definition has_message_id (id : string) (e : Elem) : bool :=
  match node e with
  | NBubble b => (data_message_id b =? id)%string
  | _ => false
  end.

(** [document.querySelector(`[data-message-id='${id}']`)] *)
Definition querySelector (id : string) (d : DOM) : option Elem :=
  List.find (has_message_id id) d.

Definition bubble_of (e : Elem) : option Bubble :=
  match node e with
  | NBubble b => Some b
  | _ => None
  end.

Definition message (id : string) (d : DOM) : option Bubble :=
  match querySelector id d with
  | Some e => bubble_of e
  | None => None
  end.

(** Mutation of the first bubble carrying [id]. *)
Fixpoint update_message (id : string) (f : Bubble -> Bubble) (d : DOM) : DOM :=
  match d with
  | [] => []
  | e :: d' =>
      match node e with
      | NBubble b =>
          if (data_message_id b =? id)%string
          then {| nid := nid e; node := NBubble (f b) |} :: d'
          else e :: update_message id f d'
      | _ => e :: update_message id f d'
      end
  end.

(** Mutation of the element whose identity is [n]; an element that is no
    longer in the document is not visible, so nothing changes. *)
Definition update_elem (n : nat) (f : Node -> Node) (d : DOM) : DOM :=
  List.map (fun e => if (nid e =? n)%nat
                     then {| nid := nid e; node := f (node e) |} else e) d.

Definition has_class_dummy (e : Elem) : bool :=
  match node e with
  | NBubble b => dummy_message b
  | _ => false
  end.

Definition has_class_assistant (e : Elem) : bool :=
  match node e with
  | NBubble b => match bubble_role b with Assistant => true | User => false end
  | _ => false
  end.

Definition has_data_message_id (e : Elem) : bool :=
  match node e with
  | NBubble _ => true
  | _ => false
  end.

Definition set_badge_text (t : string) (color : string) (b : Bubble) : Bubble :=
  {| data_message_id := data_message_id b;
     bubble_text := bubble_text b;
     bubble_role := bubble_role b;
     dummy_message := dummy_message b;
     critic_circle :=
       Some match critic_circle b with
            | Some c => {| badge_color := badge_color c; badge_text := t |}
            | None => {| badge_color := color; badge_text := t |}
            end;
     data_critique_displayed := data_critique_displayed b;
     data_parent_id := data_parent_id b;
     data_output_number := data_output_number b;
     prefer_button := prefer_button b |}.

Definition ensure_badge (color : string) (b : Bubble) : Bubble :=
  {| data_message_id := data_message_id b;
     bubble_text := bubble_text b;
     bubble_role := bubble_role b;
     dummy_message := dummy_message b;
     critic_circle :=
       Some match critic_circle b with
            | Some c => c
            | None => {| badge_color := color; badge_text := "" |}
            end;
     data_critique_displayed := data_critique_displayed b;
     data_parent_id := data_parent_id b;
     data_output_number := data_output_number b;
     prefer_button := prefer_button b |}.

Definition set_critique_displayed (b : Bubble) : Bubble :=
  {| data_message_id := data_message_id b;
     bubble_text := bubble_text b;
     bubble_role := bubble_role b;
     dummy_message := dummy_message b;
     critic_circle := critic_circle b;
     data_critique_displayed := true;
     data_parent_id := data_parent_id b;
     data_output_number := data_output_number b;
     prefer_button := prefer_button b |}.

Definition is_panel_block (b : Block) : bool :=
  match b with
  | BEvaluation _ _ _ | BImproved _ _ _ => true
  | _ => false
  end.

End Dom.

(** What assigning a score to [textContent] stores. *)
Definition score_text (s : ScoreField) : string :=
  match s with
  | ScoreNum q => JsNum.toString q
  | _ => ""
  end.

Definition is_undefined (s : ScoreField) : bool :=
  match s with
  | ScoreUndefined => true
  | _ => false
  end.

Definition truthy_number (o : option nat) : bool :=
  match o with
  | Some (S _) => true
  | _ => false
  end.

(** [addMessageToChat(id, text, role, criticScore, isDummy, parentId,
    outputNumber)].  [fresh] is the identity of the element it creates and
    [secondAssistant] the state of the toggle it reads. *)
Definition addMessageToChat (id : string) (text : Text) (role : Role)
    (criticScore : ScoreField) (isDummy : bool) (parentId : option string)
    (outputNumber : option nat) (secondAssistant : bool) (fresh : nat)
    (d : DOM) : DOM :=
  match Dom.querySelector id d with
  | Some _ =>
      if is_undefined criticScore then d
      else Dom.update_message id
             (Dom.set_badge_text (score_text criticScore) "bg-red-500") d
  | None =>
      let isAssistant :=
        match role with Assistant => true | User => false end in
      d ++ [ {| nid := fresh;
                node := NBubble
                  {| data_message_id := id;
                     bubble_text := text;
                     bubble_role := role;
                     dummy_message := isDummy;
                     critic_circle :=
                       if isAssistant && negb (is_undefined criticScore)
                       then Some {| badge_color := "bg-red-500";
                                    badge_text := score_text criticScore |}
                       else None;
                     data_critique_displayed := false;
                     data_parent_id :=
                       if truthy_text parentId then parentId else None;
                     data_output_number :=
                       if truthy_number outputNumber then outputNumber
                       else None;
                     prefer_button :=
                       isAssistant && secondAssistant
                       && truthy_number outputNumber |} |} ]
  end.

(** [removePlaceholders()]: first every [.dummy-message], then every
    [.assistant-message:not([data-message-id])]. *)
Definition removePlaceholders (d : DOM) : DOM :=
  let d1 := List.filter (fun e => negb (Dom.has_class_dummy e)) d in
  List.filter (fun e => negb (Dom.has_class_assistant e
                              && negb (Dom.has_data_message_id e))) d1.

(** The colour class [updateCriticBadge] picks for a new badge. *)
Definition badgeColor (score : Q) : string :=
  if JsNum.ge score (inject_Z 9) then "bg-green-500"
  else if JsNum.ge score (inject_Z 8) then "bg-blue-500"
  else if JsNum.ge score (inject_Z 7) then "bg-yellow-500"
  else "bg-red-500".

(** [updateCriticBadge(messageId, score)] *)
Definition updateCriticBadge (messageId : string) (score : Q) (d : DOM) : DOM :=
  Dom.update_message messageId
    (Dom.set_badge_text (JsNum.toFixed1 score) (badgeColor score)) d.

(** ** Data received from the backend *)

Record SearchResults := {
  num_matches : option Z;
  show_results_to_actor : bool;
  results : option string
}.

(** [processing_data] of a status response.  [ner_results] is an object;
    the model keeps its [JSON.stringify(_, null, 2)] text. *)
Record ProcessingData := {
  ner_results : option string;
  search_call : option string;
  search_results : option SearchResults;
  thinking : option string
}.

(** The body of [GET /assistant/chat/status/{message_id}]. *)
Record StatusData := {
  status : string;
  message_id : string;
  content : option string;
  critic_score : ScoreField;
  processing_data : option ProcessingData
}.

Record CritiqueSection := {
  score : option Q;
  reason : string
}.

Record Critique := {
  total_score : option Q;
  adherence_to_search : option CritiqueSection;
  question_format : option CritiqueSection;
  conversational_quality : option CritiqueSection;
  contextual_intelligence : option CritiqueSection;
  overall_effectiveness : option CritiqueSection;
  summary : option string
}.

(** The object that [JSON.parse(search_output)] yields. *)
Record SearchData := {
  critique : option Critique;
  regenerated_content : option string;
  regenerated_critique : option Critique
}.

(** The [search_output] text of a message: absent or empty, text on which
    [JSON.parse] (or the first property access on its result) throws, or
    text that parses to an object. *)
Inductive SearchOutput :=
| SOAbsent
| SOMalformed
| SOParsed (d : SearchData).

(** The body of [GET /assistant/chat/message/{message_id}]. *)
Record MsgData := {
  md_id : string;
  md_critic_score : ScoreField;
  md_search_output : SearchOutput
}.

(** An element of [scores] in the body of the bulk score refresh. *)
Record ScoreObj := {
  so_id : string;
  so_critic_score : ScoreField
}.

(** The body of [POST /assistant/chat]. *)
Record SubmitData := {
  sd_error : option string;
  sd_chat_id : option string;
  sd_user_message : option (string * string);
  sd_message_id : option string
}.

(** The outcome of one request of a polling loop: the [fetch] (or the
    decoding of its body) rejects, the response is not [ok], or a body
    arrives. *)
Inductive PollResult (A : Type) :=
| Rejected
| NotOk
| Ok (body : A).

Arguments Rejected {A}.
Arguments NotOk {A}.
Arguments Ok {A} body.

(** ** Rendering *)

Definition statusMap : list (string * string) :=
  [ ("processing_started", "Starting Processing...");
    ("ner_started", "Extracting Travel Preferences...");
    ("ner_completed", "Preferences Extracted");
    ("ner_error", "Error Extracting Preferences");
    ("search_started", "Generating Search Query...");
    ("search_call_completed", "Search Query Generated");
    ("search_completed", "Search Results Retrieved");
    ("search_error", "Error in Search Processing");
    ("generating_response", "Generating Assistant Response...");
    ("response_generated", "Response Generated");
    ("response_error", "Error Generating Response");
    ("completed", "Processing Complete");
    ("error", "Error Occurred") ].

Fixpoint assoc (k : string) (l : list (string * string)) : option string :=
  match l with
  | [] => None
  | (k', v) :: l' => if (k' =? k)%string then Some v else assoc k l'
  end.

(** [formatStatus(status)] *)
Definition formatStatus (st : string) : string :=
  match assoc st statusMap with
  | Some label => label
  | None => st
  end.

(** [getStatusColorClass(status)] *)
Definition getStatusColorClass (st : string) : string :=
  if (st =? "error")%string || JsString.includes "error" st then "bg-red-100"
  else if (st =? "completed")%string || (st =? "response_generated")%string
       then "bg-green-100"
  else "bg-blue-100".

(** [getScoreColorClass(score)]; [None] is [NaN]. *)
Definition getScoreColorClass (sc : option Q) : string :=
  match sc with
  | Some q =>
      if JsNum.ge q (inject_Z 9) then "text-green-600"
      else if JsNum.ge q (inject_Z 8) then "text-blue-600"
      else if JsNum.ge q (inject_Z 7) then "text-yellow-600"
      else "text-red-600"
  | None => "text-red-600"
  end.

(** [parseFloat(x).toFixed(1)]; [None] is [NaN]. *)
Definition fixed1 (sc : option Q) : string :=
  match sc with
  | Some q => JsNum.toFixed1 q
  | None => "NaN"
  end.

(** [updateProcessingStepsDisplay(statusData, container)]: the new
    [innerHTML] of the container. *)
Definition updateProcessingStepsDisplay (sd : StatusData) : list Block :=
  match processing_data sd with
  | None =>
      [ BHeading "Processing Your Request";
        BStatus "bg-blue-100" (formatStatus (status sd)) ]
  | Some data =>
      [ BHeading "Processing Steps";
        BStatus (getStatusColorClass (status sd)) (formatStatus (status sd)) ]
      ++ match ner_results data with
         | Some j => [ BNer j ]
         | None => []
         end
      ++ (if truthy_text (search_call data)
          then [ BSearchCall (default "" (search_call data)) ] else [])
      ++ match search_results data with
         | Some r =>
             [ BSearchResults
                 match num_matches r with
                 | Some n => if (n =? 0)%Z then "Unknown" else pretty n
                 | None => "Unknown"
                 end
                 (if show_results_to_actor r then "Yes" else "No")
                 (if truthy_text (results r) then default "" (results r)
                  else "") ]
         | None => []
         end
      ++ (if truthy_text (thinking data)
          then [ BThinking (default "" (thinking data)) ] else [])
  end.

(** [createCritiqueSection(title, data)] *)
Definition createCritiqueSection (title : string) (data : CritiqueSection)
    : SectionView :=
  {| sec_title := title;
     sec_score := {| sv_class := getScoreColorClass (score data);
                     sv_text := fixed1 (score data) +:+ "/10" |};
     sec_reason := reason data |}.

Definition commonSections (c : Critique)
    : list (string * option CritiqueSection) :=
  [ ("Question Format & Pacing", question_format c);
    ("Conversational Quality", conversational_quality c);
    ("Contextual Intelligence", contextual_intelligence c);
    ("Overall Effectiveness", overall_effectiveness c) ].

(** [x.total_score || 0] *)
Definition total_or_zero (c : option Critique) : Q :=
  match c with
  | Some c' =>
      match total_score c' with
      | Some q => if JsNum.truthy q then q else 0%Q
      | None => 0%Q
      end
  | None => 0%Q
  end.

Definition scoreView (q : Q) : ScoreView :=
  {| sv_class := getScoreColorClass (Some q); sv_text := JsNum.toFixed1 q |}.

(** [displayCritiqueInSteps(searchData, stepsContainer, messageId)]: the
    blocks appended to the [innerHTML] of the container. *)
Definition displayCritiqueInSteps (sd : SearchData) : list Block :=
  match critique sd with
  | Some c =>
      [ BEvaluation (scoreView (total_or_zero (critique sd)))
          (match adherence_to_search c with
           | Some s => [ createCritiqueSection "Adherence to Search" s ]
           | None => []
           end
           ++ omap (fun p => createCritiqueSection (fst p) <$> snd p)
                (commonSections c))
          (if truthy_text (summary c) then summary c else None) ]
  | None => []
  end
  ++ (if truthy_text (regenerated_content sd)
      then [ BImproved (scoreView (total_or_zero (critique sd)))
               (scoreView (total_or_zero (regenerated_critique sd)))
               (default "" (regenerated_content sd)) ]
      else []).

(** The value of [parseFloat(q.toFixed(1))]. *)
Definition round1 (q : Q) : Q :=
  let n := Qfloor (Qabs q * inject_Z 10 + (1 # 2)) in
  if JsNum.negative q then Qopp (n # 10) else (n # 10).

(** A section of the collapsed details in [displayCritiqueAndRegeneration].
    It calls [createCritiqueSection(title, x.score, x.reason)], so the
    second parameter is the score itself: reading [.score] of a number
    gives [undefined], and reading it of [undefined] throws ([None]). *)
Definition detailSection (title : string) (s : CritiqueSection)
    : option SectionView :=
  match score s with
  | Some _ =>
      Some {| sec_title := title;
              sec_score := {| sv_class := getScoreColorClass None;
                              sv_text := fixed1 None +:+ "/10" |};
              sec_reason := "undefined" |}
  | None => None
  end.

Fixpoint detailSections (l : list (string * option CritiqueSection))
    : option (list SectionView) :=
  match l with
  | [] => Some []
  | (_, None) :: l' => detailSections l'
  | (title, Some s) :: l' =>
      match detailSection title s, detailSections l' with
      | Some v, Some vs => Some (v :: vs)
      | _, _ => None
      end
  end.

(** The container that [displayCritiqueAndRegeneration] builds from the
    parsed text; [None] when building it throws. *)
Definition critiqueContainer (sd : SearchData) : option CritiquePanel :=
  let regen := truthy_text (regenerated_content sd) in
  let comparison :=
    match regenerated_critique sd, critique sd with
    | Some rc, Some c =>
        match total_score rc, total_score c with
        | Some new, Some old =>
            Some ({| sv_class := getScoreColorClass (Some (round1 old));
                     sv_text := JsNum.toFixed1 old |},
                  {| sv_class := getScoreColorClass (Some (round1 new));
                     sv_text := JsNum.toFixed1 new |})
        | _, _ => None
        end
    | _, _ => None
    end in
  match critique sd with
  | Some c =>
      match detailSections
              (("Adherence to Search Result Handling", adherence_to_search c)
                 :: commonSections c) with
      | Some secs =>
          Some {| cp_total :=
                    match total_score c with
                    | Some q => Some {| sv_class := badgeColor q;
                                        sv_text := JsNum.toFixed1 q |}
                    | None => None
                    end;
                  cp_sections := secs;
                  cp_summary :=
                    if truthy_text (summary c) then summary c else None;
                  cp_has_critique := true;
                  cp_comparison := if regen then comparison else None;
                  cp_regenerated :=
                    if regen then regenerated_content sd else None |}
      | None => None
      end
  | None =>
      Some {| cp_total := None;
              cp_sections := [];
              cp_summary := None;
              cp_has_critique := false;
              cp_comparison := None;
              cp_regenerated :=
                if regen then regenerated_content sd else None |}
  end.

(** [displayCritiqueAndRegeneration(message)] *)
Definition displayCritiqueAndRegeneration (m : MsgData) (fresh : nat)
    (d : DOM) : DOM :=
  match md_search_output m with
  | SOAbsent => d
  | SOMalformed => d
  | SOParsed sd =>
      if negb (present (critique sd))
         && negb (truthy_text (regenerated_content sd))
      then d
      else match critiqueContainer sd with
           | Some c => d ++ [ {| nid := fresh; node := NCritique c |} ]
           | None => d
           end
  end.

(** ** Closures, turns and the world *)

(** The calls a turn makes, in order; kept beside the state so that
    statements can count them. *)
Inductive Call :=
| CAddMessage (id : string) (isDummy : bool)
| CRemovePlaceholders
| CFetchChat
| CFetchStatus
| CRender (st : string)
| CClearStatusInterval
| CStartCriticPolling
| CFetchMessage
| CDisplayCritiqueInSteps
| CUpdateCriticBadge (id : string)
| CClearCriticInterval.

(** The variables captured by the callback of [startStatusPolling]. *)
Record StatusLoop := {
  sl_messageId : string;
  sl_stepsContainer : nat;
  lastStatus : string;
  finalResponseShown : bool;
  sl_polling : bool
}.

(** The variables captured by the callback of [startCriticPolling]. *)
Record CriticLoop := {
  cl_messageId : string;
  cl_stepsContainer : nat;
  criticShown : bool;
  cl_polling : bool
}.

(** Where the submission of a turn stands: [handleSend] has armed the
    one-second timer, [sendToServer] awaits its request, or the request
    has settled. *)
Inductive Phase := Scheduled | Submitting | Settled.

Record Turn := {
  t_text : Text;
  t_phase : Phase;
  t_status : option StatusLoop;
  t_critic : option CriticLoop;
  t_calls : list Call
}.

Record World := {
  dom : DOM;
  next_nid : nat;
  user_input : Text;
  currentChatId : option string;
  second_assistant : bool;
  turns : list Turn;
  (** detail requests of [pollCriticScores] in flight: the bubble each
      callback captured and the message asked for *)
  detail_fetches : list (nat * string)
}.

Definition initial : World :=
  {| dom := []; next_nid := 0; user_input := ""; currentChatId := None;
     second_assistant := false; turns := []; detail_fetches := [] |}.

Definition set_html (html : list Block) (n : Node) : Node :=
  match n with
  | NSteps id _ => NSteps id html
  | _ => n
  end.

Definition append_html (html : list Block) (n : Node) : Node :=
  match n with
  | NSteps id old => NSteps id (old ++ html)
  | _ => n
  end.

Definition mark_displayed (n : Node) : Node :=
  match n with
  | NBubble b => NBubble (Dom.set_critique_displayed b)
  | _ => n
  end.

Definition set_turn (t : nat) (tn : Turn) (d : DOM) (fresh : nat) (w : World)
    : World :=
  {| dom := d; next_nid := fresh; user_input := user_input w;
     currentChatId := currentChatId w;
     second_assistant := second_assistant w;
     turns := <[t := tn]> (turns w);
     detail_fetches := detail_fetches w |}.

(** ** Submitting a turn *)

(** The turn that [handleSend] starts. *)
Definition newTurn (text : Text) : Turn :=
  {| t_text := text; t_phase := Scheduled; t_status := None;
     t_critic := None;
     t_calls := [ CAddMessage "temp-user" true;
                  CAddMessage "temp-assistant" true ] |}.

(** [handleSend()] *)
Definition handleSend (w : World) : World :=
  let text := JsString.trim (user_input w) in
  if negb (JsString.nonempty text) then w
  else
    let d1 := addMessageToChat "temp-user" text User ScoreUndefined true
                None None (second_assistant w) (next_nid w) (dom w) in
    let d2 := addMessageToChat "temp-assistant" "Assistant is typing..."
                Assistant ScoreUndefined true None None (second_assistant w)
                (S (next_nid w)) d1 in
    {| dom := d2; next_nid := S (S (next_nid w)); user_input := "";
       currentChatId := currentChatId w;
       second_assistant := second_assistant w;
       turns := turns w ++ [ newTurn text ];
       detail_fetches := detail_fetches w |}.

Definition submittingTurn (id1 id2 : string) (tn : Turn) : Turn :=
  {| t_text := t_text tn; t_phase := Submitting; t_status := None;
     t_critic := None;
     t_calls := t_calls tn ++
       [ CAddMessage id1 true; CAddMessage id2 true; CFetchChat ] |}.

(** [sendToServer(userInput)] up to its [await fetch]; [now1] and [now2]
    are the two readings of [Date.now()]. *)
Definition sendToServer (t : nat) (now1 now2 : N) (w : World) : World :=
  match turns w !! t with
  | Some tn =>
      match t_phase tn with
      | Scheduled =>
          let id1 := "temp-user-" +:+ pretty now1 in
          let id2 := "temp-assistant-" +:+ pretty now2 in
          let d1 := addMessageToChat id1 (t_text tn) User ScoreUndefined true
                      None None (second_assistant w) (next_nid w) (dom w) in
          let d2 := addMessageToChat id2 "Assistant is thinking..." Assistant
                      ScoreUndefined true None None (second_assistant w)
                      (S (next_nid w)) d1 in
          {| dom := d2; next_nid := S (S (next_nid w)); user_input := "";
             currentChatId := currentChatId w;
             second_assistant := second_assistant w;
             turns := <[t := submittingTurn id1 id2 tn]> (turns w);
             detail_fetches := detail_fetches w |}
      | _ => w
      end
  | None => w
  end.

Definition failedTurn (tn : Turn) : Turn :=
  {| t_text := t_text tn; t_phase := Settled; t_status := None;
     t_critic := None;
     t_calls := t_calls tn ++
       [ CRemovePlaceholders; CAddMessage "error" false ] |}.

(** The two failure exits of [sendToServer]: purge, then the synthetic
    error message. *)
Definition submitFailed (t : nat) (tn : Turn) (text : string) (w : World)
    : World :=
  set_turn t (failedTurn tn)
    (addMessageToChat "error" text Assistant ScoreUndefined false None None
       (second_assistant w) (next_nid w) (removePlaceholders (dom w)))
    (S (next_nid w)) w.

(** The variables of a status loop when [startStatusPolling(messageId)]
    returns; [container] is the steps container it has appended. *)
Definition startStatusPolling (messageId : string) (container : nat)
    : StatusLoop :=
  {| sl_messageId := messageId; sl_stepsContainer := container;
     lastStatus := ""; finalResponseShown := false; sl_polling := true |}.

(** The success exit of [sendToServer]: the turn. *)
Definition acceptedTurn (data : SubmitData) (container : nat) (tn : Turn)
    : Turn :=
  {| t_text := t_text tn; t_phase := Settled;
     t_status :=
       if truthy_text (sd_message_id data)
       then Some (startStatusPolling (default "" (sd_message_id data))
                    container)
       else None;
     t_critic := None;
     t_calls := t_calls tn ++ [ CRemovePlaceholders ]
       ++ match sd_user_message data with
          | Some (uid, _) => [ CAddMessage uid false ]
          | None => []
          end |}.

(** The success exit of [sendToServer]: the page. *)
Definition acceptedDom (data : SubmitData) (secondAssistant : bool)
    (fresh : nat) (d : DOM) : DOM :=
  let d1 :=
    match sd_user_message data with
    | Some (uid, ucontent) =>
        addMessageToChat uid ucontent User ScoreUndefined false None None
          secondAssistant fresh (removePlaceholders d)
    | None => removePlaceholders d
    end in
  if truthy_text (sd_message_id data)
  then d1 ++ [ {| nid := S fresh;
                  node := NSteps ("processing-steps-"
                                  +:+ default "" (sd_message_id data))
                            [ BInitializing ] |} ]
  else d1.

(** [sendToServer] after its request has settled; [None] is a rejected
    [fetch] (or an undecodable body), which its [catch] handles.  The
    success exit runs the synchronous start of [startStatusPolling]. *)
Definition submitSettled (t : nat) (r : option SubmitData) (w : World)
    : World :=
  match turns w !! t with
  | Some tn =>
      match t_phase tn with
      | Submitting =>
          match r with
          | None =>
              submitFailed t tn "Error: Failed to get response from server." w
          | Some data =>
              if truthy_text (sd_error data)
              then submitFailed t tn (default "" (sd_error data)) w
              else
                {| dom := acceptedDom data (second_assistant w) (next_nid w)
                            (dom w);
                   next_nid := S (S (next_nid w));
                   user_input := user_input w;
                   currentChatId :=
                     if truthy_text (sd_chat_id data) then sd_chat_id data
                     else currentChatId w;
                   second_assistant := second_assistant w;
                   turns := <[t := acceptedTurn data (S (next_nid w)) tn]>
                              (turns w);
                   detail_fetches := detail_fetches w |}
          end
      | _ => w
      end
  | None => w
  end.

(** ** The status polling loop *)

Definition isTerminal (st : string) : bool :=
  (st =? "response_generated")%string || (st =? "completed")%string
  || (st =? "error")%string.

(** [statusData.status !== lastStatus || !lastStatus] *)
Definition shouldRender (sd : StatusData) (sl : StatusLoop) : bool :=
  negb (status sd =? lastStatus sl)%string
  || negb (JsString.truthy (lastStatus sl)).

(** The guard of the final branch of the callback. *)
Definition isFinal (sd : StatusData) (sl : StatusLoop) : bool :=
  isTerminal (status sd) && negb (finalResponseShown sl)
  && truthy_text (content sd).

(** What the claims call a terminal snapshot that carries content. *)
Definition qualifies (sd : StatusData) : bool :=
  isTerminal (status sd) && truthy_text (content sd).

Definition statusStopped (sl : StatusLoop) : StatusLoop :=
  {| sl_messageId := sl_messageId sl;
     sl_stepsContainer := sl_stepsContainer sl;
     lastStatus := lastStatus sl;
     finalResponseShown := finalResponseShown sl;
     sl_polling := false |}.

Definition with_status (tn : Turn) (sl : StatusLoop) (cs : list Call) : Turn :=
  {| t_text := t_text tn; t_phase := t_phase tn; t_status := Some sl;
     t_critic := t_critic tn; t_calls := t_calls tn ++ cs |}.

(** The interval of [startStatusPolling] fires: a request goes out. *)
Definition statusTick (t : nat) (w : World) : World :=
  match turns w !! t with
  | Some tn =>
      match t_status tn with
      | Some sl =>
          if sl_polling sl
          then set_turn t (with_status tn sl [ CFetchStatus ]) (dom w)
                 (next_nid w) w
          else w
      | None => w
      end
  | None => w
  end.

(** The variables of a critic loop when [startCriticPolling] returns. *)
Definition startCriticPolling (messageId : string) (container : nat)
    : CriticLoop :=
  {| cl_messageId := messageId; cl_stepsContainer := container;
     criticShown := false; cl_polling := true |}.

(** The callback of [startStatusPolling] on a body [sd]: what it does to
    the variables it captured and the calls it makes. *)
Definition statusTurn (sd : StatusData) (sl : StatusLoop) (tn : Turn) : Turn :=
  let render := shouldRender sd sl in
  let last := if render then status sd else lastStatus sl in
  let c1 := if render then [ CRender (status sd) ] else [] in
  if isFinal sd sl
  then
    {| t_text := t_text tn; t_phase := t_phase tn;
       t_status :=
         Some {| sl_messageId := sl_messageId sl;
                 sl_stepsContainer := sl_stepsContainer sl;
                 lastStatus := last;
                 finalResponseShown := true;
                 sl_polling := false |};
       t_critic :=
         Some (startCriticPolling (sl_messageId sl) (sl_stepsContainer sl));
       t_calls := t_calls tn ++ c1 ++
         [ CRemovePlaceholders; CAddMessage (message_id sd) false;
           CClearStatusInterval; CStartCriticPolling ] |}
  else
    with_status tn
      {| sl_messageId := sl_messageId sl;
         sl_stepsContainer := sl_stepsContainer sl;
         lastStatus := last;
         finalResponseShown := finalResponseShown sl;
         sl_polling := sl_polling sl |} c1.

(** The first half of the callback on the page: the steps container is
    rewritten when the status has changed. *)
Definition renderSteps (sd : StatusData) (sl : StatusLoop) (d : DOM) : DOM :=
  if shouldRender sd sl
  then Dom.update_elem (sl_stepsContainer sl)
         (set_html (updateProcessingStepsDisplay sd)) d
  else d.

(** The same callback: what it does to the page. *)
Definition statusDom (sd : StatusData) (sl : StatusLoop)
    (secondAssistant : bool) (fresh : nat) (d : DOM) : DOM :=
  if isFinal sd sl
  then addMessageToChat (message_id sd) (default "" (content sd)) Assistant
         (critic_score sd) false None None secondAssistant fresh
         (removePlaceholders (renderSteps sd sl d))
  else renderSteps sd sl d.

(** The callback of [startStatusPolling] once its request has settled. *)
Definition statusSettled (t : nat) (r : PollResult StatusData) (w : World)
    : World :=
  match turns w !! t with
  | Some tn =>
      match t_status tn with
      | Some sl =>
          match r with
          | Rejected => w
          | NotOk =>
              set_turn t
                (with_status tn (statusStopped sl) [ CClearStatusInterval ])
                (dom w) (next_nid w) w
          | Ok sd =>
              set_turn t (statusTurn sd sl tn)
                (statusDom sd sl (second_assistant w) (next_nid w) (dom w))
                (S (next_nid w)) w
          end
      | None => w
      end
  | None => w
  end.

(** The three-minute timer of [startStatusPolling]. *)
Definition statusTimeout (t : nat) (w : World) : World :=
  match turns w !! t with
  | Some tn =>
      match t_status tn with
      | Some sl =>
          set_turn t
            (with_status tn (statusStopped sl) [ CClearStatusInterval ])
            (dom w) (next_nid w) w
      | None => w
      end
  | None => w
  end.

(** ** The critic polling loop *)

Definition with_critic (tn : Turn) (cl : CriticLoop) (cs : list Call) : Turn :=
  {| t_text := t_text tn; t_phase := t_phase tn; t_status := t_status tn;
     t_critic := Some cl; t_calls := t_calls tn ++ cs |}.

Definition criticStopped (cl : CriticLoop) : CriticLoop :=
  {| cl_messageId := cl_messageId cl;
     cl_stepsContainer := cl_stepsContainer cl;
     criticShown := criticShown cl;
     cl_polling := false |}.

(** [if (msgData.critic_score)] *)
Definition truthy_score (s : ScoreField) : option Q :=
  match s with
  | ScoreNum q => if JsNum.truthy q then Some q else None
  | _ => None
  end.

(** [(searchData.critique || searchData.regenerated_content)] *)
Definition hasCritique (sd : SearchData) : bool :=
  present (critique sd) || truthy_text (regenerated_content sd).

Definition criticTick (t : nat) (w : World) : World :=
  match turns w !! t with
  | Some tn =>
      match t_critic tn with
      | Some cl =>
          if cl_polling cl
          then set_turn t (with_critic tn cl [ CFetchMessage ]) (dom w)
                 (next_nid w) w
          else w
      | None => w
      end
  | None => w
  end.

(** [... && !criticShown] *)
Definition shouldDisplay (sd : SearchData) (cl : CriticLoop) : bool :=
  hasCritique sd && negb (criticShown cl).

(** The callback of [startCriticPolling] on a body whose search output
    parsed to [sd]: the captured variables and the calls. *)
Definition criticTurn (m : MsgData) (sd : SearchData) (cl : CriticLoop)
    (tn : Turn) : Turn :=
  with_critic tn
    (if shouldDisplay sd cl
     then {| cl_messageId := cl_messageId cl;
             cl_stepsContainer := cl_stepsContainer cl;
             criticShown := true;
             cl_polling := false |}
     else cl)
    ((if shouldDisplay sd cl
      then [ CDisplayCritiqueInSteps; CClearCriticInterval ] else [])
     ++ match truthy_score (md_critic_score m) with
        | Some _ => [ CUpdateCriticBadge (md_id m) ]
        | None => []
        end).

(** The same callback: the page. *)
Definition criticDom (m : MsgData) (sd : SearchData) (cl : CriticLoop)
    (d : DOM) : DOM :=
  let d1 :=
    if shouldDisplay sd cl
    then Dom.update_elem (cl_stepsContainer cl)
           (append_html (displayCritiqueInSteps sd)) d
    else d in
  match truthy_score (md_critic_score m) with
  | Some q => updateCriticBadge (md_id m) q d1
  | None => d1
  end.

(** The callback of [startCriticPolling] once its request has settled. *)
Definition criticSettled (t : nat) (r : PollResult MsgData) (w : World)
    : World :=
  match turns w !! t with
  | Some tn =>
      match t_critic tn with
      | Some cl =>
          match r with
          | Rejected => w
          | NotOk =>
              set_turn t
                (with_critic tn (criticStopped cl) [ CClearCriticInterval ])
                (dom w) (next_nid w) w
          | Ok m =>
              match md_search_output m with
              | SOAbsent => w
              | SOMalformed => w
              | SOParsed sd =>
                  set_turn t (criticTurn m sd cl tn) (criticDom m sd cl (dom w))
                    (next_nid w) w
              end
          end
      | None => w
      end
  | None => w
  end.

(** The two-minute timer of [startCriticPolling]. *)
Definition criticTimeout (t : nat) (w : World) : World :=
  match turns w !! t with
  | Some tn =>
      match t_critic tn with
      | Some cl =>
          set_turn t
            (with_critic tn (criticStopped cl) [ CClearCriticInterval ])
            (dom w) (next_nid w) w
      | None => w
      end
  | None => w
  end.

(** ** The background score refresher *)

Definition set_page (d : DOM) (fetches : list (nat * string)) (w : World)
    : World :=
  {| dom := d; next_nid := next_nid w; user_input := user_input w;
     currentChatId := currentChatId w;
     second_assistant := second_assistant w; turns := turns w;
     detail_fetches := fetches |}.

(** The body of [data.scores.forEach] in [pollCriticScores], for one
    [scoreObj].  The boolean tells whether the body threw, which ends the
    whole [forEach]: calling [toString] on an absent score does.  The
    opacity toggle that forces a repaint is left out. *)
Definition refreshOne (so : ScoreObj) (w : World) : World * bool :=
  match Dom.querySelector (so_id so) (dom w) with
  | Some e =>
      let d1 := Dom.update_message (so_id so) (Dom.ensure_badge "bg-red-500")
                  (dom w) in
      let shown :=
        match Dom.bubble_of e with
        | Some b =>
            match critic_circle b with
            | Some c => badge_text c
            | None => ""
            end
        | None => ""
        end in
      let displayed :=
        match Dom.bubble_of e with
        | Some b => data_critique_displayed b
        | None => false
        end in
      match so_critic_score so with
      | ScoreNull => (set_page d1 (detail_fetches w) w, false)
      | ScoreUndefined => (set_page d1 (detail_fetches w) w, true)
      | ScoreNum q =>
          if negb (shown =? JsNum.toString q)%string
          then
            (set_page
               (Dom.update_message (so_id so)
                  (Dom.set_badge_text (JsNum.toString q) "bg-red-500") d1)
               (if negb displayed && JsString.truthy (so_id so)
                then detail_fetches w ++ [ (nid e, so_id so) ]
                else detail_fetches w)
               w, false)
          else (set_page d1 (detail_fetches w) w, false)
      end
  | None => (w, false)
  end.

Fixpoint refreshEach (l : list ScoreObj) (w : World) : World :=
  match l with
  | [] => w
  | so :: l' =>
      let (w1, threw) := refreshOne so w in
      if threw then w1 else refreshEach l' w1
  end.

(** [pollCriticScores()] once the score request has settled: [None] is a
    rejected request, [Some None] a body without [scores]; the handling
    of the body itself is [refreshEach].  The code tests [currentChatId]
    before it sends the request and not again after its [await]s.  No
    event of a run unsets the identifier, so in a run a response can only
    settle while the identifier is set, which is the test made here. *)
Definition scoresSettled (r : option (option (list ScoreObj))) (w : World)
    : World :=
  if truthy_text (currentChatId w)
  then match r with
       | Some (Some l) => refreshEach l w
       | _ => w
       end
  else w.

(** The [then] callback of the detail request [k] still in flight; [None]
    is a rejection, which the [catch] callback logs. *)
Definition detailSettled (k : nat) (r : option MsgData) (w : World) : World :=
  match detail_fetches w !! k with
  | Some (n, _) =>
      let rest := delete k (detail_fetches w) in
      match r with
      | Some m =>
          match md_search_output m with
          | SOAbsent => set_page (dom w) rest w
          | _ =>
              {| dom := Dom.update_elem n mark_displayed
                          (displayCritiqueAndRegeneration m (next_nid w)
                             (dom w));
                 next_nid := S (next_nid w);
                 user_input := user_input w;
                 currentChatId := currentChatId w;
                 second_assistant := second_assistant w;
                 turns := turns w;
                 detail_fetches := rest |}
          end
      | None => set_page (dom w) rest w
      end
  | None => w
  end.

(** ** Events and runs *)

Inductive Event :=
| EvChatStarted (chat_id : option string)
| EvType (text : Text)
| EvSend
| EvSendToServer (t : nat) (now1 now2 : N)
| EvSubmitSettled (t : nat) (r : option SubmitData)
| EvStatusTick (t : nat)
| EvStatusSettled (t : nat) (r : PollResult StatusData)
| EvStatusTimeout (t : nat)
| EvCriticTick (t : nat)
| EvCriticSettled (t : nat) (r : PollResult MsgData)
| EvCriticTimeout (t : nat)
| EvScoresSettled (r : option (option (list ScoreObj)))
| EvDetailSettled (k : nat) (r : option MsgData).

Definition step (w : World) (e : Event) : World :=
  match e with
  | EvChatStarted id =>
      {| dom := dom w; next_nid := next_nid w; user_input := user_input w;
         currentChatId := if truthy_text id then id else currentChatId w;
         second_assistant := second_assistant w; turns := turns w;
         detail_fetches := detail_fetches w |}
  | EvType text =>
      {| dom := dom w; next_nid := next_nid w; user_input := text;
         currentChatId := currentChatId w;
         second_assistant := second_assistant w; turns := turns w;
         detail_fetches := detail_fetches w |}
  | EvSend => handleSend w
  | EvSendToServer t now1 now2 => sendToServer t now1 now2 w
  | EvSubmitSettled t r => submitSettled t r w
  | EvStatusTick t => statusTick t w
  | EvStatusSettled t r => statusSettled t r w
  | EvStatusTimeout t => statusTimeout t w
  | EvCriticTick t => criticTick t w
  | EvCriticSettled t r => criticSettled t r w
  | EvCriticTimeout t => criticTimeout t w
  | EvScoresSettled r => scoresSettled r w
  | EvDetailSettled k r => detailSettled k r w
  end.

Definition run (evs : list Event) (w : World) : World :=
  fold_left step evs w.

(** ** Vocabulary of the statements *)

(** The empty and the white-space-only inputs. *)
Definition all_whitespace (s : Text) : bool :=
  forallb JsString.is_whitespace s.

(** An input of white space only: a space, a tab, an ideographic space
    (U+3000), a line separator (U+2028), a no-break space and a byte
    order mark (U+FEFF). *)
Definition blank_input : Text :=
  [ 32%N; 9%N; 12288%N; 8232%N; 160%N; 65279%N ].

(** A run of [updateCriticBadge] for one message over the scores of
    successive polls. *)
Definition updateCriticBadgeAll (messageId : string) (scores : list Q)
    (d : DOM) : DOM :=
  fold_left (fun d' s => updateCriticBadge messageId s d') scores d.

(** The text of the steps container with identity [n], when it is in the
    document. *)
Definition steps_html (n : nat) (d : DOM) : option (list Block) :=
  match List.find (fun e => (nid e =? n)%nat
                            && match node e with
                               | NSteps _ _ => true
                               | _ => false
                               end) d with
  | Some e => match node e with
              | NSteps _ h => Some h
              | _ => None
              end
  | None => None
  end.

Definition is_ner (b : Block) : bool :=
  match b with BNer _ => true | _ => false end.

Definition is_search_call (b : Block) : bool :=
  match b with BSearchCall _ => true | _ => false end.

Definition is_search_results (b : Block) : bool :=
  match b with BSearchResults _ _ _ => true | _ => false end.

Definition is_thinking (b : Block) : bool :=
  match b with BThinking _ => true | _ => false end.

(** The processing-data fields a snapshot carries. *)
Definition carries_ner (sd : StatusData) : bool :=
  match processing_data sd with
  | Some p => present (ner_results p)
  | None => false
  end.

Definition carries_search_call (sd : StatusData) : bool :=
  match processing_data sd with
  | Some p => truthy_text (search_call p)
  | None => false
  end.

Definition carries_search_results (sd : StatusData) : bool :=
  match processing_data sd with
  | Some p => present (search_results p)
  | None => false
  end.

Definition carries_thinking (sd : StatusData) : bool :=
  match processing_data sd with
  | Some p => truthy_text (thinking p)
  | None => false
  end.

Definition is_fetch_status (c : Call) : bool :=
  match c with CFetchStatus => true | _ => false end.

Definition is_purge (c : Call) : bool :=
  match c with CRemovePlaceholders => true | _ => false end.

Definition is_render (c : Call) : bool :=
  match c with CRender _ => true | _ => false end.

(** The status loop of turn [t]. *)
Definition status_loop (t : nat) (w : World) : option StatusLoop :=
  match turns w !! t with
  | Some tn => t_status tn
  | None => None
  end.

Definition critic_loop (t : nat) (w : World) : option CriticLoop :=
  match turns w !! t with
  | Some tn => t_critic tn
  | None => None
  end.

(** The calls turn [t] has made. *)
Definition calls (t : nat) (w : World) : list Call :=
  match turns w !! t with
  | Some tn => t_calls tn
  | None => []
  end.

(** The bubbles of the page, in document order. *)
Definition bubbles (d : DOM) : list Bubble := omap Dom.bubble_of d.

(** Insertions of a message that is not a placeholder. *)
Definition is_real_add (c : Call) : bool :=
  match c with
  | CAddMessage _ false => true
  | _ => false
  end.

Definition is_dummy_add (c : Call) : bool :=
  match c with
  | CAddMessage _ true => true
  | _ => false
  end.

(** The identifier and the placeholder mark of every bubble of the page,
    in document order. *)
Fixpoint keys (d : DOM) : list (string * bool) :=
  match d with
  | [] => []
  | e :: d' =>
      match node e with
      | NBubble b => (data_message_id b, dummy_message b) :: keys d'
      | _ => keys d'
      end
  end.

(** A submission that takes one of the two failure exits of
    [sendToServer]. *)
Definition submit_fails (r : option SubmitData) : bool :=
  match r with
  | Some data => truthy_text (sd_error data)
  | None => true
  end.

Definition is_critique_container (e : Elem) : bool :=
  match node e with
  | NCritique _ => true
  | _ => false
  end.

Definition is_display (c : Call) : bool :=
  match c with
  | CDisplayCritiqueInSteps => true
  | _ => false
  end.

(** ** The life of one turn *)

(** [turn_succ obs tn tn']: one event takes the turn from [tn] to [tn'];
    [obs] is the body that its status callback received in that event, if
    the event was one. *)
Inductive turn_succ : option StatusData -> Turn -> Turn -> Prop :=
| ts_idle tn :
    turn_succ None tn tn
| ts_submitting tn id1 id2 :
    t_phase tn = Scheduled ->
    turn_succ None tn (submittingTurn id1 id2 tn)
| ts_failed tn :
    t_phase tn = Submitting ->
    turn_succ None tn (failedTurn tn)
| ts_accepted tn data container :
    t_phase tn = Submitting ->
    turn_succ None tn (acceptedTurn data container tn)
| ts_status_tick tn sl :
    t_status tn = Some sl -> sl_polling sl = true ->
    turn_succ None tn (with_status tn sl [ CFetchStatus ])
| ts_status_stop tn sl :
    t_status tn = Some sl ->
    turn_succ None tn
      (with_status tn (statusStopped sl) [ CClearStatusInterval ])
| ts_status_body tn sl sd :
    t_status tn = Some sl ->
    turn_succ (Some sd) tn (statusTurn sd sl tn)
| ts_critic_tick tn cl :
    t_critic tn = Some cl -> cl_polling cl = true ->
    turn_succ None tn (with_critic tn cl [ CFetchMessage ])
| ts_critic_stop tn cl :
    t_critic tn = Some cl ->
    turn_succ None tn
      (with_critic tn (criticStopped cl) [ CClearCriticInterval ])
| ts_critic_body tn cl m sd :
    t_critic tn = Some cl ->
    turn_succ None tn (criticTurn m sd cl tn).

(** The body that the status callback of turn [t] receives in event [e]. *)
Definition observed_by (t : nat) (tn : Turn) (e : Event)
    : option StatusData :=
  match e with
  | EvStatusSettled t' (Ok sd) =>
      if (t' =? t)%nat && present (t_status tn) then Some sd else None
  | _ => None
  end.

(** The status of the most recent render among the calls of a turn. *)
Fixpoint last_rendered (cs : list Call) : option string :=
  match cs with
  | [] => None
  | c :: cs' =>
      match last_rendered cs' with
      | Some st => Some st
      | None => match c with
                | CRender st => Some st
                | _ => None
                end
      end
  end.

(** The bodies that the status callback of turn [t] receives during
    [evs], in order. *)
Definition observed (t : nat) (evs : list Event) : list StatusData :=
  omap (fun e => match e with
                 | EvStatusSettled t' (Ok sd) =>
                     if (t' =? t)%nat then Some sd else None
                 | _ => None
                 end) evs.

(** The variable [lastStatus] of a loop holds the status of the most
    recent render, and the empty string before the first one. *)
Definition last_status_inv (tn : Turn) : Prop :=
  match t_status tn with
  | Some sl =>
      t_phase tn = Settled
      /\ lastStatus sl = default "" (last_rendered (t_calls tn))
  | None => last_rendered (t_calls tn) = None
  end.

(** Whether [st] is the status of the most recent render among [cs]. *)
Definition same_as_last_render (cs : list Call) (st : string) : bool :=
  match last_rendered cs with
  | Some st' => (st' =? st)%string
  | None => false
  end.

(** No two bubbles carry the same identifier, and the identifier of every
    placeholder starts with [temp-]. *)
Definition keys_inv (ks : list (string * bool)) : Prop :=
  NoDup (List.map fst ks)
  /\ Forall (fun p => snd p = true -> String.prefix "temp-" (fst p) = true) ks.

(** Every insertion of a message that is not a placeholder comes right
    after a purge; [prev] tells whether the call before [cs] was one. *)
Fixpoint guarded (prev : bool) (cs : list Call) : bool :=
  match cs with
  | [] => true
  | c :: cs' =>
      (if is_real_add c then prev else true) && guarded (is_purge c) cs'
  end.

(** No placeholder is inserted once a purge has been made; [purged] tells
    whether one was made before [cs]. *)
Fixpoint no_dummy_after_purge (purged : bool) (cs : list Call) : bool :=
  match cs with
  | [] => true
  | c :: cs' =>
      (if is_dummy_add c then negb purged else true)
      && no_dummy_after_purge (purged || is_purge c) cs'
  end.

(** Whether the call before the end of [cs] is a purge. *)
Fixpoint ends_with_purge (prev : bool) (cs : list Call) : bool :=
  match cs with
  | [] => prev
  | c :: cs' => ends_with_purge (is_purge c) cs'
  end.

(** The number of purges a turn has made by the time it is in a given
    state. *)
Definition purges_expected (tn : Turn) : nat :=
  match t_phase tn with
  | Settled =>
      match t_status tn with
      | Some sl => if finalResponseShown sl then 2 else 1
      | None => 1
      end
  | _ => 0
  end.

Definition purge_inv (tn : Turn) : Prop :=
  guarded false (t_calls tn) = true
  /\ no_dummy_after_purge false (t_calls tn) = true
  /\ length (List.filter is_purge (t_calls tn)) = purges_expected tn
  /\ (t_status tn <> None -> t_phase tn = Settled).

(** The critic loop of a turn exists only once the final response has
    been shown, and the flag [criticShown] counts its displays. *)
Definition critic_inv (tn : Turn) : Prop :=
  (t_status tn <> None -> t_phase tn = Settled)
  /\ match t_critic tn with
     | Some cl =>
         (exists sl, t_status tn = Some sl /\ finalResponseShown sl = true)
         /\ length (List.filter is_display (t_calls tn))
            = (if criticShown cl then 1 else 0)
     | None => length (List.filter is_display (t_calls tn)) = 0
     end.

(** ** Sample runs *)

(** One turn: the user asks for a trip to Kyoto; the backend accepts the
    submission and later reports the generated response. *)
Definition kyoto_submitted : SubmitData :=
  {| sd_error := None; sd_chat_id := Some "c1";
     sd_user_message := Some ("u1", "Plan a trip to Kyoto");
     sd_message_id := Some "m1" |}.

Definition kyoto_generated : StatusData :=
  {| status := "response_generated"; message_id := "m1";
     content := Some "Here are options"; critic_score := ScoreUndefined;
     processing_data := None |}.

(** The turn up to the start of its status loop. *)
Definition kyoto_polling : list Event :=
  [ EvType "Plan a trip to Kyoto"; EvSend; EvSendToServer 0 1700 1700;
    EvSubmitSettled 0 (Some kyoto_submitted) ].

(** The turn up to the start of its critic loop. *)
Definition kyoto_answered : list Event :=
  kyoto_polling ++ [ EvStatusTick 0; EvStatusSettled 0 (Ok kyoto_generated) ].

(** Details of the answered message that carry a score but no search
    output yet. *)
Definition kyoto_scored_only : MsgData :=
  {| md_id := "m1"; md_critic_score := ScoreNum (17 # 2);
     md_search_output := SOAbsent |}.

(** Snapshots of the pipeline of the sample turn. *)
Definition kyoto_ner_started : StatusData :=
  {| status := "ner_started"; message_id := "m1"; content := None;
     critic_score := ScoreUndefined; processing_data := None |}.

Definition kyoto_ner_completed : StatusData :=
  {| status := "ner_completed"; message_id := "m1"; content := None;
     critic_score := ScoreUndefined;
     processing_data :=
       Some {| ner_results := Some "{ city: Kyoto }";
               search_call := None; search_results := None;
               thinking := None |} |}.

Definition kyoto_search_started : StatusData :=
  {| status := "search_started"; message_id := "m1"; content := None;
     critic_score := ScoreUndefined;
     processing_data :=
       Some {| ner_results := None; search_call := None;
               search_results := None; thinking := None |} |}.

(** The sample turn after its status loop has seen [ner_started] once. *)
Definition kyoto_ner : list Event :=
  kyoto_polling ++ [ EvStatusTick 0; EvStatusSettled 0 (Ok kyoto_ner_started) ].

(** The sample turn after a snapshot that carries the extracted entities,
    and after a later one that carries no processing field. *)
Definition kyoto_entities : list Event :=
  kyoto_polling
  ++ [ EvStatusTick 0; EvStatusSettled 0 (Ok kyoto_ner_completed) ].

Definition kyoto_entities_then_search : list Event :=
  kyoto_entities
  ++ [ EvStatusTick 0; EvStatusSettled 0 (Ok kyoto_search_started) ].

(** The sample turn while its critic loop awaits its first response. *)
Definition kyoto_watching : list Event := kyoto_answered ++ [ EvCriticTick 0 ].

(** Details of the answered message once the critique is there. *)
Definition kyoto_critique : SearchData :=
  {| critique :=
       Some {| total_score := Some (17 # 2);
               adherence_to_search := None;
               question_format :=
                 Some {| score := Some (8 # 1); reason := "One question" |};
               conversational_quality := None;
               contextual_intelligence := None;
               overall_effectiveness := None;
               summary := Some "Clear and grounded" |};
     regenerated_content := None;
     regenerated_critique := None |}.

Definition kyoto_critiqued : MsgData :=
  {| md_id := "m1"; md_critic_score := ScoreNum (17 # 2);
     md_search_output := SOParsed kyoto_critique |}.

(** The sample turn when the first request of its status loop is
    rejected. *)
Definition kyoto_rejected : list Event :=
  kyoto_polling ++ [ EvStatusTick 0; EvStatusSettled 0 Rejected ].

(** The worlds of the sample turn, evaluated. *)
Definition kyoto_ner_world : World :=
  Eval vm_compute in run kyoto_ner initial.

Definition kyoto_entities_world : World :=
  Eval vm_compute in run kyoto_entities initial.

Definition kyoto_watching_world : World :=
  Eval vm_compute in run kyoto_watching initial.

(** The sample turn and its status loop in [kyoto_ner_world]. *)
Definition kyoto_ner_turn : Turn :=
  Eval vm_compute in default (newTurn "") (turns kyoto_ner_world !! 0).

Definition kyoto_ner_loop : StatusLoop :=
  Eval vm_compute in
    default (startStatusPolling "" 0) (t_status kyoto_ner_turn).

(** A terminal snapshot that carries no content. *)
Definition kyoto_completed_empty : StatusData :=
  {| status := "completed"; message_id := "m1"; content := None;
     critic_score := ScoreUndefined; processing_data := None |}.

(** The sample turn at the start of its status loop, evaluated. *)
Definition kyoto_polling_world : World :=
  Eval vm_compute in run kyoto_polling initial.

Definition kyoto_polling_turn : Turn :=
  Eval vm_compute in default (newTurn "") (turns kyoto_polling_world !! 0).

Definition kyoto_polling_loop : StatusLoop :=
  Eval vm_compute in
    default (startStatusPolling "" 0) (t_status kyoto_polling_turn).

(** What the status loop of the sample turn goes through before the
    response is attached: a terminal status without content. *)
Definition kyoto_stalled : list Event :=
  [ EvStatusTick 0; EvStatusSettled 0 (Ok kyoto_completed_empty);
    EvStatusTick 0 ].

(** A session with two submissions: the first one is rejected, the second
    one is on its way and will be answered with an error. *)
Definition twice_failing : list Event :=
  [ EvType "Plan a trip to Kyoto"; EvSend; EvSendToServer 0 1700 1700;
    EvSubmitSettled 0 None;
    EvType "And to Nara"; EvSend; EvSendToServer 1 4000 4000 ].

Definition busy : SubmitData :=
  {| sd_error := Some "Server busy"; sd_chat_id := None;
     sd_user_message := None; sd_message_id := None |}.

Definition first_error_bubble : Bubble :=
  Eval vm_compute in
    default
      {| data_message_id := ""; bubble_text := ""; bubble_role := User;
         dummy_message := false; critic_circle := None;
         data_critique_displayed := false; data_parent_id := None;
         data_output_number := None; prefer_button := false |}
      (Dom.message "error" (dom (run twice_failing initial))).

(** The critique of the sample turn, seen by both loops: the score
    refresher learns the score of the answered message and asks
    for its details; the details arrive with the critique; then the critic
    loop of the turn polls the same details. *)
Definition kyoto_score : ScoreObj :=
  {| so_id := "m1"; so_critic_score := ScoreNum (17 # 2) |}.

Definition kyoto_both_loops : list Event :=
  kyoto_answered
  ++ [ EvScoresSettled (Some (Some [ kyoto_score ]));
       EvDetailSettled 0 (Some kyoto_critiqued);
       EvCriticTick 0;
       EvCriticSettled 0 (Ok kyoto_critiqued) ].

(** The score refresher alone: the score changes between two of its
    rounds while the details asked for in the first round are still on
    their way. *)
Definition kyoto_score_revised : ScoreObj :=
  {| so_id := "m1"; so_critic_score := ScoreNum (9 # 1) |}.

Definition kyoto_two_rounds : list Event :=
  kyoto_answered
  ++ [ EvScoresSettled (Some (Some [ kyoto_score ]));
       EvScoresSettled (Some (Some [ kyoto_score_revised ]));
       EvDetailSettled 0 (Some kyoto_critiqued);
       EvDetailSettled 0 (Some kyoto_critiqued) ].

(** ** Functions beside the polling loops *)

(** [removeDummyMessages()] *)
Definition removeDummyMessages (d : DOM) : DOM :=
  List.filter (fun e => negb (Dom.has_class_dummy e)) d.



(** The element that [preferOutput(parentMessageId, outputNumber)] hides
    once the backend has accepted the preference: the first one with the
    same parent and the other output number. *)
Definition preferredSibling (parentMessageId : string) (outputNumber : nat)
    (d : DOM) : option Elem :=
  let otherOutputNumber := if (outputNumber =? 1)%nat then 2 else 1 in
  List.find
    (fun e =>
       match node e with
       | NBubble b =>
           match data_parent_id b, data_output_number b with
           | Some p, Some o =>
               (p =? parentMessageId)%string && (o =? otherOutputNumber)%nat
           | _, _ => false
           end
       | _ => false
       end) d.

(** The bubble that a first call of [addMessageToChat] appends. *)
Definition newBubble (id : string) (text : Text) (role : Role)
    (criticScore : ScoreField) (isDummy : bool) (parentId : option string)
    (outputNumber : option nat) (secondAssistant : bool) : Bubble :=
  Eval cbv beta iota zeta in
  let isAssistant := match role with Assistant => true | User => false end in
  {| data_message_id := id;
     bubble_text := text;
     bubble_role := role;
     dummy_message := isDummy;
     critic_circle :=
       if isAssistant && negb (is_undefined criticScore)
       then Some {| badge_color := "bg-red-500";
                    badge_text := score_text criticScore |}
       else None;
     data_critique_displayed := false;
     data_parent_id := if truthy_text parentId then parentId else None;
     data_output_number :=
       if truthy_number outputNumber then outputNumber else None;
     prefer_button :=
       isAssistant && secondAssistant && truthy_number outputNumber |}.

(** A page with two candidate answers to one message. *)
Definition two_outputs : DOM :=
  Eval vm_compute in
    addMessageToChat "a2" "Second answer" Assistant ScoreUndefined false
      (Some "u1") (Some 2) true 1
      (addMessageToChat "a1" "First answer" Assistant ScoreUndefined false
         (Some "u1") (Some 1) true 0 []).

(** An element without its score badge. *)
Definition without_badge (e : Elem) : Elem :=
  match node e with
  | NBubble b =>
      {| nid := nid e;
         node := NBubble
           {| data_message_id := data_message_id b;
              bubble_text := bubble_text b;
              bubble_role := bubble_role b;
              dummy_message := dummy_message b;
              critic_circle := None;
              data_critique_displayed := data_critique_displayed b;
              data_parent_id := data_parent_id b;
              data_output_number := data_output_number b;
              prefer_button := prefer_button b |} |}
  | _ => e
  end.

(** The section of a critique that the detail view always shows, whatever
    the section holds. *)
Definition nanSection (title : string) : SectionView :=
  {| sec_title := title;
     sec_score := {| sv_class := "text-red-600"; sv_text := "NaN/10" |};
     sec_reason := "undefined" |}.

(** Scores for messages that are not on the page of the sample turn. *)
Definition stray_scores : list ScoreObj :=
  [ {| so_id := "m7"; so_critic_score := ScoreNum (9 # 1) |};
    {| so_id := "m8"; so_critic_score := ScoreUndefined |} ].

(** The sample turn after the score refresher has shown its critique. *)
Definition kyoto_refreshed_world : World :=
  Eval vm_compute in
    run (kyoto_answered
         ++ [ EvScoresSettled (Some (Some [ kyoto_score ]));
              EvDetailSettled 0 (Some kyoto_critiqued) ]) initial.

Definition kyoto_refreshed_bubble : Bubble :=
  Eval vm_compute in
    default (newBubble "" "" User ScoreUndefined false None None false)
      (Dom.message "m1" (dom kyoto_refreshed_world)).

(** The sample turn when two status requests are under way at once: the
    first response ends the loop and the critic loop shows the critique;
    the second response is still to come. *)
Definition kyoto_late_status : list Event :=
  kyoto_polling
  ++ [ EvStatusTick 0; EvStatusTick 0;
       EvStatusSettled 0 (Ok kyoto_generated);
       EvCriticTick 0; EvCriticSettled 0 (Ok kyoto_critiqued) ].

Definition kyoto_late_world : World :=
  Eval vm_compute in run kyoto_late_status initial.

Definition kyoto_late_turn : Turn :=
  Eval vm_compute in default (newTurn "") (turns kyoto_late_world !! 0).

Definition kyoto_late_loop : StatusLoop :=
  Eval vm_compute in
    default (startStatusPolling "" 0) (t_status kyoto_late_turn).

Definition kyoto_completed : StatusData :=
  {| status := "completed"; message_id := "m1";
     content := Some "Here are options"; critic_score := ScoreUndefined;
     processing_data := None |}.

(** A snapshot of a pipeline whose entity extraction failed. *)
Definition kyoto_ner_error : StatusData :=
  {| status := "ner_error"; message_id := "m1"; content := None;
     critic_score := ScoreUndefined; processing_data := None |}.

Definition is_handoff (c : Call) : bool :=
  match c with CStartCriticPolling => true | _ => false end.

Definition is_fetch_message (c : Call) : bool :=
  match c with CFetchMessage => true | _ => false end.

(** The critic loop of a turn exists exactly when its status loop has
    shown the final response, and it has then been started once. *)
Definition handoff_inv (tn : Turn) : Prop :=
  (t_status tn <> None -> t_phase tn = Settled)
  /\ present (t_critic tn)
     = match t_status tn with
       | Some sl => finalResponseShown sl
       | None => false
       end
  /\ length (List.filter is_handoff (t_calls tn))
     = (if present (t_critic tn) then 1 else 0).

(** A turn whose critic loop has stopped, with the requests it has made. *)
Definition critic_done (fetched : list Call) (tn : Turn) : Prop :=
  critic_inv tn
  /\ (exists cl, t_critic tn = Some cl /\ cl_polling cl = false)
  /\ List.filter is_fetch_message (t_calls tn) = fetched.

(** A turn whose submission is over and that has no loop. *)
Definition frozen (tn : Turn) : Prop :=
  t_phase tn = Settled /\ t_status tn = None /\ t_critic tn = None.

(** A submission after which [sendToServer] starts no polling: one of the
    failure exits, or a body without [message_id]. *)
Definition starts_no_polling (r : option SubmitData) : bool :=
  match r with
  | Some data =>
      truthy_text (sd_error data) || negb (truthy_text (sd_message_id data))
  | None => true
  end.

(** A bubble that carries none of the attributes of a second output. *)
Definition single_output (e : Elem) : bool :=
  match node e with
  | NBubble b =>
      negb (present (data_parent_id b))
      && negb (present (data_output_number b))
      && negb (prefer_button b)
  | _ => true
  end.

(** The sample turn when the three minutes of its status loop are over
    while a request is under way. *)
Definition kyoto_timed_out : list Event :=
  kyoto_polling ++ [ EvStatusTick 0; EvStatusTimeout 0 ].

Definition kyoto_timed_out_world : World :=
  Eval vm_compute in run kyoto_timed_out initial.

Definition kyoto_timed_out_turn : Turn :=
  Eval vm_compute in default (newTurn "") (turns kyoto_timed_out_world !! 0).

Definition kyoto_timed_out_loop : StatusLoop :=
  Eval vm_compute in
    default (startStatusPolling "" 0) (t_status kyoto_timed_out_turn).

(** The sample turn while its submission is under way. *)
Definition kyoto_submitting_world : World :=
  Eval vm_compute in
    run [ EvType "Plan a trip to Kyoto"; EvSend; EvSendToServer 0 1700 1700 ]
      initial.

Definition kyoto_submitting_turn : Turn :=
  Eval vm_compute in default (newTurn "") (turns kyoto_submitting_world !! 0).

(** A page on which the second assistant is switched on. *)
Definition second_assistant_on : World :=
  {| dom := []; next_nid := 0; user_input := ""; currentChatId := Some "c1";
     second_assistant := true; turns := []; detail_fetches := [] |}.

(** The answer that [preferOutput] hides on [two_outputs] when the first
    one is preferred. *)
Definition two_outputs_second : Elem :=
  Eval vm_compute in
    default {| nid := 0; node := NSteps "" [] |}
      (preferredSibling "u1" 1 two_outputs).




(** A score round whose first entry has lost its score. *)
Definition kyoto_scoreless : ScoreObj :=
  {| so_id := "m1"; so_critic_score := ScoreUndefined |}.

(** The page once the user has typed the sample message. *)
Definition kyoto_typed_world : World :=
  Eval vm_compute in step initial (EvType "Plan a trip to Kyoto").



(** * Properties *)

(** ** Sending: blank input *)

Lemma trimStart_empty_iff (s : Text) :
  JsString.trimStart s = [] <-> all_whitespace s = true.
Proof.
  unfold all_whitespace. induction s as [|c s IH]; simpl; [tauto|].
  destruct (JsString.is_whitespace c); simpl; [exact IH|].
  split; discriminate.
Qed.

Lemma trimEnd_head (c : N) (s : Text) :
  JsString.is_whitespace c = false -> JsString.trimEnd (c :: s) <> [].
Proof.
  intros Hc. simpl. rewrite Hc. now destruct (JsString.trimEnd s).
Qed.

Lemma trimStart_head (s : Text) :
  JsString.trimStart s = []
  \/ exists c r, JsString.trimStart s = c :: r
                 /\ JsString.is_whitespace c = false.
Proof.
  induction s as [|c s IH]; simpl; [now left|].
  destruct (JsString.is_whitespace c) eqn:Hc; [exact IH|].
  right. eauto.
Qed.

(** The trimmed text is empty exactly for the empty and the
    white-space-only inputs. *)
Lemma trim_empty_iff (s : Text) :
  JsString.trim s = [] <-> all_whitespace s = true.
Proof.
  rewrite <- trimStart_empty_iff. unfold JsString.trim. split.
  - intros H. destruct (trimStart_head s) as [E|(c & r & E & Hc)]; [exact E|].
    rewrite E in H. now apply trimEnd_head in H.
  - intros ->. reflexivity.
Qed.

(** C10: when the input field is empty or holds nothing but white space,
    which is when its trimmed text is empty, [handleSend] does nothing:
    the world after the click is the world before it, so no placeholder
    is added, no turn is created and no request is ever made for it. *)
Theorem handleSend_blank_is_noop (w : World) :
  all_whitespace (user_input w) = true
  \/ JsString.trim (user_input w) = [] ->
  JsString.trim (user_input w) = [] /\ step w EvSend = w.
Proof.
  intros H.
  assert (E : JsString.trim (user_input w) = []).
  { destruct H as [H|H]; [now apply trim_empty_iff|exact H]. }
  split; [exact E|].
  simpl. unfold handleSend. rewrite E. reflexivity.
Qed.

Lemma handleSend_blank_is_noop_witness :
  JsString.trim (user_input (step initial (EvType blank_input))) = []
  /\ step (step initial (EvType blank_input)) EvSend
     = step initial (EvType blank_input).
Proof.
  apply (handleSend_blank_is_noop (step initial (EvType blank_input))).
  left. reflexivity.
Defined.

(** ** Bubbles and their badges *)

Lemma message_cons (id : string) (e : Elem) (d : DOM) :
  Dom.message id (e :: d)
  = if Dom.has_message_id id e then Dom.bubble_of e else Dom.message id d.
Proof.
  unfold Dom.message, Dom.querySelector. simpl.
  destruct (Dom.has_message_id id e); reflexivity.
Qed.

(** Mutating the first bubble that carries [id] is seen by a lookup of [id]
    and by no other lookup, as long as the mutation keeps the identifier. *)
Lemma message_update_message (id id' : string) (f : Bubble -> Bubble)
    (d : DOM) :
  (forall b, data_message_id (f b) = data_message_id b) ->
  Dom.message id' (Dom.update_message id f d)
  = if (id =? id')%string then f <$> Dom.message id' d
    else Dom.message id' d.
Proof.
  intros Hf. induction d as [|e d IH]; simpl.
  - destruct (id =? id')%string; reflexivity.
  - destruct e as [n [b|sid h|c]]; simpl.
    + destruct (data_message_id b =? id)%string eqn:Eb.
      * apply String.eqb_eq in Eb. subst id.
        rewrite !message_cons. unfold Dom.has_message_id. simpl.
        rewrite Hf.
        destruct (data_message_id b =? id')%string eqn:E; reflexivity.
      * rewrite !message_cons. unfold Dom.has_message_id. simpl.
        destruct (data_message_id b =? id')%string eqn:E.
        -- apply String.eqb_eq in E. subst id'. rewrite String.eqb_sym, Eb.
           reflexivity.
        -- exact IH.
    + rewrite !message_cons. exact IH.
    + rewrite !message_cons. exact IH.
Qed.

Lemma message_updateCriticBadge (id : string) (q : Q) (d : DOM) :
  Dom.message id (updateCriticBadge id q d)
  = Dom.set_badge_text (JsNum.toFixed1 q) (badgeColor q) <$> Dom.message id d.
Proof.
  unfold updateCriticBadge.
  rewrite message_update_message by reflexivity.
  now rewrite String.eqb_refl.
Qed.

Lemma last_cons_default {A : Type} (x y : A) (l : list A) :
  List.last (x :: l) y = List.last l x.
Proof.
  revert x y. induction l as [|z l IH]; intros x y; [reflexivity|].
  change (List.last (x :: z :: l) y) with (List.last (z :: l) y).
  now rewrite !IH.
Qed.

(** C9: over any run of [updateCriticBadge] calls for one message, the
    colour class of the badge is the one it had before the run or, when the
    first call of the run created the badge, the class chosen from the
    score of that first call; only the displayed number follows the later
    scores, whatever thresholds they cross. *)
Theorem updateCriticBadge_colour_fixed (id : string) (d : DOM) (b : Bubble)
    (first : Q) (later : list Q) :
  Dom.message id d = Some b ->
  exists b',
    Dom.message id (updateCriticBadgeAll id (first :: later) d) = Some b'
    /\ critic_circle b'
       = Some {| badge_color :=
                   match critic_circle b with
                   | Some c => badge_color c
                   | None => badgeColor first
                   end;
                 badge_text := JsNum.toFixed1 (List.last later first) |}.
Proof.
  revert d b first. induction later as [|s later IH]; intros d b first Hb.
  - unfold updateCriticBadgeAll. simpl.
    rewrite message_updateCriticBadge, Hb. simpl. eexists.
    split; [reflexivity|].
    simpl. destruct (critic_circle b); reflexivity.
  - pose (d1 := updateCriticBadge id first d).
    assert (H1 : Dom.message id d1
                 = Some (Dom.set_badge_text (JsNum.toFixed1 first)
                           (badgeColor first) b)).
    { unfold d1. now rewrite message_updateCriticBadge, Hb. }
    destruct (IH d1 _ s H1) as (b' & Hb' & Hc).
    exists b'. split; [exact Hb'|]. rewrite Hc, last_cons_default. simpl.
    destruct (critic_circle b); reflexivity.
Qed.

Lemma updateCriticBadge_colour_fixed_witness :
  exists b',
    Dom.message "m1"
      (updateCriticBadgeAll "m1" [ 15 # 2; 19 # 2 ]%Q
         (addMessageToChat "m1" "Hello" Assistant ScoreUndefined false None
            None false 0 []))
    = Some b'
    /\ critic_circle b'
       = Some {| badge_color := "bg-yellow-500"; badge_text := "9.5" |}.
Proof.
  exact (updateCriticBadge_colour_fixed "m1"
           (addMessageToChat "m1" "Hello" Assistant ScoreUndefined false None
              None false 0 [])
           _ (15 # 2)%Q [ (19 # 2)%Q ] eq_refl).
Defined.

Lemma message_update_elem (id : string) (n : nat) (f : Node -> Node)
    (d : DOM) :
  (forall b, f (NBubble b) = NBubble b) ->
  (forall x, Dom.bubble_of {| nid := 0; node := x |} = None ->
             Dom.bubble_of {| nid := 0; node := f x |} = None) ->
  Dom.message id (Dom.update_elem n f d) = Dom.message id d.
Proof.
  intros Hb Hn. induction d as [|e d IH]; [reflexivity|].
  unfold Dom.update_elem in *. simpl. rewrite !message_cons, IH.
  destruct e as [k x]. simpl. destruct (k =? n)%nat; [|reflexivity].
  unfold Dom.has_message_id, Dom.bubble_of. simpl.
  destruct x as [b|sid h|c].
  - now rewrite Hb.
  - specialize (Hn (NSteps sid h) eq_refl). unfold Dom.bubble_of in Hn.
    simpl in Hn. destruct (f (NSteps sid h)); [discriminate|reflexivity..].
  - specialize (Hn (NCritique c) eq_refl). unfold Dom.bubble_of in Hn.
    simpl in Hn. destruct (f (NCritique c)); [discriminate|reflexivity..].
Qed.

Lemma message_append_html (id : string) (n : nat) (h : list Block) (d : DOM) :
  Dom.message id (Dom.update_elem n (append_html h) d) = Dom.message id d.
Proof.
  apply message_update_elem; [reflexivity|].
  intros [b|sid old|c]; simpl; [discriminate|reflexivity..].
Qed.

Lemma message_set_html (id : string) (n : nat) (h : list Block) (d : DOM) :
  Dom.message id (Dom.update_elem n (set_html h) d) = Dom.message id d.
Proof.
  apply message_update_elem; [reflexivity|].
  intros [b|sid old|c]; simpl; [discriminate|reflexivity..].
Qed.

(** ** The critic loop and the badge *)

(** C7, as the code has it: a successful poll of the critic loop whose
    body carries a search output that parses and a non-zero score
    overwrites the text of the badge of the message named in the body (and
    creates the badge when there is none), whether or not the loop has
    already shown the critique. *)
Theorem criticSettled_updates_badge (w : World) (t : nat) (tn : Turn)
    (cl : CriticLoop) (m : MsgData) (sd : SearchData) (q : Q) (b : Bubble) :
  turns w !! t = Some tn ->
  t_critic tn = Some cl ->
  md_search_output m = SOParsed sd ->
  md_critic_score m = ScoreNum q ->
  JsNum.truthy q = true ->
  Dom.message (md_id m) (dom w) = Some b ->
  exists b',
    Dom.message (md_id m) (dom (criticSettled t (Ok m) w)) = Some b'
    /\ critic_circle b'
       = Some {| badge_color :=
                   match critic_circle b with
                   | Some c => badge_color c
                   | None => badgeColor q
                   end;
                 badge_text := JsNum.toFixed1 q |}.
Proof.
  intros Ht Hc Hso Hsc Hq Hb. unfold criticSettled.
  rewrite Ht, Hc, Hso. simpl. unfold criticDom, truthy_score.
  rewrite Hsc, Hq. rewrite message_updateCriticBadge.
  assert (E : Dom.message (md_id m)
                (if shouldDisplay sd cl
                 then Dom.update_elem (cl_stepsContainer cl)
                        (append_html (displayCritiqueInSteps sd)) (dom w)
                 else dom w) = Some b).
  { destruct (shouldDisplay sd cl);
      [now rewrite message_append_html|exact Hb]. }
  rewrite E. simpl. eexists. split; [reflexivity|]. simpl.
  destruct (critic_circle b); reflexivity.
Qed.

Lemma criticSettled_updates_badge_witness :
  exists b',
    Dom.message "m1"
      (dom (criticSettled 0 (Ok kyoto_critiqued) kyoto_watching_world))
    = Some b'
    /\ critic_circle b'
       = Some {| badge_color := "bg-blue-500"; badge_text := "8.5" |}.
Proof.
  exact (criticSettled_updates_badge kyoto_watching_world 0 _ _
           kyoto_critiqued kyoto_critique (17 # 2) _
           eq_refl eq_refl eq_refl eq_refl eq_refl eq_refl).
Defined.

(** C7 does not hold of the code as stated: a successful poll whose body
    carries the score 8.5 but no search output returns before the badge is
    touched, and the message stays without a badge. *)
Lemma score_without_search_output_leaves_badge :
  md_critic_score kyoto_scored_only = ScoreNum (17 # 2)
  /\ critic_circle <$> Dom.message "m1" (dom (run kyoto_watching initial))
     = Some None
  /\ critic_circle
       <$> Dom.message "m1"
             (dom (step (run kyoto_watching initial)
                     (EvCriticSettled 0 (Ok kyoto_scored_only))))
     = Some None.
Proof. vm_compute. repeat split. Qed.

(** ** One event, seen from one turn *)

Lemma refreshOne_turns (so : ScoreObj) (w : World) :
  turns (fst (refreshOne so w)) = turns w.
Proof.
  unfold refreshOne. repeat case_match; reflexivity.
Qed.

Lemma refreshEach_turns (l : list ScoreObj) (w : World) :
  turns (refreshEach l w) = turns w.
Proof.
  revert w. induction l as [|so l IH]; intros w; [reflexivity|].
  simpl. pose proof (refreshOne_turns so w) as H.
  destruct (refreshOne so w) as [w1 threw]. simpl in H.
  destruct threw; [exact H|]. now rewrite IH.
Qed.

Lemma scoresSettled_turns (r : option (option (list ScoreObj))) (w : World) :
  turns (scoresSettled r w) = turns w.
Proof.
  unfold scoresSettled. repeat case_match; try reflexivity.
  apply refreshEach_turns.
Qed.

Lemma detailSettled_turns (k : nat) (r : option MsgData) (w : World) :
  turns (detailSettled k r w) = turns w.
Proof.
  unfold detailSettled. repeat case_match; reflexivity.
Qed.

Lemma lookup_set_turn (t t' : nat) (tn tn0 : Turn) (d : DOM) (n : nat)
    (w : World) :
  turns w !! t = Some tn0 ->
  turns (set_turn t tn d n w) !! t'
  = if decide (t = t') then Some tn else turns w !! t'.
Proof.
  intros H. simpl. destruct (decide (t = t')) as [->|Hne].
  - apply list_lookup_insert_eq. eapply lookup_lt_Some, H.
  - now apply list_lookup_insert_ne.
Qed.

(** Every event takes every turn along [turn_succ]. *)
Lemma step_turn (w : World) (e : Event) (t : nat) (tn : Turn) :
  turns w !! t = Some tn ->
  exists tn',
    turns (step w e) !! t = Some tn'
    /\ turn_succ (observed_by t tn e) tn tn'.
Proof.
  intros Ht.
  destruct e as [cid|text| |t0 n1 n2|t0 r|t0|t0 r|t0|t0|t0 r|t0|r|k r]; simpl.
  - eauto using turn_succ.
  - eauto using turn_succ.
  - unfold handleSend. case_match; simpl; [eauto using turn_succ|].
    rewrite lookup_app_l by (eapply lookup_lt_Some, Ht).
    eauto using turn_succ.
  - unfold sendToServer. destruct (turns w !! t0) as [tn0|] eqn:E0;
      [|eauto using turn_succ].
    destruct (t_phase tn0) eqn:Ep; eauto using turn_succ.
    simpl. destruct (decide (t0 = t)) as [->|Hne].
    + rewrite list_lookup_insert_eq by (eapply lookup_lt_Some, Ht).
      rewrite Ht in E0. injection E0 as <-. eauto using turn_succ.
    + rewrite list_lookup_insert_ne by exact Hne. eauto using turn_succ.
  - unfold submitSettled. destruct (turns w !! t0) as [tn0|] eqn:E0;
      [|eauto using turn_succ].
    destruct (t_phase tn0) eqn:Ep; eauto using turn_succ.
    assert (Hf : forall txt, exists tn',
               turns (submitFailed t0 tn0 txt w) !! t = Some tn'
               /\ turn_succ None tn tn').
    { intros txt. unfold submitFailed.
      rewrite (lookup_set_turn _ _ _ _ _ _ _ E0).
      destruct (decide (t0 = t)) as [->|]; [|eauto using turn_succ].
      rewrite Ht in E0. injection E0 as <-. eauto using turn_succ. }
    destruct r as [data|]; [|apply Hf].
    destruct (truthy_text (sd_error data)); [apply Hf|].
    simpl. destruct (decide (t0 = t)) as [->|Hne].
    + rewrite list_lookup_insert_eq by (eapply lookup_lt_Some, Ht).
      rewrite Ht in E0. injection E0 as <-. eauto using turn_succ.
    + rewrite list_lookup_insert_ne by exact Hne. eauto using turn_succ.
  - unfold statusTick. destruct (turns w !! t0) as [tn0|] eqn:E0;
      [|eauto using turn_succ].
    destruct (t_status tn0) as [sl|] eqn:Es; [|eauto using turn_succ].
    destruct (sl_polling sl) eqn:Ep; [|eauto using turn_succ].
    rewrite (lookup_set_turn _ _ _ _ _ _ _ E0).
    destruct (decide (t0 = t)) as [->|]; [|eauto using turn_succ].
    rewrite Ht in E0. injection E0 as <-. eauto using turn_succ.
  - unfold statusSettled.
    destruct (decide (t0 = t)) as [->|Hne].
    + rewrite Ht. destruct (t_status tn) as [sl|] eqn:Es.
      * destruct r as [| |sd]; simpl.
        -- eauto using turn_succ.
        -- rewrite list_lookup_insert_eq by (eapply lookup_lt_Some, Ht).
           eauto using turn_succ.
        -- rewrite list_lookup_insert_eq by (eapply lookup_lt_Some, Ht).
           rewrite Nat.eqb_refl. simpl. eauto using turn_succ.
      * destruct r; simpl; rewrite ?andb_false_r; eauto using turn_succ.
    + assert (Hobs : observed_by t tn (EvStatusSettled t0 r) = None).
      { simpl. destruct r; try reflexivity.
        apply Nat.eqb_neq in Hne. now rewrite Hne. }
      simpl in Hobs. rewrite Hobs.
      destruct (turns w !! t0) as [tn0|] eqn:E0; [|eauto using turn_succ].
      destruct (t_status tn0) as [sl|] eqn:Es; [|eauto using turn_succ].
      destruct r; simpl; rewrite ?list_lookup_insert_ne by done;
        eauto using turn_succ.
  - unfold statusTimeout. destruct (turns w !! t0) as [tn0|] eqn:E0;
      [|eauto using turn_succ].
    destruct (t_status tn0) as [sl|] eqn:Es; [|eauto using turn_succ].
    rewrite (lookup_set_turn _ _ _ _ _ _ _ E0).
    destruct (decide (t0 = t)) as [->|]; [|eauto using turn_succ].
    rewrite Ht in E0. injection E0 as <-. eauto using turn_succ.
  - unfold criticTick. destruct (turns w !! t0) as [tn0|] eqn:E0;
      [|eauto using turn_succ].
    destruct (t_critic tn0) as [cl|] eqn:Es; [|eauto using turn_succ].
    destruct (cl_polling cl) eqn:Ep; [|eauto using turn_succ].
    rewrite (lookup_set_turn _ _ _ _ _ _ _ E0).
    destruct (decide (t0 = t)) as [->|]; [|eauto using turn_succ].
    rewrite Ht in E0. injection E0 as <-. eauto using turn_succ.
  - unfold criticSettled. destruct (turns w !! t0) as [tn0|] eqn:E0;
      [|eauto using turn_succ].
    destruct (t_critic tn0) as [cl|] eqn:Es; [|eauto using turn_succ].
    destruct r as [| |m]; [eauto using turn_succ| |].
    + rewrite (lookup_set_turn _ _ _ _ _ _ _ E0).
      destruct (decide (t0 = t)) as [->|]; [|eauto using turn_succ].
      rewrite Ht in E0. injection E0 as <-. eauto using turn_succ.
    + destruct (md_search_output m) as [| |sd]; eauto using turn_succ.
      rewrite (lookup_set_turn _ _ _ _ _ _ _ E0).
      destruct (decide (t0 = t)) as [->|]; [|eauto using turn_succ].
      rewrite Ht in E0. injection E0 as <-. eauto using turn_succ.
  - unfold criticTimeout. destruct (turns w !! t0) as [tn0|] eqn:E0;
      [|eauto using turn_succ].
    destruct (t_critic tn0) as [cl|] eqn:Es; [|eauto using turn_succ].
    rewrite (lookup_set_turn _ _ _ _ _ _ _ E0).
    destruct (decide (t0 = t)) as [->|]; [|eauto using turn_succ].
    rewrite Ht in E0. injection E0 as <-. eauto using turn_succ.
  - rewrite scoresSettled_turns. eauto using turn_succ.
  - rewrite detailSettled_turns. eauto using turn_succ.
Qed.

Lemma run_app (evs1 evs2 : list Event) (w : World) :
  run (evs1 ++ evs2) w = run evs2 (run evs1 w).
Proof. apply fold_left_app. Qed.

Lemma run_snoc (evs : list Event) (e : Event) (w : World) :
  run (evs ++ [e]) w = step (run evs w) e.
Proof. now rewrite run_app. Qed.

(** A turn that exists keeps existing. *)
Lemma run_turn_exists (evs : list Event) (w : World) (t : nat) (tn : Turn) :
  turns w !! t = Some tn -> exists tn', turns (run evs w) !! t = Some tn'.
Proof.
  revert w tn. induction evs as [|e evs IH]; intros w tn Ht; [eauto|].
  destruct (step_turn w e t tn Ht) as (tn1 & H1 & _).
  simpl. eapply IH, H1.
Qed.

(** ** The steps container *)

Lemma steps_html_update_elem (n : nat) (h : list Block) (d : DOM) :
  steps_html n (Dom.update_elem n (set_html h) d)
  = (fun _ => h) <$> steps_html n d.
Proof.
  unfold steps_html, Dom.update_elem.
  induction d as [|[k x] d IH]; [reflexivity|]. simpl.
  destruct (k =? n)%nat eqn:E; simpl; rewrite ?E; simpl.
  - destruct x; simpl; try exact IH; reflexivity.
  - exact IH.
Qed.

Lemma steps_html_filter (n : nat) (keep : Elem -> bool) (d : DOM) :
  (forall e, Dom.bubble_of e = None -> keep e = true) ->
  steps_html n (List.filter keep d) = steps_html n d.
Proof.
  intros Hk. unfold steps_html. induction d as [|[k x] d IH]; [reflexivity|].
  simpl. destruct x as [b|sid h|c].
  - rewrite andb_false_r.
    destruct (keep _); simpl; rewrite ?andb_false_r; exact IH.
  - rewrite (Hk {| nid := k; node := NSteps sid h |} eq_refl). simpl.
    destruct (k =? n)%nat; simpl; [reflexivity|exact IH].
  - rewrite (Hk {| nid := k; node := NCritique c |} eq_refl). simpl.
    rewrite andb_false_r. exact IH.
Qed.

Lemma steps_html_removePlaceholders (n : nat) (d : DOM) :
  steps_html n (removePlaceholders d) = steps_html n d.
Proof.
  unfold removePlaceholders. rewrite !steps_html_filter; [reflexivity|..];
    intros [k [b|sid h|c]]; simpl; try discriminate; reflexivity.
Qed.

Lemma steps_html_update_message (n : nat) (id : string)
    (f : Bubble -> Bubble) (d : DOM) :
  steps_html n (Dom.update_message id f d) = steps_html n d.
Proof.
  unfold steps_html. induction d as [|[k x] d IH]; [reflexivity|].
  simpl. destruct x as [b|sid h|c]; simpl.
  - destruct (data_message_id b =? id)%string; simpl;
      rewrite !andb_false_r; [reflexivity|exact IH].
  - destruct (k =? n)%nat; simpl; [reflexivity|exact IH].
  - rewrite andb_false_r. exact IH.
Qed.

Lemma steps_html_app_bubble (n k : nat) (b : Bubble) (d : DOM) :
  steps_html n (d ++ [ {| nid := k; node := NBubble b |} ]) = steps_html n d.
Proof.
  unfold steps_html. induction d as [|e d IH]; simpl.
  - now rewrite andb_false_r.
  - destruct ((nid e =? n)%nat && _); [reflexivity|exact IH].
Qed.

Lemma steps_html_addMessageToChat (n : nat) (id : string)
    (text : Text) (role : Role)
    (sc : ScoreField) (dummy : bool) (pid : option string)
    (out : option nat) (sa : bool) (fresh : nat) (d : DOM) :
  steps_html n (addMessageToChat id text role sc dummy pid out sa fresh d)
  = steps_html n d.
Proof.
  unfold addMessageToChat. destruct (Dom.querySelector id d).
  - destruct (is_undefined sc); [reflexivity|apply steps_html_update_message].
  - apply steps_html_app_bubble.
Qed.

(** What the status callback does to its own steps container: it rewrites
    it when it renders and leaves it alone otherwise. *)
Lemma steps_html_statusDom (sd : StatusData) (sl : StatusLoop) (sa : bool)
    (fresh : nat) (d : DOM) :
  steps_html (sl_stepsContainer sl) (statusDom sd sl sa fresh d)
  = if shouldRender sd sl
    then (fun _ => updateProcessingStepsDisplay sd)
           <$> steps_html (sl_stepsContainer sl) d
    else steps_html (sl_stepsContainer sl) d.
Proof.
  unfold statusDom, renderSteps.
  destruct (isFinal sd sl);
    rewrite ?steps_html_addMessageToChat, ?steps_html_removePlaceholders;
    destruct (shouldRender sd sl);
    rewrite ?steps_html_update_elem; reflexivity.
Qed.

(** ** Invariants of the turns of a run *)

Lemma step_turns_shape (w : World) (e : Event) :
  turns (step w e) = turns w
  \/ (exists t0 x, turns (step w e) = <[t0 := x]> (turns w))
  \/ (exists text, turns (step w e) = turns w ++ [ newTurn text ]).
Proof.
  destruct e; simpl;
    unfold handleSend, sendToServer, submitSettled, submitFailed, statusTick,
      statusSettled, statusTimeout, criticTick, criticSettled, criticTimeout;
    rewrite ?scoresSettled_turns, ?detailSettled_turns;
    repeat case_match; simpl; eauto.
Qed.

Lemma step_new_turn (w : World) (e : Event) (t : nat) (tn' : Turn) :
  turns w !! t = None ->
  turns (step w e) !! t = Some tn' ->
  exists text, tn' = newTurn text.
Proof.
  intros Hn Hs.
  destruct (step_turns_shape w e) as [E|[(t0 & x & E)|(text & E)]];
    rewrite E in Hs.
  - congruence.
  - apply lookup_lt_Some in Hs. rewrite length_insert in Hs.
    apply lookup_ge_None in Hn. lia.
  - exists text. apply lookup_ge_None in Hn.
    rewrite lookup_app_r in Hs by exact Hn.
    destruct (t - length (turns w)) as [|k]; simpl in Hs; [congruence|].
    now destruct k.
Qed.

(** A property of turns that holds when [handleSend] creates a turn and
    that every transition keeps holds of every turn of every run. *)
Lemma reachable_turn_inv (P : Turn -> Prop) :
  (forall text, P (newTurn text)) ->
  (forall obs tn tn', turn_succ obs tn tn' -> P tn -> P tn') ->
  forall evs t tn, turns (run evs initial) !! t = Some tn -> P tn.
Proof.
  intros Hnew Hsucc evs.
  induction evs as [|e evs IH] using rev_ind; intros t tn Ht.
  - destruct t; discriminate.
  - rewrite run_snoc in Ht.
    destruct (turns (run evs initial) !! t) as [tn0|] eqn:E0.
    + destruct (step_turn _ e t tn0 E0) as (tn1 & H1 & Hs).
      rewrite H1 in Ht. injection Ht as <-.
      eapply Hsucc; [exact Hs|]. eapply IH, E0.
    + destruct (step_new_turn _ e t tn E0 Ht) as (text & ->). apply Hnew.
Qed.

Lemma last_rendered_app (cs cs' : list Call) :
  last_rendered (cs ++ cs')
  = match last_rendered cs' with
    | Some st => Some st
    | None => last_rendered cs
    end.
Proof.
  induction cs as [|c cs IH]; simpl.
  - now destruct (last_rendered cs').
  - rewrite IH. now destruct (last_rendered cs').
Qed.

Lemma turn_succ_last_status (obs : option StatusData) (tn tn' : Turn) :
  turn_succ obs tn tn' -> last_status_inv tn -> last_status_inv tn'.
Proof.
  unfold last_status_inv.
  destruct 1 as [tn|tn id1 id2 Hp|tn Hp|tn data n Hp|tn sl Hs Hp|tn sl Hs
                |tn sl sd Hs|tn cl Hc Hp|tn cl Hc|tn cl m sd Hc];
    simpl; rewrite ?last_rendered_app; simpl.
  - tauto.
  - destruct (t_status tn); [intros [? _]; congruence|]. now intros ->.
  - destruct (t_status tn); [intros [? _]; congruence|]. now intros ->.
  - destruct (t_status tn); [intros [? _]; congruence|]. intros ->.
    destruct (sd_user_message data) as [[uid uc]|];
      destruct (truthy_text (sd_message_id data)); simpl; auto.
  - rewrite Hs. tauto.
  - rewrite Hs. tauto.
  - rewrite Hs. intros [Hph Hl]. unfold statusTurn.
    destruct (isFinal sd sl); simpl; rewrite ?last_rendered_app;
      destruct (shouldRender sd sl) eqn:Er; simpl; auto.
  - destruct (t_status tn); tauto.
  - destruct (t_status tn); tauto.
  - destruct (shouldDisplay sd cl), (truthy_score (md_critic_score m));
      simpl; destruct (t_status tn); tauto.
Qed.

Lemma reachable_last_status (evs : list Event) (t : nat) (tn : Turn) :
  turns (run evs initial) !! t = Some tn -> last_status_inv tn.
Proof.
  apply (reachable_turn_inv last_status_inv).
  - reflexivity.
  - apply turn_succ_last_status.
Qed.

(** ** The status loop: when the panel is rendered *)

Lemma renders_statusTurn (sd : StatusData) (sl : StatusLoop) (tn : Turn) :
  List.filter is_render (t_calls (statusTurn sd sl tn))
  = List.filter is_render (t_calls tn)
    ++ (if shouldRender sd sl then [ CRender (status sd) ] else []).
Proof.
  unfold statusTurn.
  destruct (isFinal sd sl), (shouldRender sd sl); simpl;
    rewrite !List.filter_app; simpl; now rewrite ?app_nil_r.
Qed.

Lemma calls_statusSettled (w : World) (t : nat) (tn : Turn) (sl : StatusLoop)
    (sd : StatusData) :
  turns w !! t = Some tn -> t_status tn = Some sl ->
  turns (step w (EvStatusSettled t (Ok sd))) !! t
  = Some (statusTurn sd sl tn).
Proof.
  intros Ht Hs. simpl. unfold statusSettled. rewrite Ht, Hs. simpl.
  apply list_lookup_insert_eq. eapply lookup_lt_Some, Ht.
Qed.

Lemma dom_statusSettled (w : World) (t : nat) (tn : Turn) (sl : StatusLoop)
    (sd : StatusData) :
  turns w !! t = Some tn -> t_status tn = Some sl ->
  dom (step w (EvStatusSettled t (Ok sd)))
  = statusDom sd sl (second_assistant w) (next_nid w) (dom w).
Proof.
  intros Ht Hs. simpl. unfold statusSettled. now rewrite Ht, Hs.
Qed.

(** C4: in any run, when the status callback of a turn receives a snapshot
    (with a status code, which is never the empty string), it renders the
    panel exactly when that status differs from the status of the previous
    render of the turn, and always when there was none.  A render rewrites
    the steps container from the snapshot; otherwise no render is made
    and the container keeps its content. *)
Theorem status_panel_rendered_iff_status_changed (evs : list Event) (t : nat)
    (tn : Turn) (sl : StatusLoop) (sd : StatusData) :
  turns (run evs initial) !! t = Some tn ->
  t_status tn = Some sl ->
  status sd <> "" ->
  List.filter is_render
    (calls t (step (run evs initial) (EvStatusSettled t (Ok sd))))
  = List.filter is_render (t_calls tn)
    ++ (if same_as_last_render (t_calls tn) (status sd) then []
        else [ CRender (status sd) ])
  /\ steps_html (sl_stepsContainer sl)
       (dom (step (run evs initial) (EvStatusSettled t (Ok sd))))
     = if same_as_last_render (t_calls tn) (status sd)
       then steps_html (sl_stepsContainer sl) (dom (run evs initial))
       else (fun _ => updateProcessingStepsDisplay sd)
              <$> steps_html (sl_stepsContainer sl) (dom (run evs initial)).
Proof.
  intros Ht Hs Hne.
  pose proof (reachable_last_status evs t tn Ht) as Hinv.
  unfold last_status_inv in Hinv. rewrite Hs in Hinv.
  destruct Hinv as [_ Hlast].
  unfold calls. rewrite (calls_statusSettled _ _ _ _ sd Ht Hs).
  rewrite (dom_statusSettled _ _ _ _ sd Ht Hs).
  rewrite renders_statusTurn, steps_html_statusDom.
  assert (Hr : shouldRender sd sl
               = negb (same_as_last_render (t_calls tn) (status sd))).
  { unfold shouldRender, same_as_last_render, JsString.truthy.
    rewrite Hlast. destruct (last_rendered (t_calls tn)) as [st|]; simpl.
    - rewrite negb_involutive, (String.eqb_sym (status sd) st).
      destruct (String.eqb_spec st (status sd)) as [->|Hd]; simpl;
        [|reflexivity].
      now apply String.eqb_neq.
    - apply orb_true_r. }
  rewrite Hr.
  destruct (same_as_last_render (t_calls tn) (status sd)); simpl; auto.
Qed.

Lemma status_panel_rendered_iff_status_changed_witness :
  List.filter is_render
    (calls 0 (step (run kyoto_ner initial)
                (EvStatusSettled 0 (Ok kyoto_ner_started))))
  = [ CRender "ner_started" ]
  /\ steps_html 5
       (dom (step (run kyoto_ner initial)
               (EvStatusSettled 0 (Ok kyoto_ner_started))))
     = steps_html 5 (dom (run kyoto_ner initial)).
Proof.
  generalize (status_panel_rendered_iff_status_changed kyoto_ner 0
                kyoto_ner_turn kyoto_ner_loop kyoto_ner_started
                ltac:(vm_compute; reflexivity) ltac:(vm_compute; reflexivity)
                ltac:(discriminate)).
  vm_compute. exact (fun H => H).
Defined.

(** ** The status loop: what a render shows *)

Lemma render_shows_carried_fields (sd : StatusData) :
  existsb is_ner (updateProcessingStepsDisplay sd) = carries_ner sd
  /\ existsb is_search_call (updateProcessingStepsDisplay sd)
     = carries_search_call sd
  /\ existsb is_search_results (updateProcessingStepsDisplay sd)
     = carries_search_results sd
  /\ existsb is_thinking (updateProcessingStepsDisplay sd)
     = carries_thinking sd.
Proof.
  unfold updateProcessingStepsDisplay, carries_ner, carries_search_call,
    carries_search_results, carries_thinking.
  destruct (processing_data sd) as [p|]; [|now simpl].
  destruct (ner_results p), (truthy_text (search_call p)),
    (search_results p), (truthy_text (thinking p)); simpl; auto.
Qed.

(** C5 does not hold of the code: a later snapshot that no longer carries
    the entities makes the panel drop them. *)
Lemma later_snapshot_retracts_field :
  existsb is_ner <$> steps_html 5 (dom (run kyoto_entities initial))
  = Some true
  /\ carries_ner kyoto_search_started = false
  /\ existsb is_ner
       <$> steps_html 5 (dom (run kyoto_entities_then_search initial))
     = Some false.
Proof. vm_compute. repeat split. Qed.

(** C5, as the code has it: a render rewrites the steps container from
    the snapshot alone, so after it the panel shows exactly the processing
    fields which that snapshot carries. *)
Theorem steps_panel_shows_fields_of_rendered_snapshot (w : World) (t : nat)
    (tn : Turn) (sl : StatusLoop) (sd : StatusData) (h : list Block) :
  turns w !! t = Some tn ->
  t_status tn = Some sl ->
  steps_html (sl_stepsContainer sl) (dom w) = Some h ->
  shouldRender sd sl = true ->
  exists h',
    steps_html (sl_stepsContainer sl)
      (dom (step w (EvStatusSettled t (Ok sd)))) = Some h'
    /\ existsb is_ner h' = carries_ner sd
    /\ existsb is_search_call h' = carries_search_call sd
    /\ existsb is_search_results h' = carries_search_results sd
    /\ existsb is_thinking h' = carries_thinking sd.
Proof.
  intros Ht Hs Hh Hr.
  rewrite (dom_statusSettled _ _ _ _ sd Ht Hs), steps_html_statusDom, Hr, Hh.
  eexists. split; [reflexivity|]. apply render_shows_carried_fields.
Qed.

Lemma steps_panel_shows_fields_of_rendered_snapshot_witness :
  exists h',
    steps_html 5
      (dom (step kyoto_entities_world
              (EvStatusSettled 0 (Ok kyoto_search_started)))) = Some h'
    /\ existsb is_ner h' = false
    /\ existsb is_search_call h' = false
    /\ existsb is_search_results h' = false
    /\ existsb is_thinking h' = false.
Proof.
  exact (steps_panel_shows_fields_of_rendered_snapshot
           kyoto_entities_world 0 _ _ kyoto_search_started _
           eq_refl eq_refl eq_refl eq_refl).
Defined.

(** ** The status loop: failed polls *)

Lemma fetches_statusTurn (sd : StatusData) (sl : StatusLoop) (tn : Turn) :
  List.filter is_fetch_status (t_calls (statusTurn sd sl tn))
  = List.filter is_fetch_status (t_calls tn).
Proof.
  unfold statusTurn.
  destruct (isFinal sd sl), (shouldRender sd sl); simpl;
    rewrite !List.filter_app; simpl; now rewrite ?app_nil_r.
Qed.

Lemma fetches_criticTurn (m : MsgData) (sd : SearchData) (cl : CriticLoop)
    (tn : Turn) :
  List.filter is_fetch_status (t_calls (criticTurn m sd cl tn))
  = List.filter is_fetch_status (t_calls tn).
Proof.
  unfold criticTurn. simpl.
  destruct (shouldDisplay sd cl), (truthy_score (md_critic_score m)); simpl;
    rewrite !List.filter_app; simpl; now rewrite ?app_nil_r.
Qed.

(** A stopped status loop of a settled turn stays stopped and makes no
    further request. *)
Lemma turn_succ_stopped (obs : option StatusData) (tn tn' : Turn)
    (sl : StatusLoop) :
  turn_succ obs tn tn' ->
  t_phase tn = Settled -> t_status tn = Some sl -> sl_polling sl = false ->
  t_phase tn' = Settled
  /\ (exists sl', t_status tn' = Some sl' /\ sl_polling sl' = false)
  /\ List.filter is_fetch_status (t_calls tn')
     = List.filter is_fetch_status (t_calls tn).
Proof.
  destruct 1 as [tn|tn id1 id2 Hp|tn Hp|tn data n Hp|tn sl0 Hs Hp|tn sl0 Hs
                |tn sl0 sd Hs|tn cl Hc Hp|tn cl Hc|tn cl m sd Hc];
    intros Hph Hst Hpoll; try congruence.
  - eauto.
  - rewrite Hst in Hs. injection Hs as <-. simpl.
    rewrite List.filter_app, app_nil_r. eauto.
  - rewrite Hst in Hs. injection Hs as <-. rewrite fetches_statusTurn.
    unfold statusTurn. destruct (isFinal sd sl); simpl; eauto.
  - simpl. rewrite List.filter_app, app_nil_r. eauto.
  - simpl. rewrite List.filter_app, app_nil_r. eauto.
  - rewrite fetches_criticTurn. simpl. eauto.
Qed.

Lemma run_stopped (evs : list Event) (w : World) (t : nat) (tn : Turn)
    (sl : StatusLoop) :
  turns w !! t = Some tn ->
  t_phase tn = Settled -> t_status tn = Some sl -> sl_polling sl = false ->
  sl_polling <$> status_loop t (run evs w) = Some false
  /\ List.filter is_fetch_status (calls t (run evs w))
     = List.filter is_fetch_status (t_calls tn).
Proof.
  revert w tn sl. induction evs as [|e evs IH]; intros w tn sl Ht Hph Hs Hp.
  - unfold status_loop, calls. simpl. rewrite Ht, Hs. simpl. now rewrite Hp.
  - destruct (step_turn w e t tn Ht) as (tn1 & H1 & Hsucc).
    destruct (turn_succ_stopped _ _ _ _ Hsucc Hph Hs Hp)
      as (Hph1 & (sl1 & Hs1 & Hp1) & Hf).
    simpl. rewrite <- Hf. eapply IH; eauto.
Qed.

(** C3 does not hold of the code for a rejected request: the callback
    catches the error without clearing the interval, so the loop is still
    polling and the next tick sends the request again. *)
Lemma rejected_poll_is_retried :
  sl_polling <$> status_loop 0 (run kyoto_rejected initial) = Some true
  /\ List.filter is_fetch_status
       (calls 0 (run (kyoto_rejected ++ [ EvStatusTick 0 ]) initial))
     = [ CFetchStatus; CFetchStatus ].
Proof. vm_compute. split; reflexivity. Qed.

(** C3, as the code has it: in any run, a response that is not [ok]
    stops the status loop for good, without touching the page: whatever
    happens later, the loop is stopped and has sent no further request.
    A rejected request changes nothing at all, neither the page nor the
    loop, which polls again at its next tick if it was polling. *)
Theorem failed_status_poll (evs0 : list Event) (t : nat) (tn : Turn)
    (sl : StatusLoop) :
  turns (run evs0 initial) !! t = Some tn ->
  t_status tn = Some sl ->
  (dom (step (run evs0 initial) (EvStatusSettled t NotOk))
   = dom (run evs0 initial)
   /\ forall evs,
        sl_polling
          <$> status_loop t
                (run evs (step (run evs0 initial) (EvStatusSettled t NotOk)))
        = Some false
        /\ List.filter is_fetch_status
             (calls t
                (run evs (step (run evs0 initial) (EvStatusSettled t NotOk))))
           = List.filter is_fetch_status (t_calls tn))
  /\ step (run evs0 initial) (EvStatusSettled t Rejected) = run evs0 initial
  /\ calls t (step (step (run evs0 initial) (EvStatusSettled t Rejected))
                (EvStatusTick t))
     = t_calls tn ++ (if sl_polling sl then [ CFetchStatus ] else []).
Proof.
  intros Ht Hs.
  pose proof (reachable_last_status evs0 t tn Ht) as Hinv.
  unfold last_status_inv in Hinv. rewrite Hs in Hinv.
  destruct Hinv as [Hph _].
  set (w := run evs0 initial) in *.
  assert (Hr : step w (EvStatusSettled t Rejected) = w).
  { simpl. unfold statusSettled. now rewrite Ht, Hs. }
  split; [split|split].
  - simpl. unfold statusSettled. now rewrite Ht, Hs.
  - intros evs.
    assert (H1 : turns (step w (EvStatusSettled t NotOk)) !! t
                 = Some (with_status tn (statusStopped sl)
                           [ CClearStatusInterval ])).
    { simpl. unfold statusSettled. rewrite Ht, Hs. simpl.
      apply list_lookup_insert_eq. eapply lookup_lt_Some, Ht. }
    destruct (run_stopped evs _ t _ (statusStopped sl) H1 Hph eq_refl eq_refl)
      as [Hp Hf].
    split; [exact Hp|]. rewrite Hf. simpl.
    now rewrite List.filter_app, app_nil_r.
  - exact Hr.
  - rewrite Hr. unfold calls. simpl. unfold statusTick. rewrite Ht, Hs.
    destruct (sl_polling sl); simpl.
    + rewrite list_lookup_insert_eq by (eapply lookup_lt_Some, Ht).
      reflexivity.
    + rewrite Ht. now rewrite app_nil_r.
Qed.

Lemma failed_status_poll_witness :
  (dom (step (run kyoto_ner initial) (EvStatusSettled 0 NotOk))
   = dom (run kyoto_ner initial)
   /\ forall evs,
        sl_polling
          <$> status_loop 0
                (run evs (step (run kyoto_ner initial)
                            (EvStatusSettled 0 NotOk)))
        = Some false
        /\ List.filter is_fetch_status
             (calls 0 (run evs (step (run kyoto_ner initial)
                                  (EvStatusSettled 0 NotOk))))
           = List.filter is_fetch_status (t_calls kyoto_ner_turn))
  /\ step (run kyoto_ner initial) (EvStatusSettled 0 Rejected)
     = run kyoto_ner initial
  /\ calls 0 (step (step (run kyoto_ner initial)
                      (EvStatusSettled 0 Rejected)) (EvStatusTick 0))
     = t_calls kyoto_ner_turn
       ++ (if sl_polling kyoto_ner_loop then [ CFetchStatus ] else []).
Proof.
  exact (failed_status_poll kyoto_ner 0 kyoto_ner_turn kyoto_ner_loop
           ltac:(vm_compute; reflexivity) ltac:(vm_compute; reflexivity)).
Defined.

(** ** The status loop: the final response *)

Lemma turn_succ_final (obs : option StatusData) (tn tn' : Turn)
    (sl : StatusLoop) :
  turn_succ obs tn tn' ->
  t_phase tn = Settled -> t_status tn = Some sl ->
  t_phase tn' = Settled
  /\ exists sl',
       t_status tn' = Some sl'
       /\ sl_messageId sl' = sl_messageId sl
       /\ sl_stepsContainer sl' = sl_stepsContainer sl
       /\ finalResponseShown sl'
          = finalResponseShown sl
            || match obs with
               | Some sd => qualifies sd
               | None => false
               end.
Proof.
  destruct 1 as [tn|tn id1 id2 Hp|tn Hp|tn data n Hp|tn sl0 Hs Hp|tn sl0 Hs
                |tn sl0 sd Hs|tn cl Hc Hp|tn cl Hc|tn cl m sd Hc];
    intros Hph Hst; try congruence; simpl;
    rewrite ?orb_false_r; try (split; [assumption|eauto]).
  - rewrite Hst in Hs. injection Hs as <-. eauto 10.
  - rewrite Hst in Hs. injection Hs as <-. eauto 10.
  - rewrite Hst in Hs. injection Hs as <-.
    unfold statusTurn, isFinal, qualifies.
    destruct (isTerminal (status sd)), (truthy_text (content sd)),
      (finalResponseShown sl); simpl; eauto 10.
Qed.

Lemma observed_cons (t : nat) (e : Event) (evs : list Event) (tn : Turn)
    (sl : StatusLoop) :
  t_status tn = Some sl ->
  observed t (e :: evs)
  = match observed_by t tn e with
    | Some sd => sd :: observed t evs
    | None => observed t evs
    end.
Proof.
  intros Hs. unfold observed, observed_by.
  destruct e as [| | | | | |t' [| |sd]| | | | | |]; try reflexivity.
  simpl. rewrite Hs. simpl. rewrite andb_true_r.
  now destruct (t' =? t)%nat.
Qed.

(** The flag [finalResponseShown] of a loop is set exactly when its
    callback has received a terminal snapshot with content. *)
Lemma run_final (evs : list Event) (w : World) (t : nat) (tn : Turn)
    (sl : StatusLoop) :
  turns w !! t = Some tn ->
  t_phase tn = Settled -> t_status tn = Some sl ->
  exists tn' sl',
    turns (run evs w) !! t = Some tn'
    /\ t_phase tn' = Settled
    /\ t_status tn' = Some sl'
    /\ sl_messageId sl' = sl_messageId sl
    /\ sl_stepsContainer sl' = sl_stepsContainer sl
    /\ finalResponseShown sl'
       = finalResponseShown sl || existsb qualifies (observed t evs).
Proof.
  revert w tn sl. induction evs as [|e evs IH]; intros w tn sl Ht Hph Hs.
  - exists tn, sl. simpl. rewrite orb_false_r. repeat split; auto.
  - destruct (step_turn w e t tn Ht) as (tn1 & H1 & Hsucc).
    destruct (turn_succ_final _ _ _ _ Hsucc Hph Hs)
      as (Hph1 & sl1 & Hs1 & Hm1 & Hc1 & Hf1).
    destruct (IH _ _ _ H1 Hph1 Hs1)
      as (tn' & sl' & Ht' & Hph' & Hs' & Hm' & Hc' & Hf').
    exists tn', sl'. rewrite (observed_cons _ _ _ _ _ Hs).
    change (run (e :: evs) w) with (run evs (step w e)).
    repeat split; try congruence.
    rewrite Hf', Hf1.
    destruct (observed_by t tn e); simpl;
      now rewrite ?orb_false_r, ?orb_assoc.
Qed.

Lemma bubbles_update_elem_steps (n : nat) (f : Node -> Node) (d : DOM) :
  (forall b, f (NBubble b) = NBubble b) ->
  (forall x, Dom.bubble_of {| nid := 0; node := x |} = None ->
             Dom.bubble_of {| nid := 0; node := f x |} = None) ->
  bubbles (Dom.update_elem n f d) = bubbles d.
Proof.
  intros Hb Hn. unfold bubbles, Dom.update_elem.
  induction d as [|[k x] d IH]; [reflexivity|].
  change (omap Dom.bubble_of
            ((if (k =? n)%nat then {| nid := k; node := f x |}
              else {| nid := k; node := x |})
               :: List.map (fun e => if (nid e =? n)%nat
                                     then {| nid := nid e; node := f (node e) |}
                                     else e) d)
          = omap Dom.bubble_of ({| nid := k; node := x |} :: d)).
  cbn [omap list_omap]. fold (@omap list _ _ _ Dom.bubble_of). rewrite IH.
  destruct (k =? n)%nat; [|reflexivity].
  unfold Dom.bubble_of in *. cbn [node] in *. destruct x as [b|sid h|c].
  - now rewrite Hb.
  - specialize (Hn (NSteps sid h) eq_refl).
    destruct (f (NSteps sid h)); [discriminate|reflexivity..].
  - specialize (Hn (NCritique c) eq_refl).
    destruct (f (NCritique c)); [discriminate|reflexivity..].
Qed.

Lemma bubbles_renderSteps (sd : StatusData) (sl : StatusLoop) (d : DOM) :
  bubbles (renderSteps sd sl d) = bubbles d.
Proof.
  unfold renderSteps. destruct (shouldRender sd sl); [|reflexivity].
  apply bubbles_update_elem_steps; [reflexivity|].
  intros [b|sid old|c]; simpl; [discriminate|reflexivity..].
Qed.

Lemma message_app_bubble (id : string) (d : DOM) (n : nat) (b : Bubble) :
  Dom.message id d = None ->
  Dom.message id (d ++ [ {| nid := n; node := NBubble b |} ])
  = if (data_message_id b =? id)%string then Some b else None.
Proof.
  induction d as [|e d IH]; intros H.
  - simpl. rewrite message_cons. unfold Dom.has_message_id. simpl.
    now destruct (data_message_id b =? id)%string.
  - simpl. rewrite message_cons in *.
    destruct (Dom.has_message_id id e) eqn:E.
    + unfold Dom.has_message_id, Dom.bubble_of in *.
      destruct (node e); [discriminate H|discriminate E..].
    + now apply IH.
Qed.

Lemma message_None_querySelector (id : string) (d : DOM) :
  Dom.querySelector id d = None -> Dom.message id d = None.
Proof. unfold Dom.message. now intros ->. Qed.

Lemma message_Some_querySelector (id : string) (d : DOM) (e : Elem) :
  Dom.querySelector id d = Some e -> is_Some (Dom.message id d).
Proof.
  unfold Dom.message. intros H. rewrite H.
  apply find_some in H as [_ H]. unfold Dom.has_message_id, Dom.bubble_of in *.
  destruct (node e); [eauto|discriminate..].
Qed.

(** After [addMessageToChat(id, ...)] the page has a bubble [id]. *)
Lemma addMessageToChat_present (id : string) (text : Text) (role : Role)
    (sc : ScoreField) (dummy : bool) (pid : option string)
    (out : option nat) (sa : bool) (fresh : nat) (d : DOM) :
  is_Some (Dom.message id
             (addMessageToChat id text role sc dummy pid out sa fresh d)).
Proof.
  unfold addMessageToChat. destruct (Dom.querySelector id d) as [e|] eqn:E.
  - pose proof (message_Some_querySelector _ _ _ E) as [b Hb].
    destruct (is_undefined sc); [eauto|].
    rewrite message_update_message by reflexivity.
    rewrite String.eqb_refl, Hb. simpl. eauto.
  - rewrite message_app_bubble by now apply message_None_querySelector.
    simpl. rewrite String.eqb_refl. eauto.
Qed.

(** C2: in any run, take a turn whose status loop has not yet shown a
    final response, let any events [evs] happen, and then let the callback
    of the loop receive the snapshot [sd].  If [sd] has a terminal status
    and content and no snapshot received during [evs] had, the callback
    stops the loop, starts the critic loop and inserts the assistant
    message after purging the placeholders: once, there and only there.
    In every other case, a terminal status without content among them, the
    callback leaves the interval as it is, starts nothing and inserts no
    message: the bubbles of the page are unchanged. *)
Theorem status_loop_ends_on_first_final_snapshot (evs0 : list Event)
    (t : nat) (tn : Turn) (sl : StatusLoop) (evs : list Event)
    (sd : StatusData) :
  turns (run evs0 initial) !! t = Some tn ->
  t_status tn = Some sl ->
  finalResponseShown sl = false ->
  if qualifies sd && negb (existsb qualifies (observed t evs))
  then
    sl_polling
      <$> status_loop t
            (step (run evs (run evs0 initial)) (EvStatusSettled t (Ok sd)))
    = Some false
    /\ critic_loop t
         (step (run evs (run evs0 initial)) (EvStatusSettled t (Ok sd)))
       = Some (startCriticPolling (sl_messageId sl) (sl_stepsContainer sl))
    /\ List.filter is_real_add
         (calls t
            (step (run evs (run evs0 initial)) (EvStatusSettled t (Ok sd))))
       = List.filter is_real_add (calls t (run evs (run evs0 initial)))
         ++ [ CAddMessage (message_id sd) false ]
    /\ (exists sl1,
          status_loop t (run evs (run evs0 initial)) = Some sl1
          /\ dom (step (run evs (run evs0 initial))
                    (EvStatusSettled t (Ok sd)))
             = addMessageToChat (message_id sd) (default "" (content sd))
                 Assistant (critic_score sd) false None None
                 (second_assistant (run evs (run evs0 initial)))
                 (next_nid (run evs (run evs0 initial)))
                 (removePlaceholders
                    (renderSteps sd sl1 (dom (run evs (run evs0 initial))))))
    /\ is_Some (Dom.message (message_id sd)
                  (dom (step (run evs (run evs0 initial))
                          (EvStatusSettled t (Ok sd)))))
  else
    sl_polling
      <$> status_loop t
            (step (run evs (run evs0 initial)) (EvStatusSettled t (Ok sd)))
    = sl_polling <$> status_loop t (run evs (run evs0 initial))
    /\ critic_loop t
         (step (run evs (run evs0 initial)) (EvStatusSettled t (Ok sd)))
       = critic_loop t (run evs (run evs0 initial))
    /\ List.filter is_real_add
         (calls t
            (step (run evs (run evs0 initial)) (EvStatusSettled t (Ok sd))))
       = List.filter is_real_add (calls t (run evs (run evs0 initial)))
    /\ bubbles (dom (step (run evs (run evs0 initial))
                       (EvStatusSettled t (Ok sd))))
       = bubbles (dom (run evs (run evs0 initial))).
Proof.
  intros Ht Hs Hf.
  pose proof (reachable_last_status evs0 t tn Ht) as Hinv.
  unfold last_status_inv in Hinv. rewrite Hs in Hinv.
  destruct Hinv as [Hph _].
  set (w := run evs0 initial) in *.
  destruct (run_final evs w t tn sl Ht Hph Hs)
    as (tn1 & sl1 & H1 & Hph1 & Hs1 & Hm1 & Hc1 & Hf1).
  rewrite Hf in Hf1. simpl in Hf1.
  unfold status_loop, critic_loop, calls.
  rewrite (calls_statusSettled _ _ _ _ sd H1 Hs1),
    (dom_statusSettled _ _ _ _ sd H1 Hs1), H1, Hs1.
  unfold statusTurn, statusDom, isFinal, startCriticPolling.
  rewrite Hf1. unfold qualifies at 1.
  destruct (isTerminal (status sd)), (truthy_text (content sd)),
    (existsb qualifies (observed t evs)); simpl;
    rewrite ?bubbles_renderSteps;
    try (repeat split; try reflexivity;
         destruct (shouldRender sd sl1); simpl;
         rewrite ?List.filter_app; simpl; now rewrite ?app_nil_r).
  rewrite Hm1, Hc1. repeat split.
  - destruct (shouldRender sd sl1); simpl;
      rewrite ?List.filter_app; simpl; now rewrite ?app_nil_r.
  - eauto.
  - apply addMessageToChat_present.
Qed.

Lemma status_loop_ends_on_first_final_snapshot_witness :
  (sl_polling
     <$> status_loop 0 (run kyoto_stalled (run kyoto_polling initial))
   = Some true
   /\ bubbles (dom (run kyoto_stalled (run kyoto_polling initial)))
      = bubbles (dom (run kyoto_polling initial)))
  /\ sl_polling
       <$> status_loop 0
             (step (run kyoto_stalled (run kyoto_polling initial))
                (EvStatusSettled 0 (Ok kyoto_generated)))
     = Some false
  /\ List.filter is_real_add
       (calls 0 (step (run kyoto_stalled (run kyoto_polling initial))
                   (EvStatusSettled 0 (Ok kyoto_generated))))
     = [ CAddMessage "u1" false; CAddMessage "m1" false ].
Proof.
  pose proof (status_loop_ends_on_first_final_snapshot kyoto_polling 0
                kyoto_polling_turn kyoto_polling_loop kyoto_stalled
                kyoto_generated ltac:(vm_compute; reflexivity)
                ltac:(vm_compute; reflexivity)
                ltac:(vm_compute; reflexivity)) as H.
  pose proof (status_loop_ends_on_first_final_snapshot kyoto_polling 0
                kyoto_polling_turn kyoto_polling_loop [ EvStatusTick 0 ]
                kyoto_completed_empty ltac:(vm_compute; reflexivity)
                ltac:(vm_compute; reflexivity)
                ltac:(vm_compute; reflexivity)) as H0.
  vm_compute in H. vm_compute in H0.
  destruct H as (H1 & _ & H3 & _). destruct H0 as (H4 & _ & _ & H5).
  vm_compute. repeat split; assumption.
Defined.

(** ** Identifiers of the bubbles of the page *)

Lemma keys_app (d1 d2 : DOM) : keys (d1 ++ d2) = keys d1 ++ keys d2.
Proof.
  induction d1 as [|e d1 IH]; [reflexivity|]. simpl.
  destruct (node e); simpl; now rewrite IH.
Qed.

Lemma keys_update_message (id : string) (f : Bubble -> Bubble) (d : DOM) :
  (forall b, data_message_id (f b) = data_message_id b
             /\ dummy_message (f b) = dummy_message b) ->
  keys (Dom.update_message id f d) = keys d.
Proof.
  intros Hf. induction d as [|[k x] d IH]; [reflexivity|]. simpl.
  destruct x as [b|sid h|c]; simpl; try now rewrite IH.
  destruct (data_message_id b =? id)%string; simpl.
  - now destruct (Hf b) as [-> ->].
  - now rewrite IH.
Qed.

Lemma keys_update_elem (n : nat) (f : Node -> Node) (d : DOM) :
  (forall x, keys [ {| nid := 0; node := f x |} ]
             = keys [ {| nid := 0; node := x |} ]) ->
  keys (Dom.update_elem n f d) = keys d.
Proof.
  intros Hf. unfold Dom.update_elem.
  induction d as [|[k x] d IH]; [reflexivity|].
  change (keys ((if (k =? n)%nat then {| nid := k; node := f x |}
                 else {| nid := k; node := x |})
                  :: List.map (fun e => if (nid e =? n)%nat
                                        then {| nid := nid e;
                                                node := f (node e) |}
                                        else e) d)
          = keys ({| nid := k; node := x |} :: d)).
  destruct (k =? n)%nat; simpl; rewrite IH; [|reflexivity].
  specialize (Hf x). simpl in Hf.
  destruct (f x), x; simpl in *; congruence.
Qed.

Lemma keys_filter (keep : Elem -> bool) (keepk : string * bool -> bool)
    (d : DOM) :
  (forall e, Dom.bubble_of e = None -> keep e = true) ->
  (forall k b, keep {| nid := k; node := NBubble b |}
               = keepk (data_message_id b, dummy_message b)) ->
  keys (List.filter keep d) = List.filter keepk (keys d).
Proof.
  intros Hn Hb. induction d as [|[k x] d IH]; [reflexivity|]. simpl.
  destruct x as [b|sid h|c].
  - rewrite Hb. simpl.
    destruct (keepk (data_message_id b, dummy_message b)); simpl;
      now rewrite IH.
  - rewrite (Hn {| nid := k; node := NSteps sid h |} eq_refl). simpl.
    exact IH.
  - rewrite (Hn {| nid := k; node := NCritique c |} eq_refl). simpl.
    exact IH.
Qed.

Lemma keys_removePlaceholders (d : DOM) :
  keys (removePlaceholders d) = List.filter (fun p => negb (snd p)) (keys d).
Proof.
  unfold removePlaceholders.
  rewrite (keys_filter _ (fun _ => true)).
  - rewrite (keys_filter _ (fun p => negb (snd p))).
    + induction (List.filter _ (keys d)) as [|p l IH]; [reflexivity|].
      simpl. now rewrite IH.
    + intros [k [b|sid h|c]]; simpl; try discriminate; reflexivity.
    + reflexivity.
  - intros [k [b|sid h|c]]; simpl; try discriminate; reflexivity.
  - intros k b. simpl. now rewrite andb_false_r.
Qed.

Lemma querySelector_keys (id : string) (d : DOM) :
  present (Dom.querySelector id d)
  = existsb (fun p => (fst p =? id)%string) (keys d).
Proof.
  unfold Dom.querySelector. induction d as [|[k x] d IH]; [reflexivity|].
  simpl. unfold Dom.has_message_id at 1. simpl.
  destruct x as [b|sid h|c]; simpl; try exact IH.
  destruct (data_message_id b =? id)%string; [reflexivity|exact IH].
Qed.

Lemma keys_addMessageToChat (id : string) (text : Text) (role : Role)
    (sc : ScoreField) (dummy : bool) (pid : option string)
    (out : option nat) (sa : bool) (fresh : nat) (d : DOM) :
  keys (addMessageToChat id text role sc dummy pid out sa fresh d)
  = if existsb (fun p => (fst p =? id)%string) (keys d) then keys d
    else keys d ++ [ (id, dummy) ].
Proof.
  rewrite <- querySelector_keys. unfold addMessageToChat.
  destruct (Dom.querySelector id d); simpl.
  - destruct (is_undefined sc); [reflexivity|].
    now apply keys_update_message.
  - now rewrite keys_app.
Qed.

Lemma keys_inv_filter (keepk : string * bool -> bool)
    (ks : list (string * bool)) :
  keys_inv ks -> keys_inv (List.filter keepk ks).
Proof.
  intros [Hn Hf]. split.
  - induction ks as [|p ks IH]; [constructor|]. simpl in *.
    inversion Hn as [|? ? Hnot Hn']; subst. inversion Hf; subst.
    destruct (keepk p); simpl; [|now apply IH].
    constructor; [|now apply IH].
    intros Hin. apply Hnot. apply list_elem_of_In.
    apply list_elem_of_In, in_map_iff in Hin as (q & Hq & Hin).
    apply filter_In in Hin as [Hin _]. apply in_map_iff. eauto.
  - apply Forall_forall. intros p Hin.
    apply list_elem_of_In, filter_In in Hin as [Hin _].
    rewrite Forall_forall in Hf. now apply Hf, list_elem_of_In.
Qed.

Lemma keys_inv_add (id : string) (dummy : bool) (ks : list (string * bool)) :
  (dummy = true -> String.prefix "temp-" id = true) ->
  keys_inv ks ->
  keys_inv (if existsb (fun p => (fst p =? id)%string) ks then ks
            else ks ++ [ (id, dummy) ]).
Proof.
  intros Hd [Hn Hf].
  destruct (existsb _ ks) eqn:E; [now split|]. split.
  - rewrite List.map_app. simpl. apply NoDup_app. repeat split.
    + exact Hn.
    + intros x Hin Hx. apply list_elem_of_In in Hin, Hx.
      destruct Hx as [<-|[]].
      apply in_map_iff in Hin as (q & Hq & Hin).
      assert (existsb (fun p => (fst p =? id)%string) ks = true); [|congruence].
      apply existsb_exists. exists q. split; [exact Hin|].
      now apply String.eqb_eq.
    + apply NoDup_singleton.
  - apply Forall_app. split; [exact Hf|]. constructor; [exact Hd|constructor].
Qed.

Lemma keys_inv_addMessageToChat (id : string) (text : Text) (role : Role)
    (sc : ScoreField) (dummy : bool) (pid : option string)
    (out : option nat) (sa : bool) (fresh : nat) (d : DOM) :
  (dummy = true -> String.prefix "temp-" id = true) ->
  keys_inv (keys d) ->
  keys_inv (keys (addMessageToChat id text role sc dummy pid out sa fresh d)).
Proof.
  intros Hd H. rewrite keys_addMessageToChat. now apply keys_inv_add.
Qed.

Lemma keys_inv_removePlaceholders (d : DOM) :
  keys_inv (keys d) -> keys_inv (keys (removePlaceholders d)).
Proof.
  intros H. rewrite keys_removePlaceholders. now apply keys_inv_filter.
Qed.

Lemma keys_set_html (n : nat) (h : list Block) (d : DOM) :
  keys (Dom.update_elem n (set_html h) d) = keys d.
Proof. apply keys_update_elem. now intros [b|sid old|c]. Qed.

Lemma keys_append_html (n : nat) (h : list Block) (d : DOM) :
  keys (Dom.update_elem n (append_html h) d) = keys d.
Proof. apply keys_update_elem. now intros [b|sid old|c]. Qed.

Lemma keys_mark_displayed (n : nat) (d : DOM) :
  keys (Dom.update_elem n mark_displayed d) = keys d.
Proof. apply keys_update_elem. now intros [b|sid old|c]. Qed.

Lemma keys_renderSteps (sd : StatusData) (sl : StatusLoop) (d : DOM) :
  keys (renderSteps sd sl d) = keys d.
Proof.
  unfold renderSteps. destruct (shouldRender sd sl); [|reflexivity].
  apply keys_set_html.
Qed.

Lemma keys_displayCritiqueAndRegeneration (m : MsgData) (fresh : nat)
    (d : DOM) :
  keys (displayCritiqueAndRegeneration m fresh d) = keys d.
Proof.
  unfold displayCritiqueAndRegeneration.
  repeat case_match; try reflexivity.
  rewrite keys_app. simpl. apply app_nil_r.
Qed.

Lemma keys_criticDom (m : MsgData) (sd : SearchData) (cl : CriticLoop)
    (d : DOM) :
  keys (criticDom m sd cl d) = keys d.
Proof.
  unfold criticDom, updateCriticBadge.
  destruct (truthy_score (md_critic_score m));
    rewrite ?keys_update_message by (now intros b);
    destruct (shouldDisplay sd cl); now rewrite ?keys_append_html.
Qed.

Lemma keys_refreshOne (so : ScoreObj) (w : World) :
  keys (dom (fst (refreshOne so w))) = keys (dom w).
Proof.
  assert (He : forall c b,
             data_message_id (Dom.ensure_badge c b) = data_message_id b
             /\ dummy_message (Dom.ensure_badge c b) = dummy_message b)
    by now intros c b.
  assert (Hs : forall t c b,
             data_message_id (Dom.set_badge_text t c b) = data_message_id b
             /\ dummy_message (Dom.set_badge_text t c b) = dummy_message b)
    by now intros t c b.
  unfold refreshOne. repeat case_match; simpl;
    rewrite ?(keys_update_message _ _ _ (Hs _ _)),
      ?(keys_update_message _ _ _ (He _)); reflexivity.
Qed.

Lemma keys_refreshEach (l : list ScoreObj) (w : World) :
  keys (dom (refreshEach l w)) = keys (dom w).
Proof.
  revert w. induction l as [|so l IH]; intros w; [reflexivity|].
  simpl. pose proof (keys_refreshOne so w) as H.
  destruct (refreshOne so w) as [w1 threw]. simpl in H.
  destruct threw; [exact H|]. now rewrite IH.
Qed.

(** Every event keeps the identifiers of the page distinct and the
    placeholders recognisable. *)
Lemma step_keys_inv (w : World) (e : Event) :
  keys_inv (keys (dom w)) -> keys_inv (keys (dom (step w e))).
Proof.
  intros H.
  destruct e as [cid|text| |t0 n1 n2|t0 r|t0|t0 r|t0|t0|t0 r|t0|r|k r]; simpl;
    try exact H.
  - unfold handleSend. case_match; simpl; [exact H|].
    now repeat apply keys_inv_addMessageToChat.
  - unfold sendToServer. repeat case_match; simpl; try exact H.
    now repeat apply keys_inv_addMessageToChat.
  - unfold submitSettled, submitFailed, acceptedDom.
    repeat case_match; simpl; try exact H;
      rewrite ?keys_app; simpl; rewrite ?app_nil_r;
      try apply keys_inv_addMessageToChat; try discriminate;
      now apply keys_inv_removePlaceholders.
  - unfold statusTick. repeat case_match; simpl; exact H.
  - unfold statusSettled, statusDom. repeat case_match; simpl; try exact H;
      rewrite ?keys_renderSteps; try exact H.
    apply keys_inv_addMessageToChat; [discriminate|].
    apply keys_inv_removePlaceholders. now rewrite keys_renderSteps.
  - unfold statusTimeout. repeat case_match; simpl; exact H.
  - unfold criticTick. repeat case_match; simpl; exact H.
  - unfold criticSettled. repeat case_match; simpl; try exact H.
    now rewrite keys_criticDom.
  - unfold criticTimeout. repeat case_match; simpl; exact H.
  - unfold scoresSettled. repeat case_match; try exact H.
    now rewrite keys_refreshEach.
  - unfold detailSettled. repeat case_match; simpl; try exact H;
      now rewrite keys_mark_displayed, keys_displayCritiqueAndRegeneration.
Qed.

Lemma reachable_keys_inv (evs : list Event) :
  keys_inv (keys (dom (run evs initial))).
Proof.
  induction evs as [|e evs IH] using rev_ind.
  - split; constructor.
  - rewrite run_snoc. now apply step_keys_inv.
Qed.

(** ** The synthetic error message *)

Lemma removePlaceholders_filter (d : DOM) :
  removePlaceholders d
  = List.filter (fun e => negb (Dom.has_class_dummy e)) d.
Proof.
  unfold removePlaceholders.
  induction (List.filter (fun e => negb (Dom.has_class_dummy e)) d)
    as [|[k x] l IH]; [reflexivity|].
  simpl. unfold Dom.has_class_assistant at 1, Dom.has_data_message_id at 1.
  simpl. destruct x as [b|sid h|c]; simpl; rewrite ?andb_false_r; simpl;
    now rewrite IH.
Qed.

Lemma error_is_not_temp (d : DOM) (e : Elem) :
  keys_inv (keys d) -> In e d -> Dom.has_message_id "error" e = true ->
  Dom.has_class_dummy e = false.
Proof.
  intros [_ Hf] Hin He. induction d as [|e0 d IH]; [destruct Hin|].
  simpl in Hf. destruct Hin as [->|Hin].
  - unfold Dom.has_message_id, Dom.has_class_dummy in *.
    destruct (node e) as [b|sid h|c]; try discriminate.
    apply Forall_cons in Hf as [Hb _]. simpl in Hb.
    apply String.eqb_eq in He. rewrite He in Hb.
    destruct (dummy_message b); [|reflexivity]. now specialize (Hb eq_refl).
  - apply IH; [|exact Hin].
    destruct (node e0); [now apply Forall_cons in Hf as [_ Hf]|exact Hf..].
Qed.

Lemma error_bubbles_survive_purge (d : DOM) :
  keys_inv (keys d) ->
  List.filter (Dom.has_message_id "error") (removePlaceholders d)
  = List.filter (Dom.has_message_id "error") d.
Proof.
  intros Hinv. rewrite removePlaceholders_filter.
  assert (H : forall e, In e d -> Dom.has_message_id "error" e = true ->
                        Dom.has_class_dummy e = false)
    by (intros e; now apply error_is_not_temp).
  clear Hinv. induction d as [|e d IH]; [reflexivity|]. simpl.
  destruct (Dom.has_message_id "error" e) eqn:He.
  - rewrite (H e (or_introl eq_refl) He). simpl. rewrite He.
    f_equal. apply IH. intros e' Hin. apply H. now right.
  - destruct (negb (Dom.has_class_dummy e)); simpl; rewrite ?He;
      apply IH; intros e' Hin; apply H; now right.
Qed.

Lemma message_filter_hd (id : string) (d : DOM) :
  Dom.message id d
  = match List.filter (Dom.has_message_id id) d with
    | e :: _ => Dom.bubble_of e
    | [] => None
    end.
Proof.
  induction d as [|e d IH]; [reflexivity|].
  rewrite message_cons. simpl.
  destruct (Dom.has_message_id id e); [reflexivity|exact IH].
Qed.

Lemma unique_bubble (id : string) (d : DOM) :
  keys_inv (keys d) ->
  length (List.filter (Dom.has_message_id id) d) <= 1.
Proof.
  intros [Hn _].
  assert (Hin : forall d', In id (List.map fst (keys d'))
                           \/ List.filter (Dom.has_message_id id) d' = []).
  { induction d' as [|[k x] d' IH]; [now right|]. simpl.
    unfold Dom.has_message_id at 1. simpl.
    destruct x as [b|sid h|c]; simpl; try exact IH.
    destruct (String.eqb_spec (data_message_id b) id) as [->|Hne];
      [now left; left|].
    destruct IH as [IH|IH]; [left; now right|now right]. }
  induction d as [|[k x] d IH]; [simpl; lia|].
  cbn [List.filter]. unfold Dom.has_message_id at 1. cbn [node].
  destruct x as [b|sid h|c]; cbn [keys node List.map] in Hn;
    try now apply IH.
  apply NoDup_cons in Hn as [Hnot Hn]. cbn [fst] in Hnot.
  destruct (String.eqb_spec (data_message_id b) id) as [E|Hne];
    [|now apply IH].
  rewrite E in Hnot. destruct (Hin d) as [H|H].
  - exfalso. now apply Hnot, list_elem_of_In.
  - rewrite H. simpl. lia.
Qed.

Lemma addMessageToChat_existing (id : string) (text : Text) (role : Role)
    (dummy : bool) (pid : option string) (out : option nat) (sa : bool)
    (fresh : nat) (d : DOM) (b : Bubble) :
  Dom.message id d = Some b ->
  addMessageToChat id text role ScoreUndefined dummy pid out sa fresh d = d.
Proof.
  unfold addMessageToChat, Dom.message.
  now destruct (Dom.querySelector id d).
Qed.

(** C8: a session never shows more than one bubble with the identifier
    [error]; and once it shows one, a further failing submission
    ([fetch] rejected, or a body with [error]) leaves that bubble as it
    is and adds no bubble to the page. *)
Theorem at_most_one_error_bubble (evs : list Event) (t : nat)
    (r : option SubmitData) (b : Bubble) :
  submit_fails r = true ->
  Dom.message "error" (dom (run evs initial)) = Some b ->
  (forall evs',
     length (List.filter (Dom.has_message_id "error")
               (dom (run evs' initial))) <= 1)
  /\ List.filter (Dom.has_message_id "error")
       (dom (step (run evs initial) (EvSubmitSettled t r)))
     = List.filter (Dom.has_message_id "error") (dom (run evs initial))
  /\ Dom.message "error" (dom (step (run evs initial) (EvSubmitSettled t r)))
     = Some b
  /\ length (keys (dom (step (run evs initial) (EvSubmitSettled t r))))
     <= length (keys (dom (run evs initial))).
Proof.
  intros Hr Hb. split.
  { intros evs'. apply unique_bubble, reachable_keys_inv. }
  pose proof (reachable_keys_inv evs) as Hinv.
  set (w := run evs initial) in *.
  assert (Hp : Dom.message "error" (removePlaceholders (dom w)) = Some b).
  { rewrite message_filter_hd, error_bubbles_survive_purge by exact Hinv.
    now rewrite <- message_filter_hd. }
  assert (Hd : dom (step w (EvSubmitSettled t r)) = dom w
               \/ dom (step w (EvSubmitSettled t r))
                  = removePlaceholders (dom w)).
  { simpl. unfold submitSettled.
    destruct (turns w !! t) as [tn|]; [|now left].
    destruct (t_phase tn); try now left.
    right. unfold submitFailed.
    destruct r as [data|]; simpl in *.
    - rewrite Hr. simpl. now apply addMessageToChat_existing with b.
    - now apply addMessageToChat_existing with b. }
  destruct Hd as [-> | ->].
  - repeat split; [exact Hb|lia].
  - rewrite error_bubbles_survive_purge by exact Hinv.
    repeat split; [exact Hp|].
    rewrite keys_removePlaceholders. apply List.filter_length_le.
Qed.

Lemma at_most_one_error_bubble_witness :
  bubble_text first_error_bubble
  = "Error: Failed to get response from server."
  /\ length (List.filter (Dom.has_message_id "error")
               (dom (run (twice_failing ++ [ EvSubmitSettled 1 (Some busy) ])
                       initial))) <= 1
  /\ Dom.message "error"
       (dom (step (run twice_failing initial) (EvSubmitSettled 1 (Some busy))))
     = Some first_error_bubble.
Proof.
  destruct (at_most_one_error_bubble twice_failing 1 (Some busy)
              first_error_bubble eq_refl
              ltac:(vm_compute; reflexivity)) as (H1 & _ & H3 & _).
  split; [reflexivity|]. split; [apply H1|exact H3].
Defined.

(** ** Placeholders and their purge *)

Lemma guarded_app (p : bool) (cs cs' : list Call) :
  guarded p (cs ++ cs')
  = guarded p cs && guarded (ends_with_purge p cs) cs'.
Proof.
  revert p. induction cs as [|c cs IH]; intros p; [reflexivity|].
  simpl. rewrite IH. now rewrite andb_assoc.
Qed.

Lemma no_dummy_after_purge_app (p : bool) (cs cs' : list Call) :
  no_dummy_after_purge p (cs ++ cs')
  = no_dummy_after_purge p cs
    && no_dummy_after_purge (p || existsb is_purge cs) cs'.
Proof.
  revert p. induction cs as [|c cs IH]; intros p.
  - simpl. now rewrite orb_false_r.
  - simpl. rewrite IH. now rewrite andb_assoc, orb_assoc.
Qed.

Lemma existsb_purge_count (cs : list Call) :
  length (List.filter is_purge cs) = 0 -> existsb is_purge cs = false.
Proof.
  induction cs as [|c cs IH]; [reflexivity|]. simpl.
  destruct (is_purge c); simpl; [discriminate|exact IH].
Qed.

Lemma guarded_spec (p : bool) (cs pre post : list Call) (id : string) :
  guarded p cs = true ->
  cs = pre ++ CAddMessage id false :: post ->
  (pre = [] /\ p = true) \/ exists pre', pre = pre' ++ [ CRemovePlaceholders ].
Proof.
  revert p cs. induction pre as [|c pre IH]; intros p cs Hg ->.
  - simpl in Hg. apply andb_prop in Hg as [Hp _]. now left.
  - right. simpl in Hg. apply andb_prop in Hg as [_ Hg].
    destruct (IH _ _ Hg eq_refl) as [[-> Hc]|(pre' & ->)].
    + exists []. destruct c; try discriminate. reflexivity.
    + now exists (c :: pre').
Qed.

Lemma no_dummy_after_purge_spec (p : bool) (cs pre post : list Call)
    (id : string) :
  no_dummy_after_purge p cs = true ->
  cs = pre ++ CAddMessage id true :: post ->
  p = false /\ List.filter is_purge pre = [].
Proof.
  revert p cs. induction pre as [|c pre IH]; intros p cs Hg ->.
  - simpl in Hg. apply andb_prop in Hg as [Hp _].
    now destruct p.
  - simpl in Hg. apply andb_prop in Hg as [_ Hg].
    destruct (IH _ _ Hg eq_refl) as [Hp Hf].
    apply orb_false_elim in Hp as [-> Hc]. split; [reflexivity|].
    simpl. now rewrite Hc.
Qed.

Lemma turn_succ_purge_inv (obs : option StatusData) (tn tn' : Turn) :
  turn_succ obs tn tn' -> purge_inv tn -> purge_inv tn'.
Proof.
  unfold purge_inv, purges_expected.
  destruct 1 as [tn|tn id1 id2 Hp|tn Hp|tn data n Hp|tn sl Hs Hp|tn sl Hs
                |tn sl sd Hs|tn cl Hc Hp|tn cl Hc|tn cl m sd Hc];
    intros (Hg & Hd & Hn & Hph); try rewrite Hp in Hn;
    try (assert (Hset : t_phase tn = Settled) by (apply Hph; congruence);
         rewrite Hset in * );
    try rewrite Hs in *.
  - auto.
  - simpl. rewrite guarded_app, no_dummy_after_purge_app, List.filter_app,
      length_app, Hg, Hd, Hn, (existsb_purge_count _ Hn). simpl.
    repeat split; congruence.
  - simpl. rewrite guarded_app, no_dummy_after_purge_app, List.filter_app,
      length_app, Hg, Hd, Hn. simpl. repeat split; congruence.
  - simpl. rewrite guarded_app, no_dummy_after_purge_app, List.filter_app,
      length_app, Hg, Hd, Hn.
    destruct (sd_user_message data) as [[uid uc]|];
      destruct (truthy_text (sd_message_id data)); simpl;
      repeat split; congruence.
  - simpl. rewrite guarded_app, no_dummy_after_purge_app, List.filter_app,
      length_app, Hg, Hd, Hn, Hset. simpl. repeat split; auto with lia.
  - simpl. rewrite guarded_app, no_dummy_after_purge_app, List.filter_app,
      length_app, Hg, Hd, Hn, Hset. simpl. repeat split; auto with lia.
  - unfold statusTurn, isFinal.
    destruct (isTerminal (status sd)), (finalResponseShown sl) eqn:Ef,
      (truthy_text (content sd)), (shouldRender sd sl); simpl;
      rewrite ?guarded_app, ?no_dummy_after_purge_app, ?List.filter_app,
        ?length_app, ?Hg, ?Hd, ?Hn, ?Ef, ?Hset; simpl;
      repeat split; auto with lia.
  - simpl. rewrite guarded_app, no_dummy_after_purge_app, List.filter_app,
      length_app, Hg, Hd, Hn. simpl. repeat split; auto with lia.
  - simpl. rewrite guarded_app, no_dummy_after_purge_app, List.filter_app,
      length_app, Hg, Hd, Hn. simpl. repeat split; auto with lia.
  - unfold criticTurn.
    destruct (shouldDisplay sd cl), (truthy_score (md_critic_score m)); simpl;
      rewrite ?guarded_app, ?no_dummy_after_purge_app, ?List.filter_app,
        ?length_app, ?Hg, ?Hd, ?Hn; simpl; repeat split; auto with lia.
Qed.

Lemma reachable_purge_inv (evs : list Event) (t : nat) (tn : Turn) :
  turns (run evs initial) !! t = Some tn -> purge_inv tn.
Proof.
  apply (reachable_turn_inv purge_inv).
  - intros text. repeat split. intros H. now destruct H.
  - apply turn_succ_purge_inv.
Qed.

Lemma placeholders_keys (d : DOM) :
  List.filter Dom.has_class_dummy d = []
  <-> forallb (fun p => negb (snd p)) (keys d) = true.
Proof.
  induction d as [|[k x] d IH]; [now split|]. simpl.
  unfold Dom.has_class_dummy at 1. simpl.
  destruct x as [b|sid h|c]; simpl; try exact IH.
  destruct (dummy_message b); simpl; [now split|exact IH].
Qed.

Lemma no_placeholder_after_purge (d : DOM) :
  forallb (fun p => negb (snd p)) (keys (removePlaceholders d)) = true.
Proof.
  rewrite keys_removePlaceholders. apply forallb_forall.
  intros p Hin. now apply filter_In in Hin as [_ Hin].
Qed.

Lemma no_placeholder_after_add (id : string) (text : Text) (role : Role)
    (sc : ScoreField) (pid : option string) (out : option nat) (sa : bool)
    (fresh : nat) (d : DOM) :
  forallb (fun p => negb (snd p)) (keys d) = true ->
  forallb (fun p => negb (snd p))
    (keys (addMessageToChat id text role sc false pid out sa fresh d)) = true.
Proof.
  intros H. rewrite keys_addMessageToChat.
  destruct (existsb _ (keys d)); [exact H|].
  rewrite forallb_app, H. reflexivity.
Qed.

Lemma real_calls_unchanged (w w' : World) (t0 : nat) (tn0 tn1 : Turn) :
  turns w !! t0 = Some tn0 ->
  turns w' = <[t0 := tn1]> (turns w) ->
  List.filter is_real_add (t_calls tn1)
  = List.filter is_real_add (t_calls tn0) ->
  forall t,
    List.filter is_real_add (calls t w') = List.filter is_real_add (calls t w).
Proof.
  intros H0 Hw Hc t. unfold calls. rewrite Hw.
  destruct (decide (t0 = t)) as [<-|Hne].
  - rewrite list_lookup_insert_eq by (eapply lookup_lt_Some, H0).
    now rewrite H0.
  - now rewrite list_lookup_insert_ne.
Qed.

Lemma real_calls_app (cs new : list Call) :
  List.filter is_real_add new = [] ->
  List.filter is_real_add (cs ++ new) = List.filter is_real_add cs.
Proof. intros H. now rewrite List.filter_app, H, app_nil_r. Qed.

(** A step in which some turn inserts a message that is not a placeholder
    leaves no placeholder on the page. *)
Lemma step_real_add_purged (w : World) (e : Event) :
  (forall t,
     List.filter is_real_add (calls t (step w e))
     = List.filter is_real_add (calls t w))
  \/ List.filter Dom.has_class_dummy (dom (step w e)) = [].
Proof.
  destruct e as [cid|text| |t0 n1 n2|t0 r|t0|t0 r|t0|t0|t0 r|t0|r|k r]; simpl.
  - now left.
  - now left.
  - left. intros t. unfold handleSend. case_match; [reflexivity|].
    unfold calls. simpl.
    destruct (turns w !! t) as [tn|] eqn:E.
    + now rewrite lookup_app_l, E by (eapply lookup_lt_Some, E).
    + apply lookup_ge_None in E. rewrite lookup_app_r by exact E.
      destruct (t - length (turns w)) as [|[|j]]; reflexivity.
  - unfold sendToServer. destruct (turns w !! t0) as [tn0|] eqn:E0;
      [|now left].
    destruct (t_phase tn0); try now left.
    left. eapply real_calls_unchanged; [exact E0|reflexivity|].
    now apply real_calls_app.
  - unfold submitSettled. destruct (turns w !! t0) as [tn0|] eqn:E0;
      [|now left].
    destruct (t_phase tn0); try now left.
    right. apply placeholders_keys.
    unfold submitFailed, acceptedDom.
    repeat case_match; simpl; rewrite ?keys_app; simpl; rewrite ?app_nil_r;
      try apply no_placeholder_after_add;
      apply no_placeholder_after_purge.
  - unfold statusTick. destruct (turns w !! t0) as [tn0|] eqn:E0;
      [|now left].
    destruct (t_status tn0) as [sl|]; [|now left].
    destruct (sl_polling sl); [|now left].
    left. eapply real_calls_unchanged; [exact E0|reflexivity|].
    now apply real_calls_app.
  - unfold statusSettled. destruct (turns w !! t0) as [tn0|] eqn:E0;
      [|now left].
    destruct (t_status tn0) as [sl|]; [|now left].
    destruct r as [| |sd]; [now left| |].
    + left. eapply real_calls_unchanged; [exact E0|reflexivity|].
      now apply real_calls_app.
    + destruct (isFinal sd sl) eqn:Ef.
      * right. apply placeholders_keys. simpl. unfold statusDom. rewrite Ef.
        apply no_placeholder_after_add, no_placeholder_after_purge.
      * left. eapply real_calls_unchanged; [exact E0|reflexivity|].
        unfold statusTurn. rewrite Ef. simpl. apply real_calls_app.
        now destruct (shouldRender sd sl).
  - unfold statusTimeout. destruct (turns w !! t0) as [tn0|] eqn:E0;
      [|now left].
    destruct (t_status tn0) as [sl|]; [|now left].
    left. eapply real_calls_unchanged; [exact E0|reflexivity|].
    now apply real_calls_app.
  - unfold criticTick. destruct (turns w !! t0) as [tn0|] eqn:E0;
      [|now left].
    destruct (t_critic tn0) as [cl|]; [|now left].
    destruct (cl_polling cl); [|now left].
    left. eapply real_calls_unchanged; [exact E0|reflexivity|].
    now apply real_calls_app.
  - unfold criticSettled. destruct (turns w !! t0) as [tn0|] eqn:E0;
      [|now left].
    destruct (t_critic tn0) as [cl|]; [|now left].
    destruct r as [| |m]; [now left| |].
    + left. eapply real_calls_unchanged; [exact E0|reflexivity|].
      now apply real_calls_app.
    + destruct (md_search_output m) as [| |sd]; try now left.
      left. eapply real_calls_unchanged; [exact E0|reflexivity|].
      unfold criticTurn. simpl. apply real_calls_app.
      now destruct (shouldDisplay sd cl), (truthy_score (md_critic_score m)).
  - unfold criticTimeout. destruct (turns w !! t0) as [tn0|] eqn:E0;
      [|now left].
    destruct (t_critic tn0) as [cl|]; [|now left].
    left. eapply real_calls_unchanged; [exact E0|reflexivity|].
    now apply real_calls_app.
  - left. intros t. unfold calls. now rewrite scoresSettled_turns.
  - left. intros t. unfold calls. now rewrite detailSettled_turns.
Qed.

(** C6 does not hold of the code: a turn that reaches its final response
    purges the placeholders twice, once when the submission settles and
    once more before the assistant message. *)
Lemma answered_turn_purges_twice :
  List.filter is_purge (calls 0 (run kyoto_answered initial))
  = [ CRemovePlaceholders; CRemovePlaceholders ].
Proof. vm_compute. reflexivity. Qed.

(** C6, as the code has it: in any run, a turn purges the placeholders at
    most twice; each of its insertions of a real or error message comes
    immediately after a purge, in the same synchronous step; it inserts no
    placeholder once it has purged; and a step in which it inserts a real
    or error message leaves no placeholder on the page. *)
Theorem placeholders_purged_before_each_resolution (evs : list Event)
    (t : nat) (tn : Turn) :
  turns (run evs initial) !! t = Some tn ->
  length (List.filter is_purge (t_calls tn)) <= 2
  /\ (forall pre id post,
        t_calls tn = pre ++ CAddMessage id false :: post ->
        exists pre', pre = pre' ++ [ CRemovePlaceholders ])
  /\ (forall pre id post,
        t_calls tn = pre ++ CAddMessage id true :: post ->
        List.filter is_purge pre = [])
  /\ (forall e,
        List.filter is_real_add (calls t (step (run evs initial) e))
        <> List.filter is_real_add (t_calls tn) ->
        List.filter Dom.has_class_dummy (dom (step (run evs initial) e)) = []).
Proof.
  intros Ht. destruct (reachable_purge_inv evs t tn Ht) as (Hg & Hd & Hn & _).
  repeat split.
  - rewrite Hn. unfold purges_expected. repeat case_match; lia.
  - intros pre id post E.
    destruct (guarded_spec _ _ _ _ _ Hg E) as [[_ H]|H]; [discriminate|exact H].
  - intros pre id post E.
    now destruct (no_dummy_after_purge_spec _ _ _ _ _ Hd E).
  - intros e Hne. destruct (step_real_add_purged (run evs initial) e) as [H|H];
      [|exact H].
    exfalso. apply Hne. rewrite H. unfold calls. now rewrite Ht.
Qed.

Lemma placeholders_purged_before_each_resolution_witness :
  length (List.filter is_purge (t_calls kyoto_polling_turn)) <= 2
  /\ List.filter Dom.has_class_dummy
       (dom (step (run kyoto_polling initial)
               (EvStatusSettled 0 (Ok kyoto_generated)))) = [].
Proof.
  destruct (placeholders_purged_before_each_resolution kyoto_polling 0
              kyoto_polling_turn ltac:(vm_compute; reflexivity))
    as (H1 & _ & _ & H4).
  split; [exact H1|]. apply H4. vm_compute. discriminate.
Defined.

(** ** The critique panel *)

Lemma displays_app (cs new : list Call) :
  List.filter is_display new = [] ->
  length (List.filter is_display (cs ++ new))
  = length (List.filter is_display cs).
Proof. intros H. now rewrite List.filter_app, H, app_nil_r. Qed.

Lemma turn_succ_critic_inv (obs : option StatusData) (tn tn' : Turn) :
  turn_succ obs tn tn' -> critic_inv tn -> critic_inv tn'.
Proof.
  unfold critic_inv.
  destruct 1 as [tn|tn id1 id2 Hp|tn Hp|tn data n Hp|tn sl Hs Hp|tn sl Hs
                |tn sl sd Hs|tn cl Hc Hp|tn cl Hc|tn cl m sd Hc];
    intros [Hph Hcr].
  - auto.
  - simpl. split; [congruence|]. rewrite displays_app by reflexivity.
    destruct (t_critic tn); [|exact Hcr].
    destruct Hcr as [(sl & Hs & _) _].
    rewrite Hph in Hp by congruence. discriminate.
  - simpl. split; [congruence|]. rewrite displays_app by reflexivity.
    destruct (t_critic tn); [|exact Hcr].
    destruct Hcr as [(sl & Hs & _) _].
    rewrite Hph in Hp by congruence. discriminate.
  - simpl. split; [reflexivity|].
    rewrite displays_app by now destruct (sd_user_message data) as [[? ?]|].
    destruct (t_critic tn); [|exact Hcr].
    destruct Hcr as [(sl & Hs & _) _].
    rewrite Hph in Hp by congruence. discriminate.
  - simpl. rewrite displays_app by reflexivity.
    split; [intros _; apply Hph; congruence|].
    destruct (t_critic tn); [|exact Hcr].
    destruct Hcr as [(sl0 & Hs0 & Hf) Hn]. split; [|exact Hn].
    exists sl. split; congruence.
  - simpl. rewrite displays_app by reflexivity.
    split; [intros _; apply Hph; congruence|].
    destruct (t_critic tn); [|exact Hcr].
    destruct Hcr as [(sl0 & Hs0 & Hf) Hn]. split; [|exact Hn].
    exists (statusStopped sl). split; [reflexivity|]. simpl. congruence.
  - assert (Hset : t_phase tn = Settled) by (apply Hph; congruence).
    unfold statusTurn. destruct (isFinal sd sl) eqn:Ef; simpl.
    + split; [auto|]. split; [eauto|].
      rewrite displays_app by now destruct (shouldRender sd sl).
      destruct (t_critic tn); [|exact Hcr].
      destruct Hcr as [(sl0 & Hs0 & Hf) _]. unfold isFinal in Ef.
      assert (sl0 = sl) by congruence. subst sl0. rewrite Hf in Ef.
      now rewrite andb_false_r in Ef.
    + rewrite displays_app by now destruct (shouldRender sd sl).
      split; [auto|]. destruct (t_critic tn); [|exact Hcr].
      destruct Hcr as [(sl0 & Hs0 & Hf) Hn]. split; [|exact Hn].
      eexists. split; [reflexivity|]. simpl. congruence.
  - simpl. rewrite displays_app by reflexivity. rewrite Hc in Hcr. auto.
  - simpl. rewrite displays_app by reflexivity. rewrite Hc in Hcr. auto.
  - rewrite Hc in Hcr. destruct Hcr as [Hsl Hn]. unfold criticTurn. simpl.
    split; [exact Hph|]. unfold shouldDisplay in *. revert Hn.
    destruct (hasCritique sd), (criticShown cl) eqn:Ec,
      (truthy_score (md_critic_score m)); simpl; intros Hn;
      rewrite ?List.filter_app, ?length_app, ?Hn; simpl;
      rewrite ?app_nil_r, ?Hn, ?Ec; auto.
Qed.

(** Within the critic loop the guard works: whatever the interleaving, the
    loop of a turn writes the critique into its steps container at most
    once. *)
Lemma critic_loop_displays_at_most_once (evs : list Event) (t : nat) :
  length (List.filter is_display (calls t (run evs initial))) <= 1.
Proof.
  unfold calls. destruct (turns (run evs initial) !! t) as [tn|] eqn:E;
    [|simpl; lia].
  assert (H : critic_inv tn).
  { revert E. apply (reachable_turn_inv critic_inv).
    - intros text. split; [intros H; now destruct H|reflexivity].
    - apply turn_succ_critic_inv. }
  destruct H as [_ H]. destruct (t_critic tn) as [cl|].
  - destruct H as [_ ->]. destruct (criticShown cl); lia.
  - lia.
Qed.

(** C1 fails on the code.  The critic loop guards its display with its
    local variable [criticShown] and the score refresher with the
    attribute [data-critique-displayed]; neither reads the flag of the
    other.  When both receive the critique of the answered message, the
    page shows it twice: once in the steps container and once in a
    critique container.  The refresher moreover reads its flag before the
    detail request and sets it in the callback of that request: two rounds
    that overlap one pending request both pass the test and append two
    containers. *)
Theorem critique_panel_displayed_twice :
  (length (List.filter (Dom.has_message_id "m1")
             (dom (run kyoto_both_loops initial))) = 1
   /\ existsb Dom.is_panel_block
        <$> steps_html 5 (dom (run kyoto_both_loops initial)) = Some true
   /\ length (List.filter is_critique_container
                (dom (run kyoto_both_loops initial))) = 1)
  /\ length (List.filter is_critique_container
               (dom (run kyoto_two_rounds initial))) = 2.
Proof. vm_compute. repeat split. Qed.

(** * Further properties of the page functions *)

(** ** [addMessageToChat] as an upsert *)

Lemma has_message_id_bubble (id : string) (e : Elem) :
  Dom.has_message_id id e = true ->
  exists b, node e = NBubble b /\ data_message_id b = id.
Proof.
  unfold Dom.has_message_id. destruct (node e) as [b|sid h|c];
    try discriminate.
  intros H. apply String.eqb_eq in H. eauto.
Qed.

Lemma message_app_last (id : string) (d : DOM) (e : Elem) :
  Dom.message id (d ++ [ e ])
  = match Dom.message id d with
    | Some b => Some b
    | None => Dom.message id [ e ]
    end.
Proof.
  induction d as [|e0 d IH]; [reflexivity|].
  simpl. rewrite !(message_cons id e0).
  destruct (Dom.has_message_id id e0) eqn:E; [|exact IH].
  destruct (has_message_id_bubble _ _ E) as (b & Hb & _).
  unfold Dom.bubble_of. now rewrite Hb.
Qed.

Lemma querySelector_message_None (id : string) (d : DOM) :
  Dom.message id d = None -> Dom.querySelector id d = None.
Proof.
  unfold Dom.message. destruct (Dom.querySelector id d) as [e|] eqn:E;
    [|reflexivity].
  apply find_some in E as [_ E].
  destruct (has_message_id_bubble _ _ E) as (b & Hb & _).
  unfold Dom.bubble_of. rewrite Hb. discriminate.
Qed.

(** X1: for an identifier that is not on the page, [addMessageToChat]
    appends one element, a later lookup of that identifier finds the new
    bubble with the text, role and placeholder mark that were passed, and
    the lookup of every other identifier is as before. *)
Theorem addMessageToChat_insert_lookup (id id' : string)
    (text : Text) (role : Role)
    (sc : ScoreField) (dummy : bool) (pid : option string)
    (out : option nat) (sa : bool) (fresh : nat) (d : DOM) :
  Dom.message id d = None ->
  Dom.message id'
    (addMessageToChat id text role sc dummy pid out sa fresh d)
  = (if (id =? id')%string
     then Some (newBubble id text role sc dummy pid out sa)
     else Dom.message id' d)
  /\ length (addMessageToChat id text role sc dummy pid out sa fresh d)
     = S (length d).
Proof.
  intros Hn. unfold addMessageToChat.
  rewrite (querySelector_message_None _ _ Hn). split.
  - rewrite message_app_last, message_cons.
    unfold Dom.has_message_id, Dom.bubble_of, newBubble. simpl.
    destruct (String.eqb_spec id id') as [<-|Hne].
    + now rewrite Hn.
    + now destruct (Dom.message id' d).
  - rewrite length_app. simpl. lia.
Qed.

Lemma addMessageToChat_insert_lookup_witness :
  Dom.message "u1"
    (addMessageToChat "u1" "Plan a trip to Kyoto" User ScoreUndefined false
       None None false 7 two_outputs)
  = Some (newBubble "u1" "Plan a trip to Kyoto" User ScoreUndefined false
            None None false)
  /\ length (addMessageToChat "u1" "Plan a trip to Kyoto" User ScoreUndefined
               false None None false 7 two_outputs) = 3.
Proof.
  exact (addMessageToChat_insert_lookup "u1" "u1" "Plan a trip to Kyoto" User
           ScoreUndefined false None None false 7 two_outputs eq_refl).
Defined.

Lemma length_update_message (id : string) (f : Bubble -> Bubble) (d : DOM) :
  length (Dom.update_message id f d) = length d.
Proof.
  induction d as [|[k x] d IH]; [reflexivity|]. simpl.
  destruct x as [b|sid h|c]; simpl; try now rewrite IH.
  destruct (data_message_id b =? id)%string; simpl; now rewrite ?IH.
Qed.

(** X2: for an identifier that is already on the page, [addMessageToChat]
    adds nothing and never rewrites the bubble: its text, its role and its
    placeholder mark stay, whatever was passed; only the badge is
    overwritten, and only when a score was passed. *)
Theorem addMessageToChat_existing_keeps_bubble (id : string) (text : Text)
    (role : Role) (sc : ScoreField) (dummy : bool) (pid : option string)
    (out : option nat) (sa : bool) (fresh : nat) (d : DOM) (b : Bubble) :
  Dom.message id d = Some b ->
  Dom.message id (addMessageToChat id text role sc dummy pid out sa fresh d)
  = Some (if is_undefined sc then b
          else Dom.set_badge_text (score_text sc) "bg-red-500" b)
  /\ length (addMessageToChat id text role sc dummy pid out sa fresh d)
     = length d.
Proof.
  intros Hb. unfold addMessageToChat.
  assert (Hq : exists e, Dom.querySelector id d = Some e).
  { unfold Dom.message in Hb. destruct (Dom.querySelector id d); eauto.
    discriminate. }
  destruct Hq as [e ->]. destruct (is_undefined sc); [now split|].
  rewrite length_update_message, message_update_message by reflexivity.
  now rewrite String.eqb_refl, Hb.
Qed.

Lemma addMessageToChat_existing_keeps_bubble_witness :
  (bubble_text
     <$> Dom.message "a1"
           (addMessageToChat "a1" "Another text" User (ScoreNum (8 # 1)) true
              None None false 7 two_outputs))
  = Some (text_of "First answer")
  /\ length (addMessageToChat "a1" "Another text" User (ScoreNum (8 # 1))
               true None None false 7 two_outputs) = 2.
Proof.
  destruct (addMessageToChat_existing_keeps_bubble "a1" "Another text" User
              (ScoreNum (8 # 1)) true None None false 7 two_outputs _
              eq_refl) as [H1 H2].
  split; [now rewrite H1|exact H2].
Defined.

(** ** [removePlaceholders] and [removeDummyMessages] *)

(** X3: [removePlaceholders] removes exactly what [removeDummyMessages]
    removes, the placeholder bubbles: its second selector matches nothing,
    since every bubble carries an identifier and no other element is an
    assistant message.  What is left contains no placeholder, and a second
    purge changes nothing. *)
Theorem removePlaceholders_removes_exactly_dummies (d : DOM) :
  removePlaceholders d = removeDummyMessages d
  /\ List.filter Dom.has_class_dummy (removePlaceholders d) = []
  /\ removePlaceholders (removePlaceholders d) = removePlaceholders d.
Proof.
  rewrite !removePlaceholders_filter. unfold removeDummyMessages.
  split; [reflexivity|]. split.
  - induction d as [|e d IH]; [reflexivity|]. simpl.
    destruct (Dom.has_class_dummy e) eqn:E; simpl; rewrite ?E; exact IH.
  - induction d as [|e d IH]; [reflexivity|]. simpl.
    destruct (Dom.has_class_dummy e) eqn:E; simpl; rewrite ?E; simpl;
      now rewrite ?IH.
Qed.

(** ** [updateCriticBadge] *)

Lemma update_message_absent (id : string) (f : Bubble -> Bubble) (d : DOM) :
  Dom.message id d = None -> Dom.update_message id f d = d.
Proof.
  induction d as [|[k x] d IH]; [reflexivity|]. rewrite message_cons.
  unfold Dom.has_message_id, Dom.bubble_of. simpl.
  destruct x as [b|sid h|c]; simpl; try (intros H; now rewrite IH).
  destruct (data_message_id b =? id)%string; [discriminate|].
  intros H. now rewrite IH.
Qed.

(** X4: [updateCriticBadge] for a message that is not on the page leaves
    the page as it is. *)
Theorem updateCriticBadge_missing_message (id : string) (q : Q) (d : DOM) :
  Dom.message id d = None -> updateCriticBadge id q d = d.
Proof. apply update_message_absent. Qed.

Lemma updateCriticBadge_missing_message_witness :
  updateCriticBadge "m9" (17 # 2) two_outputs = two_outputs.
Proof.
  exact (updateCriticBadge_missing_message "m9" (17 # 2) two_outputs eq_refl).
Defined.

Lemma update_message_twice (id : string) (f g : Bubble -> Bubble) (d : DOM) :
  (forall b, data_message_id (g b) = data_message_id b) ->
  Dom.update_message id f (Dom.update_message id g d)
  = Dom.update_message id (fun b => f (g b)) d.
Proof.
  intros Hg. induction d as [|[k x] d IH]; [reflexivity|]. simpl.
  destruct x as [b|sid h|c]; simpl; try now rewrite IH.
  destruct (data_message_id b =? id)%string eqn:E; simpl.
  - now rewrite Hg, E.
  - now rewrite E, IH.
Qed.

Lemma update_message_ext (id : string) (f g : Bubble -> Bubble) (d : DOM) :
  (forall b, f b = g b) ->
  Dom.update_message id f d = Dom.update_message id g d.
Proof.
  intros H. induction d as [|[k x] d IH]; [reflexivity|]. simpl.
  destruct x as [b|sid h|c]; simpl; try now rewrite IH.
  destruct (data_message_id b =? id)%string; now rewrite ?H, ?IH.
Qed.

(** X5: writing the same score twice is the same as writing it once, and
    [updateCriticBadge] never changes the number of elements of the
    page. *)
Theorem updateCriticBadge_idempotent (id : string) (q : Q) (d : DOM) :
  updateCriticBadge id q (updateCriticBadge id q d) = updateCriticBadge id q d
  /\ length (updateCriticBadge id q d) = length d.
Proof.
  unfold updateCriticBadge. split; [|apply length_update_message].
  rewrite update_message_twice by reflexivity.
  apply update_message_ext. intros b. unfold Dom.set_badge_text. simpl.
  now destruct (critic_circle b).
Qed.

(** ** The score refresher *)

Lemma refreshOne_absent (so : ScoreObj) (w : World) :
  Dom.message (so_id so) (dom w) = None -> refreshOne so w = (w, false).
Proof.
  intros H. unfold refreshOne.
  now rewrite (querySelector_message_None _ _ H).
Qed.

(** X6: a score round whose identifiers are all unknown to the page
    changes nothing, not even when an entry lacks its score. *)
Theorem scoresSettled_unknown_messages (l : list ScoreObj) (w : World) :
  Forall (fun so => Dom.message (so_id so) (dom w) = None) l ->
  scoresSettled (Some (Some l)) w = w.
Proof.
  intros H. unfold scoresSettled.
  destruct (truthy_text (currentChatId w)); [|reflexivity].
  induction H as [|so l Hso _ IH]; [reflexivity|].
  simpl. now rewrite (refreshOne_absent _ _ Hso).
Qed.

Lemma scoresSettled_unknown_messages_witness :
  scoresSettled (Some (Some stray_scores)) kyoto_watching_world
  = kyoto_watching_world.
Proof.
  apply (scoresSettled_unknown_messages stray_scores kyoto_watching_world).
  repeat constructor.
Defined.

Lemma querySelector_update_message (id : string) (g : Bubble -> Bubble)
    (d : DOM) (e : Elem) (b : Bubble) :
  (forall x, data_message_id (g x) = data_message_id x) ->
  Dom.querySelector id d = Some e -> node e = NBubble b ->
  Dom.querySelector id (Dom.update_message id g d)
  = Some {| nid := nid e; node := NBubble (g b) |}.
Proof.
  intros Hg. unfold Dom.querySelector.
  induction d as [|[k x] d IH]; [discriminate|]. simpl.
  unfold Dom.has_message_id at 1. simpl.
  destruct x as [b0|sid h|c]; simpl.
  - destruct (data_message_id b0 =? id)%string eqn:E; simpl.
    + intros H Hn. injection H as <-. simpl in Hn. injection Hn as <-.
      unfold Dom.has_message_id. simpl. now rewrite Hg, E.
    + unfold Dom.has_message_id at 2. simpl. rewrite E. exact IH.
  - exact IH.
  - exact IH.
Qed.

Lemma update_message_fix (id : string) (f : Bubble -> Bubble) (d : DOM)
    (e : Elem) (b : Bubble) :
  Dom.querySelector id d = Some e -> node e = NBubble b -> f b = b ->
  Dom.update_message id f d = d.
Proof.
  unfold Dom.querySelector.
  induction d as [|[k x] d IH]; [discriminate|]. simpl.
  unfold Dom.has_message_id at 1. simpl.
  destruct x as [b0|sid h|c]; simpl.
  - destruct (data_message_id b0 =? id)%string.
    + intros H Hn Hf. injection H as <-. simpl in Hn. injection Hn as <-.
      now rewrite Hf.
    + intros H Hn Hf. now rewrite IH.
  - intros H Hn Hf. now rewrite IH.
  - intros H Hn Hf. now rewrite IH.
Qed.

(** A bubble that already shows the score is left alone, and so is
    everything else. *)
Lemma refreshOne_same_score (so : ScoreObj) (w : World) (e : Elem)
    (b : Bubble) (c : Badge) (q : Q) :
  so_critic_score so = ScoreNum q ->
  Dom.querySelector (so_id so) (dom w) = Some e ->
  node e = NBubble b ->
  critic_circle b = Some c ->
  badge_text c = JsNum.toString q ->
  refreshOne so w = (w, false).
Proof.
  intros Hs Hq Hn Hc Ht. unfold refreshOne.
  rewrite Hq, Hs. unfold Dom.bubble_of. rewrite Hn, Hc, Ht.
  rewrite String.eqb_refl. simpl.
  rewrite (update_message_fix _ _ _ _ _ Hq Hn).
  - now destruct w.
  - destruct b. simpl in *. now rewrite Hc.
Qed.

(** X7: delivering a score to the refresher a second time changes nothing:
    the badge already shows it, so the page stays as it is and no further
    detail request is made. *)
Theorem refreshOne_redelivery (so : ScoreObj) (q : Q) (w : World) :
  so_critic_score so = ScoreNum q ->
  refreshOne so (fst (refreshOne so w)) = (fst (refreshOne so w), false).
Proof.
  intros Hs.
  destruct (Dom.querySelector (so_id so) (dom w)) as [e|] eqn:Hq.
  - assert (He := Hq). apply find_some in He as [_ He].
    destruct (has_message_id_bubble _ _ He) as (b & Hn & _).
    unfold refreshOne at 2 3. rewrite Hq, Hs. unfold Dom.bubble_of.
    rewrite Hn.
    pose proof (querySelector_update_message (so_id so)
                  (Dom.ensure_badge "bg-red-500") _ _ _
                  (fun _ => eq_refl) Hq Hn) as Hq1.
    destruct (negb _) eqn:Hd; simpl.
    + eapply (refreshOne_same_score so _ _
                (Dom.set_badge_text (JsNum.toString q) "bg-red-500"
                   (Dom.ensure_badge "bg-red-500" b)) _ q Hs); simpl.
      * eapply querySelector_update_message; [reflexivity|exact Hq1|].
        reflexivity.
      * reflexivity.
      * reflexivity.
      * reflexivity.
    + eapply (refreshOne_same_score so _ _
                (Dom.ensure_badge "bg-red-500" b) _ q Hs); simpl.
      * exact Hq1.
      * reflexivity.
      * reflexivity.
      * apply negb_false_iff, String.eqb_eq in Hd. simpl.
        now destruct (critic_circle b).
  - unfold refreshOne at 2 3. rewrite Hq. simpl.
    unfold refreshOne. now rewrite Hq.
Qed.

Lemma refreshOne_redelivery_witness :
  refreshOne kyoto_score (fst (refreshOne kyoto_score kyoto_watching_world))
  = (fst (refreshOne kyoto_score kyoto_watching_world), false).
Proof.
  exact (refreshOne_redelivery kyoto_score (17 # 2) kyoto_watching_world
           eq_refl).
Defined.

(** X8: the refresher asks for the details of a message only while its
    bubble is not marked [data-critique-displayed]: for a marked bubble no
    score, changed or not, makes it ask again. *)
Theorem refreshOne_displayed_never_fetches (so : ScoreObj) (w : World)
    (b : Bubble) :
  Dom.message (so_id so) (dom w) = Some b ->
  data_critique_displayed b = true ->
  detail_fetches (fst (refreshOne so w)) = detail_fetches w.
Proof.
  unfold Dom.message, refreshOne.
  destruct (Dom.querySelector (so_id so) (dom w)) as [e|]; [|discriminate].
  intros -> ->. repeat case_match; simpl in *; try discriminate; reflexivity.
Qed.

Lemma refreshOne_displayed_never_fetches_witness :
  detail_fetches (fst (refreshOne kyoto_score_revised kyoto_refreshed_world))
  = detail_fetches kyoto_refreshed_world.
Proof.
  exact (refreshOne_displayed_never_fetches kyoto_score_revised
           kyoto_refreshed_world kyoto_refreshed_bubble eq_refl eq_refl).
Defined.

Lemma without_badge_update_message (id : string) (f : Bubble -> Bubble)
    (d : DOM) :
  (forall k b, without_badge {| nid := k; node := NBubble (f b) |}
               = without_badge {| nid := k; node := NBubble b |}) ->
  List.map without_badge (Dom.update_message id f d)
  = List.map without_badge d.
Proof.
  intros Hf. induction d as [|[k x] d IH]; [reflexivity|]. simpl.
  destruct x as [b|sid h|c]; simpl; try now rewrite IH.
  destruct (data_message_id b =? id)%string; simpl.
  - now rewrite Hf.
  - now rewrite IH.
Qed.

Lemma without_badge_refreshOne (so : ScoreObj) (w : World) :
  List.map without_badge (dom (fst (refreshOne so w)))
  = List.map without_badge (dom w).
Proof.
  unfold refreshOne. repeat case_match; simpl;
    rewrite ?without_badge_update_message by reflexivity; reflexivity.
Qed.

(** X9: a score round adds, removes and reorders no element of the page.
    Every bubble keeps its identifier, its text, its role, its
    placeholder mark, its critique mark, its parent, its output number
    and its Prefer button, and every steps or critique container keeps
    its content; no turn, loop or chat identifier changes.  What a round
    writes is the score badge of a bubble and, for a repaint, its
    opacity, which a [Bubble] does not record.  This holds of the
    handling of a response by itself, and so of a round of a run. *)
Theorem score_round_preserves_bubbles (l : list ScoreObj)
    (r : option (option (list ScoreObj))) (w : World) :
  (List.map without_badge (dom (refreshEach l w))
   = List.map without_badge (dom w)
   /\ turns (refreshEach l w) = turns w
   /\ currentChatId (refreshEach l w) = currentChatId w)
  /\ (List.map without_badge (dom (scoresSettled r w))
      = List.map without_badge (dom w)
      /\ turns (scoresSettled r w) = turns w
      /\ currentChatId (scoresSettled r w) = currentChatId w).
Proof.
  assert (H : forall l w,
            List.map without_badge (dom (refreshEach l w))
            = List.map without_badge (dom w)
            /\ turns (refreshEach l w) = turns w
            /\ currentChatId (refreshEach l w) = currentChatId w).
  { clear. intros l. induction l as [|so l IH]; intros w; [now repeat split|].
    simpl. pose proof (without_badge_refreshOne so w) as H1.
    pose proof (refreshOne_turns so w) as H2.
    assert (H3 : currentChatId (fst (refreshOne so w)) = currentChatId w).
    { unfold refreshOne. repeat case_match; reflexivity. }
    destruct (refreshOne so w) as [w1 threw]. simpl in *.
    destruct threw; [now repeat split|].
    destruct (IH w1) as (I1 & I2 & I3). repeat split; congruence. }
  split; [apply H|]. unfold scoresSettled.
  destruct (truthy_text (currentChatId w)); [|now repeat split].
  destruct r as [[l'|]|]; try now repeat split. apply H.
Qed.

(** ** Rendering *)

Lemma detailSections_nan (l : list (string * option CritiqueSection))
    (secs : list SectionView) :
  detailSections l = Some secs ->
  Forall (fun v => v = nanSection (sec_title v)) secs
  /\ length secs <= length l.
Proof.
  revert secs. induction l as [|[title [s|]] l IH]; intros secs; simpl.
  - intros [= <-]. split; [constructor|simpl; lia].
  - unfold detailSection. destruct (score s); [|discriminate].
    destruct (detailSections l) as [vs|]; [|discriminate].
    intros [= <-]. destruct (IH vs eq_refl) as [IH1 IH2].
    split; [constructor; [reflexivity|exact IH1]|simpl; lia].
  - intros H. destruct (IH secs H). split; [assumption|lia].
Qed.

(** X10: whatever scores and reasons a critique holds, every section of the
    detail view that [displayCritiqueAndRegeneration] builds reads
    [NaN/10] in red with the reason [undefined]: the section builder is
    handed the score where it expects the section.  There are at most
    five of them. *)
Theorem critiqueContainer_sections_unreadable (sd : SearchData)
    (c : CritiquePanel) :
  critiqueContainer sd = Some c ->
  Forall (fun v => v = nanSection (sec_title v)) (cp_sections c)
  /\ length (cp_sections c) <= 5.
Proof.
  unfold critiqueContainer. destruct (critique sd) as [cr|].
  - destruct (detailSections _) as [secs|] eqn:E; [|discriminate].
    intros [= <-]. simpl. exact (detailSections_nan _ _ E).
  - intros [= <-]. simpl. split; [constructor|lia].
Qed.

Lemma critiqueContainer_sections_unreadable_witness :
  Forall (fun v => v = nanSection (sec_title v))
    [ nanSection "Question Format & Pacing" ]
  /\ 1 <= 5.
Proof.
  exact (critiqueContainer_sections_unreadable kyoto_critique _ eq_refl).
Defined.

(** X11: [displayCritiqueAndRegeneration] leaves every element of the page
    as it is and appends at most one element, a critique container, at
    the end; it appends one only for a search output that parses and
    holds a critique or a regenerated text. *)
Theorem displayCritiqueAndRegeneration_appends (m : MsgData) (fresh : nat)
    (d : DOM) :
  exists l,
    displayCritiqueAndRegeneration m fresh d = d ++ l
    /\ length l <= 1
    /\ Forall (fun e => nid e = fresh /\ is_critique_container e = true) l
    /\ (l <> [] ->
        exists sd, md_search_output m = SOParsed sd
                   /\ hasCritique sd = true).
Proof.
  assert (Hnone : forall x : DOM, x = d ->
            exists l, x = d ++ l /\ length l <= 1
              /\ Forall (fun e => nid e = fresh
                                  /\ is_critique_container e = true) l
              /\ (l <> [] ->
                  exists sd, md_search_output m = SOParsed sd
                             /\ hasCritique sd = true)).
  { intros x ->. exists []. rewrite app_nil_r.
    split; [reflexivity|]. split; [simpl; lia|].
    split; [constructor|]. now intros H. }
  unfold displayCritiqueAndRegeneration.
  destruct (md_search_output m) as [| |sd] eqn:Em; try now apply Hnone.
  destruct (negb (present (critique sd))
            && negb (truthy_text (regenerated_content sd))) eqn:Eg;
    [now apply Hnone|].
  destruct (critiqueContainer sd) as [c|]; [|now apply Hnone].
  exists [ {| nid := fresh; node := NCritique c |} ].
  split; [reflexivity|]. split; [simpl; lia|].
  split; [repeat constructor|].
  intros _. exists sd. split; [reflexivity|]. unfold hasCritique.
  destruct (present (critique sd)),
    (truthy_text (regenerated_content sd)); (reflexivity || discriminate).
Qed.

(** X12: the guard of the critic loop and the renderer it guards agree:
    [displayCritiqueInSteps] writes something exactly when the parsed
    search output holds a critique or a regenerated text, and what it
    writes are at most two blocks, an evaluation and an improved
    response. *)
Theorem displayCritiqueInSteps_empty_iff (sd : SearchData) :
  (displayCritiqueInSteps sd = [] <-> hasCritique sd = false)
  /\ forallb Dom.is_panel_block (displayCritiqueInSteps sd) = true
  /\ length (displayCritiqueInSteps sd) <= 2.
Proof.
  unfold displayCritiqueInSteps, hasCritique.
  destruct (critique sd) as [c|],
    (truthy_text (regenerated_content sd)); simpl;
    (split; [split; intros H; (discriminate || reflexivity)|split;
      [reflexivity|lia]]).
Qed.

(** X13: a status that mentions an error without being [error] itself, as
    [ner_error], [search_error] and [response_error] do, is drawn in red
    but is not terminal: the callback neither stops its loop nor starts
    the critic loop on it. *)
Theorem error_status_red_but_polling (sd : StatusData) (sl : StatusLoop)
    (tn : Turn) :
  JsString.includes "error" (status sd) = true ->
  status sd <> "error" ->
  getStatusColorClass (status sd) = "bg-red-100"
  /\ isTerminal (status sd) = false
  /\ sl_polling <$> t_status (statusTurn sd sl tn) = Some (sl_polling sl)
  /\ t_critic (statusTurn sd sl tn) = t_critic tn.
Proof.
  intros Hi Hne.
  assert (Ht : isTerminal (status sd) = false).
  { unfold isTerminal.
    destruct (String.eqb_spec (status sd) "response_generated") as [E|_];
      [rewrite E in Hi; vm_compute in Hi; discriminate|].
    destruct (String.eqb_spec (status sd) "completed") as [E|_];
      [rewrite E in Hi; vm_compute in Hi; discriminate|].
    destruct (String.eqb_spec (status sd) "error") as [E|_];
      [contradiction|reflexivity]. }
  split; [|split; [exact Ht|]].
  - unfold getStatusColorClass. now rewrite Hi, orb_true_r.
  - unfold statusTurn, isFinal. rewrite Ht. simpl. split; reflexivity.
Qed.

Lemma error_status_red_but_polling_witness :
  getStatusColorClass (status kyoto_ner_error) = "bg-red-100"
  /\ isTerminal (status kyoto_ner_error) = false
  /\ sl_polling
       <$> t_status (statusTurn kyoto_ner_error kyoto_polling_loop
                       kyoto_polling_turn)
     = Some (sl_polling kyoto_polling_loop)
  /\ t_critic (statusTurn kyoto_ner_error kyoto_polling_loop
                 kyoto_polling_turn)
     = t_critic kyoto_polling_turn.
Proof.
  apply (error_status_red_but_polling kyoto_ner_error kyoto_polling_loop
           kyoto_polling_turn).
  - vm_compute. reflexivity.
  - simpl. discriminate.
Defined.



Lemma updateProcessingStepsDisplay_no_panel (sd : StatusData) :
  existsb Dom.is_panel_block (updateProcessingStepsDisplay sd) = false.
Proof.
  unfold updateProcessingStepsDisplay. repeat case_match; reflexivity.
Qed.

(** X15: the status callback does not look at what its container holds:
    when it renders it replaces the whole content by the steps of the
    snapshot, which never include a critique.  A response that arrives
    after the critic loop has written the critique into the same
    container thus erases it. *)
Theorem late_status_render_erases_critique (w : World) (t : nat) (tn : Turn)
    (sl : StatusLoop) (sd : StatusData) (h : list Block) :
  turns w !! t = Some tn -> t_status tn = Some sl ->
  shouldRender sd sl = true ->
  steps_html (sl_stepsContainer sl) (dom w) = Some h ->
  steps_html (sl_stepsContainer sl)
    (dom (step w (EvStatusSettled t (Ok sd))))
  = Some (updateProcessingStepsDisplay sd)
  /\ existsb Dom.is_panel_block (updateProcessingStepsDisplay sd) = false.
Proof.
  intros Ht Hs Hr Hh.
  rewrite (dom_statusSettled w t tn sl sd Ht Hs), steps_html_statusDom, Hr, Hh.
  split; [reflexivity|apply updateProcessingStepsDisplay_no_panel].
Qed.

Lemma late_status_render_erases_critique_witness :
  existsb Dom.is_panel_block
    <$> steps_html 5 (dom kyoto_late_world) = Some true
  /\ steps_html 5
       (dom (step kyoto_late_world (EvStatusSettled 0 (Ok kyoto_completed))))
     = Some (updateProcessingStepsDisplay kyoto_completed)
  /\ existsb Dom.is_panel_block (updateProcessingStepsDisplay kyoto_completed)
     = false.
Proof.
  split; [vm_compute; reflexivity|].
  refine (late_status_render_erases_critique kyoto_late_world 0
            kyoto_late_turn kyoto_late_loop kyoto_completed _
            eq_refl eq_refl eq_refl _).
  vm_compute. reflexivity.
Defined.

(** ** Sessions *)

Lemma refreshOne_chat (so : ScoreObj) (w : World) :
  currentChatId (fst (refreshOne so w)) = currentChatId w.
Proof. unfold refreshOne. repeat case_match; reflexivity. Qed.

Lemma refreshEach_chat (l : list ScoreObj) (w : World) :
  currentChatId (refreshEach l w) = currentChatId w.
Proof.
  revert w. induction l as [|so l IH]; intros w; [reflexivity|]. simpl.
  pose proof (refreshOne_chat so w) as H.
  destruct (refreshOne so w) as [w1 threw]. simpl in H.
  destruct threw; [exact H|]. now rewrite IH.
Qed.

Lemma step_chat_id (w : World) (e : Event) :
  truthy_text (currentChatId w) = true ->
  truthy_text (currentChatId (step w e)) = true.
Proof.
  intros H. destruct e; simpl;
    unfold handleSend, sendToServer, submitSettled, submitFailed, statusTick,
      statusSettled, statusTimeout, criticTick, criticSettled, criticTimeout,
      scoresSettled, detailSettled;
    rewrite ?refreshEach_chat;
    repeat case_match; simpl; rewrite ?refreshEach_chat;
    (assumption || discriminate).
Qed.

(** X16: once a chat identifier is set, no submission, poll, timer or
    score round of the session unsets it: a run only ever replaces it by
    another non-empty identifier. *)
Theorem chat_id_stays_set (evs : list Event) (w : World) :
  truthy_text (currentChatId w) = true ->
  truthy_text (currentChatId (run evs w)) = true.
Proof.
  revert w. induction evs as [|e evs IH]; intros w H; [exact H|].
  simpl. apply IH, step_chat_id, H.
Qed.

Lemma chat_id_stays_set_witness :
  truthy_text (currentChatId (run kyoto_answered second_assistant_on)) = true.
Proof.
  exact (chat_id_stays_set kyoto_answered second_assistant_on eq_refl).
Defined.

(** ** Turns without loops, and loops that have stopped *)

Lemma turn_succ_frozen (obs : option StatusData) (tn tn' : Turn) :
  turn_succ obs tn tn' -> frozen tn -> tn' = tn.
Proof.
  destruct 1; intros (Hp & Hs & Hc); congruence.
Qed.

Lemma run_frozen (evs : list Event) (w : World) (t : nat) (tn : Turn) :
  turns w !! t = Some tn -> frozen tn -> turns (run evs w) !! t = Some tn.
Proof.
  revert w. induction evs as [|e evs IH]; intros w Ht Hf; [exact Ht|].
  destruct (step_turn w e t tn Ht) as (tn1 & H1 & Hsucc).
  rewrite (turn_succ_frozen _ _ _ Hsucc Hf) in H1.
  simpl. now apply IH.
Qed.

(** X17: a submission that fails, or whose response names no message,
    starts no polling, and nothing that happens later in the session
    changes its turn again: no status or critic request is ever made for
    it. *)
Theorem submission_without_message_never_polls (w : World) (t : nat)
    (tn : Turn) (r : option SubmitData) :
  turns w !! t = Some tn -> t_phase tn = Submitting ->
  starts_no_polling r = true ->
  exists tn',
    frozen tn'
    /\ forall evs,
         turns (run evs (step w (EvSubmitSettled t r))) !! t = Some tn'.
Proof.
  intros Ht Hp Hr.
  assert (Hl : t < length (turns w)) by (eapply lookup_lt_Some, Ht).
  assert (H : exists tn', frozen tn'
            /\ turns (step w (EvSubmitSettled t r)) !! t = Some tn').
  { simpl. unfold submitSettled. rewrite Ht, Hp.
    destruct r as [data|].
    - destruct (truthy_text (sd_error data)) eqn:Ee.
      + exists (failedTurn tn). split; [now repeat split|].
        simpl. now apply list_lookup_insert_eq.
      + simpl in Hr. rewrite Ee in Hr. simpl in Hr.
        apply negb_true_iff in Hr.
        exists (acceptedTurn data (S (next_nid w)) tn). split.
        * unfold frozen, acceptedTurn. simpl. now rewrite Hr.
        * simpl. now apply list_lookup_insert_eq.
    - exists (failedTurn tn). split; [now repeat split|].
      simpl. now apply list_lookup_insert_eq. }
  destruct H as (tn' & Hf & H). exists tn'. split; [exact Hf|].
  intros evs. now apply run_frozen.
Qed.

Lemma submission_without_message_never_polls_witness :
  exists tn',
    frozen tn'
    /\ forall evs,
         turns (run evs (step kyoto_submitting_world
                           (EvSubmitSettled 0 (Some busy)))) !! 0
         = Some tn'.
Proof.
  exact (submission_without_message_never_polls kyoto_submitting_world 0
           kyoto_submitting_turn (Some busy) eq_refl eq_refl eq_refl).
Defined.

Lemma handoffs_app (cs cs' : list Call) :
  List.filter is_handoff cs' = [] ->
  length (List.filter is_handoff (cs ++ cs'))
  = length (List.filter is_handoff cs).
Proof.
  intros H. rewrite List.filter_app, H, app_nil_r. reflexivity.
Qed.

Lemma handoff_inv_early (tn : Turn) :
  handoff_inv tn -> t_phase tn <> Settled ->
  t_status tn = None /\ t_critic tn = None
  /\ length (List.filter is_handoff (t_calls tn)) = 0.
Proof.
  intros (Hph & Hcr & Hn) Hne.
  assert (Hs : t_status tn = None).
  { destruct (t_status tn) as [sl|] eqn:E; [|reflexivity].
    exfalso. apply Hne, Hph. rewrite ?E. discriminate. }
  rewrite Hs in Hcr. rewrite Hcr in Hn.
  split; [exact Hs|]. split; [|exact Hn].
  now destruct (t_critic tn).
Qed.

Lemma turn_succ_handoff_inv (obs : option StatusData) (tn tn' : Turn) :
  turn_succ obs tn tn' -> handoff_inv tn -> handoff_inv tn'.
Proof.
  intros Hsucc Hinv. pose proof Hinv as (Hph & Hcr & Hn).
  destruct Hsucc as [tn|tn id1 id2 Hp|tn Hp|tn data n Hp|tn sl Hs Hp|tn sl Hs
                    |tn sl sd Hs|tn cl Hc Hp|tn cl Hc|tn cl m sd Hc].
  - exact Hinv.
  - destruct (handoff_inv_early tn Hinv) as (_ & _ & H0); [congruence|].
    unfold handoff_inv. simpl. rewrite handoffs_app by reflexivity.
    split; [intros H; now destruct H|]. now split.
  - destruct (handoff_inv_early tn Hinv) as (_ & _ & H0); [congruence|].
    unfold handoff_inv. simpl. rewrite handoffs_app by reflexivity.
    split; [reflexivity|]. now split.
  - destruct (handoff_inv_early tn Hinv) as (_ & _ & H0); [congruence|].
    unfold handoff_inv. simpl.
    rewrite handoffs_app by now destruct (sd_user_message data) as [[? ?]|].
    split; [reflexivity|]. split; [|exact H0].
    now destruct (truthy_text (sd_message_id data)).
  - unfold handoff_inv. simpl. rewrite handoffs_app by reflexivity.
    rewrite Hs in Hcr. split; [intros _; apply Hph; congruence|].
    now split.
  - unfold handoff_inv. simpl. rewrite handoffs_app by reflexivity.
    rewrite Hs in Hcr. split; [intros _; apply Hph; congruence|].
    now split.
  - rewrite Hs in Hcr.
    assert (Hset : t_phase tn = Settled) by (apply Hph; congruence).
    unfold handoff_inv, statusTurn. destruct (isFinal sd sl) eqn:Ef; simpl.
    + unfold isFinal in Ef.
      destruct (finalResponseShown sl);
        [now rewrite andb_false_r in Ef|].
      rewrite Hcr in Hn. rewrite app_assoc, List.filter_app, length_app.
      rewrite handoffs_app by now destruct (shouldRender sd sl).
      rewrite Hn. now repeat split.
    + rewrite handoffs_app by now destruct (shouldRender sd sl).
      now repeat split.
  - unfold handoff_inv. simpl. rewrite handoffs_app by reflexivity.
    rewrite Hc in Hcr, Hn. now repeat split.
  - unfold handoff_inv. simpl. rewrite handoffs_app by reflexivity.
    rewrite Hc in Hcr, Hn. now repeat split.
  - unfold handoff_inv, criticTurn. simpl.
    rewrite handoffs_app
      by now destruct (shouldDisplay sd cl),
               (truthy_score (md_critic_score m)).
    rewrite Hc in Hcr, Hn. now repeat split.
Qed.

(** X18: in every run the status loop of a turn hands over to the critic
    loop at most once, however many final snapshots arrive and in
    whatever order: a turn has a critic loop exactly when
    [startCriticPolling] was called once for it. *)
Theorem critic_loop_started_at_most_once (evs : list Event) (t : nat) :
  length (List.filter is_handoff (calls t (run evs initial)))
  = if present (critic_loop t (run evs initial)) then 1 else 0.
Proof.
  unfold calls, critic_loop.
  destruct (turns (run evs initial) !! t) as [tn|] eqn:E; [|reflexivity].
  assert (H : handoff_inv tn).
  { revert E. apply (reachable_turn_inv handoff_inv).
    - intros text. split; [intros H; now destruct H|]. now split.
    - apply turn_succ_handoff_inv. }
  now destruct H as (_ & _ & ->).
Qed.

Lemma messages_app (cs cs' : list Call) :
  List.filter is_fetch_message cs' = [] ->
  List.filter is_fetch_message (cs ++ cs')
  = List.filter is_fetch_message cs.
Proof.
  intros H. rewrite List.filter_app, H, app_nil_r. reflexivity.
Qed.

Lemma turn_succ_critic_done (fetched : list Call)
    (obs : option StatusData) (tn tn' : Turn) :
  turn_succ obs tn tn' -> critic_done fetched tn -> critic_done fetched tn'.
Proof.
  intros Hsucc (Hinv & (cl0 & Hc0 & Hp0) & Hf).
  split; [eapply turn_succ_critic_inv; eassumption|].
  pose proof Hinv as (Hph & Hcr). rewrite Hc0 in Hcr.
  destruct Hcr as ((sl0 & Hs0 & Hshown) & _).
  assert (Hset : t_phase tn = Settled) by (apply Hph; congruence).
  destruct Hsucc as [tn|tn id1 id2 Hp|tn Hp|tn data n Hp|tn sl Hs Hp|tn sl Hs
                    |tn sl sd Hs|tn cl Hc Hp|tn cl Hc|tn cl m sd Hc];
    try congruence.
  - eauto.
  - simpl. rewrite messages_app by reflexivity. eauto.
  - simpl. rewrite messages_app by reflexivity. eauto.
  - assert (sl0 = sl) by congruence. subst sl0.
    unfold statusTurn, isFinal. rewrite Hshown, andb_false_r. simpl.
    rewrite messages_app by now destruct (shouldRender sd sl). eauto.
  - simpl. rewrite messages_app by reflexivity. eauto.
  - unfold criticTurn. simpl.
    rewrite messages_app
      by now destruct (shouldDisplay sd cl),
               (truthy_score (md_critic_score m)).
    assert (cl0 = cl) by congruence. subst cl0.
    split; [|exact Hf]. destruct (shouldDisplay sd cl); eauto.
Qed.

(** X19: a critic loop that has stopped, by showing the critique, by a
    failed response or by its timer, never polls again: whatever follows
    in the session, it stays stopped and asks for the message no more. *)
Theorem stopped_critic_loop_stays_stopped (evs1 evs2 : list Event) (t : nat)
    (cl : CriticLoop) :
  critic_loop t (run evs1 initial) = Some cl -> cl_polling cl = false ->
  cl_polling <$> critic_loop t (run (evs1 ++ evs2) initial) = Some false
  /\ List.filter is_fetch_message (calls t (run (evs1 ++ evs2) initial))
     = List.filter is_fetch_message (calls t (run evs1 initial)).
Proof.
  unfold critic_loop, calls. rewrite run_app.
  destruct (turns (run evs1 initial) !! t) as [tn|] eqn:E; [|discriminate].
  intros Hc Hp.
  assert (H : critic_done (List.filter is_fetch_message (t_calls tn)) tn).
  { split; [|split; [eauto|reflexivity]].
    revert E. apply (reachable_turn_inv critic_inv).
    - intros text. split; [intros H; now destruct H|reflexivity].
    - apply turn_succ_critic_inv. }
  clear Hc Hp. revert E H.
  generalize (List.filter is_fetch_message (t_calls tn)) as fetched.
  generalize (run evs1 initial) as w. revert tn.
  induction evs2 as [|e evs2 IH]; intros tn w fetched E H.
  - simpl. rewrite E. destruct H as (_ & (cl' & -> & Hp) & Hf).
    simpl. now rewrite Hp.
  - destruct (step_turn w e t tn E) as (tn1 & H1 & Hsucc).
    simpl. eapply IH; [exact H1|].
    eapply turn_succ_critic_done; eassumption.
Qed.

Lemma stopped_critic_loop_stays_stopped_witness :
  cl_polling
    <$> critic_loop 0
          (run (kyoto_late_status
                ++ [ EvCriticTick 0; EvStatusSettled 0 (Ok kyoto_completed);
                     EvCriticTick 0 ]) initial)
  = Some false
  /\ List.filter is_fetch_message
       (calls 0
          (run (kyoto_late_status
                ++ [ EvCriticTick 0; EvStatusSettled 0 (Ok kyoto_completed);
                     EvCriticTick 0 ]) initial))
     = List.filter is_fetch_message (calls 0 (run kyoto_late_status initial)).
Proof.
  apply (stopped_critic_loop_stays_stopped kyoto_late_status
           [ EvCriticTick 0; EvStatusSettled 0 (Ok kyoto_completed);
             EvCriticTick 0 ] 0
           {| cl_messageId := "m1"; cl_stepsContainer := 5;
              criticShown := true; cl_polling := false |}).
  - vm_compute. reflexivity.
  - reflexivity.
Defined.

(** X20: the callback of a status request does not look at whether its
    loop is still running.  A final snapshot that arrives after the loop
    was stopped, by its timer or by a failed response, is handled like
    any other: the answer is put on the page and the critic loop
    starts. *)
Theorem stopped_status_loop_still_answers (w : World) (t : nat) (tn : Turn)
    (sl : StatusLoop) (sd : StatusData) :
  turns w !! t = Some tn -> t_status tn = Some sl ->
  isFinal sd sl = true ->
  critic_loop t (step w (EvStatusSettled t (Ok sd)))
  = Some (startCriticPolling (sl_messageId sl) (sl_stepsContainer sl))
  /\ is_Some (Dom.message (message_id sd)
                (dom (step w (EvStatusSettled t (Ok sd))))).
Proof.
  intros Ht Hs Hf. split.
  - unfold critic_loop. simpl. unfold statusSettled. rewrite Ht, Hs.
    simpl. rewrite list_lookup_insert_eq by (eapply lookup_lt_Some, Ht).
    unfold statusTurn. now rewrite Hf.
  - rewrite (dom_statusSettled w t tn sl sd Ht Hs). unfold statusDom.
    rewrite Hf. apply addMessageToChat_present.
Qed.

Lemma stopped_status_loop_still_answers_witness :
  sl_polling kyoto_timed_out_loop = false
  /\ critic_loop 0
       (step kyoto_timed_out_world (EvStatusSettled 0 (Ok kyoto_generated)))
     = Some (startCriticPolling (sl_messageId kyoto_timed_out_loop)
               (sl_stepsContainer kyoto_timed_out_loop))
  /\ is_Some (Dom.message (message_id kyoto_generated)
                (dom (step kyoto_timed_out_world
                        (EvStatusSettled 0 (Ok kyoto_generated))))).
Proof.
  split; [reflexivity|].
  exact (stopped_status_loop_still_answers kyoto_timed_out_world 0
           kyoto_timed_out_turn kyoto_timed_out_loop kyoto_generated
           eq_refl eq_refl eq_refl).
Defined.



Lemma addMessageToChat_keeps_present (id id' : string)
    (text : Text) (role : Role)
    (sc : ScoreField) (dummy : bool) (pid : option string)
    (out : option nat) (sa : bool) (fresh : nat) (d : DOM) :
  is_Some (Dom.message id d) ->
  is_Some (Dom.message id
             (addMessageToChat id' text role sc dummy pid out sa fresh d)).
Proof.
  intros [b Hb]. unfold addMessageToChat.
  destruct (Dom.querySelector id' d).
  - destruct (is_undefined sc); [eauto|].
    rewrite message_update_message by reflexivity. rewrite Hb.
    destruct (id' =? id)%string; simpl; eauto.
  - rewrite message_app_last, Hb. eauto.
Qed.

Lemma addMessageToChat_again (id : string) (text : Text) (role : Role)
    (dummy : bool) (pid : option string) (out : option nat) (sa : bool)
    (fresh : nat) (d : DOM) :
  is_Some (Dom.message id d) ->
  addMessageToChat id text role ScoreUndefined dummy pid out sa fresh d = d.
Proof. intros [b Hb]. eapply addMessageToChat_existing, Hb. Qed.

(** X22: [handleSend] names its two placeholders [temp-user] and
    [temp-assistant] whatever the message.  A second send while they are
    still on the page therefore adds no bubble, and the text of the
    second message is shown nowhere; yet it opens a turn of its own,
    which will be submitted. *)
Theorem second_send_adds_no_placeholder (w : World) (text : Text) :
  JsString.nonempty (JsString.trim (user_input w)) = true ->
  JsString.nonempty (JsString.trim text) = true ->
  dom (run [ EvSend; EvType text; EvSend ] w) = dom (run [ EvSend ] w)
  /\ turns (run [ EvSend; EvType text; EvSend ] w)
     = turns w ++ [ newTurn (JsString.trim (user_input w));
                    newTurn (JsString.trim text) ].
Proof.
  intros H1 H2.
  change (run [ EvSend; EvType text; EvSend ] w)
    with (handleSend (step (handleSend w) (EvType text))).
  change (run [ EvSend ] w) with (handleSend w).
  assert (E1 : handleSend w
               = {| dom :=
                      addMessageToChat "temp-assistant"
                        "Assistant is typing..." Assistant ScoreUndefined
                        true None None (second_assistant w) (S (next_nid w))
                        (addMessageToChat "temp-user"
                           (JsString.trim (user_input w)) User ScoreUndefined
                           true None None (second_assistant w) (next_nid w)
                           (dom w));
                    next_nid := S (S (next_nid w)); user_input := "";
                    currentChatId := currentChatId w;
                    second_assistant := second_assistant w;
                    turns := turns w
                             ++ [ newTurn (JsString.trim (user_input w)) ];
                    detail_fetches := detail_fetches w |}).
  { unfold handleSend. now rewrite H1. }
  rewrite E1. unfold handleSend.
  cbn [step user_input dom next_nid second_assistant turns currentChatId
       detail_fetches].
  rewrite H2. cbn [negb dom turns]. split.
  - rewrite (addMessageToChat_again "temp-user").
    + apply addMessageToChat_again, addMessageToChat_present.
    + apply addMessageToChat_keeps_present, addMessageToChat_present.
  - now rewrite <- app_assoc.
Qed.

Lemma second_send_adds_no_placeholder_witness :
  dom (run [ EvSend; EvType "And to Nara"; EvSend ]
         (step initial (EvType "Plan a trip to Kyoto")))
  = dom (run [ EvSend ] (step initial (EvType "Plan a trip to Kyoto")))
  /\ turns (run [ EvSend; EvType "And to Nara"; EvSend ]
              (step initial (EvType "Plan a trip to Kyoto")))
     = [] ++ [ newTurn (JsString.trim "Plan a trip to Kyoto");
               newTurn (JsString.trim "And to Nara") ].
Proof.
  apply (second_send_adds_no_placeholder
           (step initial (EvType "Plan a trip to Kyoto")) "And to Nara");
    vm_compute; reflexivity.
Defined.

(** ** The second output *)

Lemma single_output_update_message (id : string) (f : Bubble -> Bubble)
    (d : DOM) :
  (forall k b, single_output {| nid := k; node := NBubble (f b) |}
               = single_output {| nid := k; node := NBubble b |}) ->
  forallb single_output (Dom.update_message id f d)
  = forallb single_output d.
Proof.
  intros Hf. induction d as [|[k x] d IH]; [reflexivity|]. simpl.
  destruct x as [b|sid h|c]; simpl; try now rewrite IH.
  destruct (data_message_id b =? id)%string; simpl.
  - now rewrite Hf.
  - now rewrite IH.
Qed.

Lemma single_output_update_elem (n : nat) (f : Node -> Node) (d : DOM) :
  (forall k x, single_output {| nid := k; node := f x |}
               = single_output {| nid := k; node := x |}) ->
  forallb single_output (Dom.update_elem n f d) = forallb single_output d.
Proof.
  intros Hf. unfold Dom.update_elem.
  induction d as [|[k x] d IH]; [reflexivity|]. simpl. rewrite IH.
  destruct (k =? n)%nat; [|reflexivity]. now rewrite Hf.
Qed.

Lemma single_output_filter (p : Elem -> bool) (d : DOM) :
  forallb single_output d = true ->
  forallb single_output (List.filter p d) = true.
Proof.
  induction d as [|e d IH]; [reflexivity|]. simpl.
  intros H. apply andb_true_iff in H as [He Hd].
  destruct (p e); simpl; rewrite ?He; auto.
Qed.

Lemma single_output_removePlaceholders (d : DOM) :
  forallb single_output d = true ->
  forallb single_output (removePlaceholders d) = true.
Proof.
  intros H. unfold removePlaceholders. now do 2 apply single_output_filter.
Qed.

Lemma single_output_addMessageToChat (id : string) (text : Text) (role : Role)
    (sc : ScoreField) (dummy sa : bool) (fresh : nat) (d : DOM) :
  forallb single_output d = true ->
  forallb single_output
    (addMessageToChat id text role sc dummy None None sa fresh d) = true.
Proof.
  intros H. unfold addMessageToChat. destruct (Dom.querySelector id d).
  - destruct (is_undefined sc); [exact H|].
    now rewrite single_output_update_message.
  - rewrite forallb_app, H. unfold single_output. simpl.
    now rewrite !andb_false_r.
Qed.

Lemma single_output_displayCritiqueAndRegeneration (m : MsgData)
    (fresh : nat) (d : DOM) :
  forallb single_output d = true ->
  forallb single_output (displayCritiqueAndRegeneration m fresh d) = true.
Proof.
  intros H. unfold displayCritiqueAndRegeneration.
  repeat case_match; try exact H. now rewrite forallb_app, H.
Qed.

Lemma single_output_refreshOne (so : ScoreObj) (w : World) :
  forallb single_output (dom (fst (refreshOne so w)))
  = forallb single_output (dom w).
Proof.
  unfold refreshOne. repeat case_match; simpl;
    rewrite ?single_output_update_message by reflexivity; reflexivity.
Qed.

Lemma single_output_refreshEach (l : list ScoreObj) (w : World) :
  forallb single_output (dom (refreshEach l w))
  = forallb single_output (dom w).
Proof.
  revert w. induction l as [|so l IH]; intros w; [reflexivity|]. simpl.
  pose proof (single_output_refreshOne so w) as H.
  destruct (refreshOne so w) as [w1 threw]. simpl in H.
  destruct threw; [exact H|]. now rewrite IH.
Qed.

Lemma single_output_statusDom (sd : StatusData) (sl : StatusLoop) (sa : bool)
    (fresh : nat) (d : DOM) :
  forallb single_output d = true ->
  forallb single_output (statusDom sd sl sa fresh d) = true.
Proof.
  intros H.
  assert (Hr : forallb single_output (renderSteps sd sl d) = true).
  { unfold renderSteps. destruct (shouldRender sd sl); [|exact H].
    rewrite single_output_update_elem; [exact H|].
    now intros k [b|sid h|c]. }
  unfold statusDom. destruct (isFinal sd sl); [|exact Hr].
  now apply single_output_addMessageToChat, single_output_removePlaceholders.
Qed.

Lemma single_output_criticDom (m : MsgData) (sd : SearchData)
    (cl : CriticLoop) (d : DOM) :
  forallb single_output d = true ->
  forallb single_output (criticDom m sd cl d) = true.
Proof.
  intros H. unfold criticDom, updateCriticBadge.
  assert (Hd : forallb single_output
                 (if shouldDisplay sd cl
                  then Dom.update_elem (cl_stepsContainer cl)
                         (append_html (displayCritiqueInSteps sd)) d
                  else d) = true).
  { destruct (shouldDisplay sd cl); [|exact H].
    rewrite single_output_update_elem; [exact H|].
    now intros k [b|sid h|c]. }
  destruct (truthy_score (md_critic_score m)); [|exact Hd].
  now rewrite single_output_update_message.
Qed.

Lemma single_output_step (w : World) (e : Event) :
  forallb single_output (dom w) = true ->
  forallb single_output (dom (step w e)) = true.
Proof.
  intros H. destruct e; simpl; try exact H.
  - unfold handleSend. case_match; [exact H|]. simpl.
    now do 2 apply single_output_addMessageToChat.
  - unfold sendToServer. repeat case_match; try exact H. simpl.
    now do 2 apply single_output_addMessageToChat.
  - unfold submitSettled, submitFailed, acceptedDom.
    repeat case_match; try exact H; simpl;
      rewrite ?forallb_app; simpl; rewrite ?andb_true_r;
      try apply single_output_addMessageToChat;
      now apply single_output_removePlaceholders.
  - unfold statusTick. repeat case_match; exact H.
  - unfold statusSettled. repeat case_match; try exact H. simpl.
    now apply single_output_statusDom.
  - unfold statusTimeout. repeat case_match; exact H.
  - unfold criticTick. repeat case_match; exact H.
  - unfold criticSettled. repeat case_match; try exact H. simpl.
    now apply single_output_criticDom.
  - unfold criticTimeout. repeat case_match; exact H.
  - unfold scoresSettled. repeat case_match; try exact H.
    now rewrite single_output_refreshEach.
  - unfold detailSettled. repeat case_match; try exact H; simpl;
      (rewrite single_output_update_elem; [|now intros ? [?|? ?|?]]);
      now apply single_output_displayCritiqueAndRegeneration.
Qed.

Lemma preferredSibling_single_output (p : string) (k : nat) (d : DOM) :
  forallb single_output d = true -> preferredSibling p k d = None.
Proof.
  unfold preferredSibling. induction d as [|[n x] d IH]; [reflexivity|].
  simpl. intros H. apply andb_true_iff in H as [He Hd].
  rewrite (IH Hd). unfold single_output in He. simpl in He.
  destruct x as [b|sid h|c]; try reflexivity.
  destruct (data_parent_id b); [discriminate|reflexivity].
Qed.

(** X23: no caller of [addMessageToChat] passes a parent or an output
    number.  Whatever the state of the second-assistant toggle, a session
    never puts a bubble with [data-parent-id], [data-output-number] or a
    Prefer button on the page, so that [preferOutput] has nothing to
    hide. *)
Theorem session_shows_no_second_output (evs : list Event) (w : World) :
  forallb single_output (dom w) = true ->
  forallb single_output (dom (run evs w)) = true
  /\ forall p k, preferredSibling p k (dom (run evs w)) = None.
Proof.
  intros H.
  assert (Hr : forallb single_output (dom (run evs w)) = true).
  { revert w H. induction evs as [|e evs IH]; intros w H; [exact H|].
    simpl. apply IH, single_output_step, H. }
  split; [exact Hr|]. intros p k.
  now apply preferredSibling_single_output.
Qed.

Lemma session_shows_no_second_output_witness :
  forallb single_output (dom (run kyoto_answered second_assistant_on)) = true
  /\ forall p k,
       preferredSibling p k (dom (run kyoto_answered second_assistant_on))
       = None.
Proof.
  exact (session_shows_no_second_output kyoto_answered second_assistant_on
           eq_refl).
Defined.

(** X24: what [preferOutput] hides is a bubble of the same parent whose
    output number is not the preferred one; it never hides the output
    that was preferred. *)
Theorem preferOutput_hides_other_output (p : string) (k : nat) (d : DOM)
    (e : Elem) :
  preferredSibling p k d = Some e ->
  In e d
  /\ exists b o,
       node e = NBubble b
       /\ data_parent_id b = Some p
       /\ data_output_number b = Some o
       /\ o <> k.
Proof.
  unfold preferredSibling. intros H. apply find_some in H as [Hin H].
  split; [exact Hin|].
  destruct (node e) as [b|sid h|c]; try discriminate.
  destruct (data_parent_id b) as [p'|] eqn:Ep; [|discriminate].
  destruct (data_output_number b) as [o|] eqn:Eo; [|discriminate].
  apply andb_true_iff in H as [Hp Ho].
  apply String.eqb_eq in Hp. apply Nat.eqb_eq in Ho.
  exists b, o. split; [reflexivity|]. split; [congruence|].
  split; [exact Eo|].
  subst o. destruct (Nat.eqb_spec k 1) as [->|Hne]; lia.
Qed.

Lemma preferOutput_hides_other_output_witness :
  In two_outputs_second two_outputs
  /\ exists b o,
       node two_outputs_second = NBubble b
       /\ data_parent_id b = Some "u1"
       /\ data_output_number b = Some o
       /\ o <> 1.
Proof.
  exact (preferOutput_hides_other_output "u1" 1 two_outputs
           two_outputs_second eq_refl).
Defined.

(** ** Placeholders of a pending submission *)

Lemma addMessageToChat_absent (id : string) (text : Text) (role : Role)
    (sc : ScoreField) (dummy : bool) (pid : option string)
    (out : option nat) (sa : bool) (fresh : nat) (d : DOM) :
  Dom.message id d = None ->
  addMessageToChat id text role sc dummy pid out sa fresh d
  = d ++ [ {| nid := fresh;
              node := NBubble (newBubble id text role sc dummy pid out sa) |} ].
Proof.
  intros H. unfold addMessageToChat.
  now rewrite (querySelector_message_None _ _ H).
Qed.

Lemma message_app_other (id : string) (d : DOM) (n : nat) (b : Bubble) :
  Dom.message id d = None -> (data_message_id b =? id)%string = false ->
  Dom.message id (d ++ [ {| nid := n; node := NBubble b |} ]) = None.
Proof.
  intros H E. now rewrite message_app_bubble, E.
Qed.

(** X26: [handleSend] and, a second later, [sendToServer] each put their
    own pair of placeholders on the page, and neither removes the pair of
    the other.  While a submission is under way the page therefore shows
    the text of the user twice, followed each time by a notice of the
    assistant. *)
Theorem pending_submission_shows_text_twice (w : World) (now1 now2 : N) :
  JsString.nonempty (JsString.trim (user_input w)) = true ->
  Dom.message "temp-user" (dom w) = None ->
  Dom.message "temp-assistant" (dom w) = None ->
  Dom.message ("temp-user-" +:+ pretty now1) (dom w) = None ->
  Dom.message ("temp-assistant-" +:+ pretty now2) (dom w) = None ->
  dom (run [ EvSend; EvSendToServer (length (turns w)) now1 now2 ] w)
  = dom w
    ++ [ {| nid := next_nid w;
            node := NBubble
              (newBubble "temp-user" (JsString.trim (user_input w)) User
                 ScoreUndefined true None None (second_assistant w)) |};
         {| nid := S (next_nid w);
            node := NBubble
              (newBubble "temp-assistant" "Assistant is typing..." Assistant
                 ScoreUndefined true None None (second_assistant w)) |};
         {| nid := S (S (next_nid w));
            node := NBubble
              (newBubble ("temp-user-" +:+ pretty now1)
                 (JsString.trim (user_input w)) User ScoreUndefined true
                 None None (second_assistant w)) |};
         {| nid := S (S (S (next_nid w)));
            node := NBubble
              (newBubble ("temp-assistant-" +:+ pretty now2)
                 "Assistant is thinking..." Assistant ScoreUndefined true
                 None None (second_assistant w)) |} ].
Proof.
  intros Ht H1 H2 H3 H4.
  change (run [ EvSend; EvSendToServer (length (turns w)) now1 now2 ] w)
    with (sendToServer (length (turns w)) now1 now2 (handleSend w)).
  assert (E1 : handleSend w
               = {| dom :=
                      addMessageToChat "temp-assistant"
                        "Assistant is typing..." Assistant ScoreUndefined
                        true None None (second_assistant w) (S (next_nid w))
                        (addMessageToChat "temp-user"
                           (JsString.trim (user_input w)) User ScoreUndefined
                           true None None (second_assistant w) (next_nid w)
                           (dom w));
                    next_nid := S (S (next_nid w)); user_input := "";
                    currentChatId := currentChatId w;
                    second_assistant := second_assistant w;
                    turns := turns w
                             ++ [ newTurn (JsString.trim (user_input w)) ];
                    detail_fetches := detail_fetches w |}).
  { unfold handleSend. now rewrite Ht. }
  rewrite E1. unfold sendToServer.
  cbn [turns dom next_nid second_assistant].
  rewrite lookup_app_r by reflexivity. rewrite Nat.sub_diag.
  cbn [lookup list_lookup newTurn t_phase t_text dom].
  rewrite (addMessageToChat_absent "temp-user") by exact H1.
  rewrite (addMessageToChat_absent "temp-assistant")
    by (apply message_app_other; [exact H2|reflexivity]).
  rewrite (addMessageToChat_absent ("temp-user-" +:+ pretty now1))
    by (repeat apply message_app_other; [exact H3|reflexivity..]).
  rewrite (addMessageToChat_absent ("temp-assistant-" +:+ pretty now2))
    by (repeat apply message_app_other; [exact H4|reflexivity..]).
  now rewrite <- !app_assoc.
Qed.

Lemma pending_submission_shows_text_twice_witness :
  List.map (fun b => (data_message_id b, bubble_text b))
    (bubbles (dom (run [ EvSend; EvSendToServer 0 1700 1700 ]
                     kyoto_typed_world)))
  = [ ("temp-user", text_of "Plan a trip to Kyoto");
      ("temp-assistant", text_of "Assistant is typing...");
      ("temp-user-1700", text_of "Plan a trip to Kyoto");
      ("temp-assistant-1700", text_of "Assistant is thinking...") ].
Proof.
  pose proof (pending_submission_shows_text_twice kyoto_typed_world 1700
                1700 ltac:(vm_compute; reflexivity) eq_refl eq_refl eq_refl
                eq_refl) as H.
  change (length (turns kyoto_typed_world)) with 0 in H.
  rewrite H. vm_compute. reflexivity.
Defined.

(** X27: an entry of a score round that has no [critic_score], for a
    message that is on the page, ends the round: the bubble gets its
    empty badge, the call of [toString] on the missing score throws, and
    the entries after it are not looked at. *)
Theorem scoreless_entry_ends_round (so : ScoreObj) (l : list ScoreObj)
    (w : World) :
  so_critic_score so = ScoreUndefined ->
  is_Some (Dom.message (so_id so) (dom w)) ->
  refreshEach (so :: l) w
  = set_page
      (Dom.update_message (so_id so) (Dom.ensure_badge "bg-red-500") (dom w))
      (detail_fetches w) w.
Proof.
  intros Hs [b Hb]. simpl. unfold refreshOne.
  unfold Dom.message in Hb.
  destruct (Dom.querySelector (so_id so) (dom w)); [|discriminate].
  now rewrite Hs.
Qed.

Lemma scoreless_entry_ends_round_witness :
  refreshEach [ kyoto_scoreless; kyoto_score ] kyoto_watching_world
  = set_page
      (Dom.update_message "m1" (Dom.ensure_badge "bg-red-500")
         (dom kyoto_watching_world))
      (detail_fetches kyoto_watching_world) kyoto_watching_world.
Proof.
  apply (scoreless_entry_ends_round kyoto_scoreless [ kyoto_score ]
           kyoto_watching_world eq_refl).
  vm_compute. eauto.
Defined.

(** X25: the flag [criticShown] of a critic loop counts what the loop has
    written: in every run a turn has written the critique into its steps
    container once if the flag of its critic loop is set, and never
    otherwise. *)
Theorem critique_written_once_per_loop (evs : list Event) (t : nat) :
  length (List.filter is_display (calls t (run evs initial)))
  = match critic_loop t (run evs initial) with
    | Some cl => if criticShown cl then 1 else 0
    | None => 0
    end.
Proof.
  unfold calls, critic_loop.
  destruct (turns (run evs initial) !! t) as [tn|] eqn:E; [|reflexivity].
  assert (H : critic_inv tn).
  { revert E. apply (reachable_turn_inv critic_inv).
    - intros text. split; [intros H; now destruct H|reflexivity].
    - apply turn_succ_critic_inv. }
  destruct H as [_ H]. destruct (t_critic tn) as [cl|]; [|exact H].
  now destruct H as [_ ->].
Qed.
